(** * devops-agent: lead scraping, lead aggregation, outreach templates and
      fan-out posting

    A shallow embedding of [lead_scraper.py] (class [LeadScraper]) and
    [social_media_automation.py] (class [SocialMediaAutomation]), and the
    properties of the engine stated over it.

    Layout:
    - [Py]: the Python values the two classes compute with (text, slices,
      dictionaries with insertion order, the stable sort of [list.sort] and
      [sorted], sets of text);
    - [Dyn]: exceptions, dynamically typed values and [str.format];
    - [Eff]: the effects of the code (browser pages, HTTP calls, files, the
      environment, the clock, logging) as a state-and-exception monad over
      an arbitrary world;
    - [LeadScraper] and [SocialMedia]: the two classes, method by method;
    - [Notions], [Sites], [Assertions]: what the properties are stated
      with, and worlds to run the code in;
    - [Rules] and the modules of facts: how runs are reasoned about;
    - [Aggregator], [Outreach], [Extraction], [Posting]: the properties. *)

From Stdlib Require Import String Ascii DecimalString.
From Stdlib Require Import List ZArith NArith Lia Bool Permutation Sorted.
Import ListNotations.

Set Implicit Arguments.

(* ===================================================================== *)
(** * Python values *)
(* ===================================================================== *)

Module Py.

(** ** Text

    A Python [str] is a sequence of Unicode code points. *)

Definition pystr := list N.

(** Literal text of the source, for literals made of ASCII characters. *)
Definition u (s : string) : pystr :=
  map N_of_ascii (list_ascii_of_string s).
Arguments u s%_string.

(** The double quote character, and a literal between double quotes. *)
Definition dq : pystr := [34%N].
Definition quoted (s : string) : pystr := dq ++ u s ++ dq.
Arguments quoted s%_string.

Definition nl : N := 10%N.

Fixpoint str_eqb (a b : pystr) : bool :=
  match a, b with
  | [], [] => true
  | x :: a', y :: b' => N.eqb x y && str_eqb a' b'
  | _, _ => false
  end.

(** [a < b] on [str]: lexicographic on code points. *)
Fixpoint str_ltb (a b : pystr) : bool :=
  match a, b with
  | _, [] => false
  | [], _ :: _ => true
  | x :: a', y :: b' =>
      if N.ltb x y then true
      else if N.eqb x y then str_ltb a' b'
      else false
  end.

(** [s.startswith(p)] *)
Fixpoint starts_with (p s : pystr) : bool :=
  match p, s with
  | [], _ => true
  | x :: p', y :: s' => N.eqb x y && starts_with p' s'
  | _ :: _, [] => false
  end.

(** [p in s] on [str]: [p] occurs in [s] as a contiguous run. *)
Fixpoint str_in (p s : pystr) : bool :=
  starts_with p s ||
  match s with
  | [] => false
  | _ :: s' => str_in p s'
  end.

(** [c.isspace()] for one code point: the characters [str.strip()] removes. *)
Definition is_space (c : N) : bool :=
  ((9 <=? c) && (c <=? 13) || (28 <=? c) && (c <=? 32)
   || (c =? 133) || (c =? 160) || (c =? 5760)
   || (8192 <=? c) && (c <=? 8202)
   || (c =? 8232) || (c =? 8233) || (c =? 8239) || (c =? 8287)
   || (c =? 12288))%N.

Fixpoint lstrip (s : pystr) : pystr :=
  match s with
  | c :: s' => if is_space c then lstrip s' else s
  | [] => []
  end.

(** [s.strip()] *)
Definition strip (s : pystr) : pystr := rev (lstrip (rev (lstrip s))).

(** [sep.join(parts)] *)
Fixpoint join (sep : pystr) (parts : list pystr) : pystr :=
  match parts with
  | [] => []
  | [p] => p
  | p :: rest => p ++ sep ++ join sep rest
  end.

(** [s.split(c)] for a one-character separator: always at least one part. *)
Fixpoint split_on (c : N) (s : pystr) : list pystr :=
  match s with
  | [] => [[]]
  | x :: s' =>
      if N.eqb x c then [] :: split_on c s'
      else match split_on c s' with
           | p :: ps => (x :: p) :: ps
           | [] => [[x]]
           end
  end.

(** [c in s] for a one-character [c]. *)
Definition has_char (c : N) (s : pystr) : bool := existsb (N.eqb c) s.

(** [str(n)] for an [int]. *)
Definition str_int (z : Z) : pystr := u (NilZero.string_of_int (Z.to_int z)).

(** ** Slices *)

(** [xs[:m]] for an [int] m: a negative bound counts from the end. *)
Definition slice_to (A : Type) (m : Z) (xs : list A) : list A :=
  if (m <? 0)%Z
  then firstn (Z.to_nat (Z.of_nat (length xs) + m)) xs
  else firstn (Z.to_nat m) xs.

(** ** Dictionaries

    A [dict] keeps its keys in insertion order; assigning to a key that is
    present keeps the key's place. *)

Definition dict (V : Type) := list (pystr * V).

Fixpoint dict_get (V : Type) (d : dict V) (k : pystr) : option V :=
  match d with
  | [] => None
  | (k', v) :: d' => if str_eqb k' k then Some v else dict_get d' k
  end.

(** [d[k] = v] *)
Fixpoint dict_set (V : Type) (d : dict V) (k : pystr) (v : V) : dict V :=
  match d with
  | [] => [(k, v)]
  | (k', v') :: d' =>
      if str_eqb k' k then (k', v) :: d' else (k', v') :: dict_set d' k v
  end.

(** A dictionary display [{k1: v1, ...}]: later entries overwrite. *)
Definition dict_of (V : Type) (kvs : list (pystr * V)) : dict V :=
  fold_left (fun d kv => dict_set d (fst kv) (snd kv)) kvs [].

Definition keys (V : Type) (d : dict V) : list pystr := map fst d.
Definition values (V : Type) (d : dict V) : list V := map snd d.

Definition has_key (V : Type) (d : dict V) (k : pystr) : bool :=
  match dict_get d k with Some _ => true | None => false end.

(** [d.get(k, default)] *)
Definition get_default (V : Type) (d : dict V) (k : pystr) (default : V) : V :=
  match dict_get d k with Some v => v | None => default end.

(** ** The values of a lead's fields *)

Inductive pyval : Type :=
| VStr (s : pystr)
| VInt (z : Z)
| VNone.

(** [str(v)] *)
Definition str (v : pyval) : pystr :=
  match v with
  | VStr s => s
  | VInt z => str_int z
  | VNone => u "None"
  end.

(** ** Sorting

    [list.sort] and [sorted] are one stable sort that compares with [<]
    only.  [insert_sorted] puts an item before the first item that is not
    smaller than it, so an item that came first stays first among equals. *)

Section Sort.
Variable A : Type.
Variable lt : A -> A -> bool.

Fixpoint insert_sorted (x : A) (l : list A) : list A :=
  match l with
  | [] => [x]
  | y :: l' => if lt y x then y :: insert_sorted x l' else x :: l
  end.

Definition stable_sort (l : list A) : list A :=
  fold_right insert_sorted [] l.

(** [l.sort(reverse=r)]: with [reverse=True] the list is reversed, sorted
    and reversed again, which keeps equal items in their first order. *)
Definition list_sort (reverse : bool) (l : list A) : list A :=
  if reverse then rev (stable_sort (rev l)) else stable_sort l.

End Sort.

(** [sorted(xs)] on text. *)
Definition sorted_str (xs : list pystr) : list pystr := stable_sort str_ltb xs.

(** A [set] of text, as the list of its members without repetition; the
    order of the list stands for the set's iteration order. *)
Definition set_add (k : pystr) (s : list pystr) : list pystr :=
  if existsb (str_eqb k) s then s else s ++ [k].

(** [s.update(ks)] *)
Definition set_update (s : list pystr) (ks : list pystr) : list pystr :=
  fold_left (fun acc k => set_add k acc) ks s.

End Py.

Import Py.

(* ===================================================================== *)
(** * Exceptions and dynamically typed values *)
(* ===================================================================== *)

Module Dyn.

(** An instance of [Exception]: its class name and its message, [str(e)]. *)
Inductive exn : Type := Exception (cls : pystr) (msg : pystr).

Definition str_exn (e : exn) : pystr := let 'Exception _ m := e in m.

Inductive outcome (A : Type) : Type :=
| Ok (a : A)
| Raised (e : exn).
Arguments Ok {A} a.
Arguments Raised {A} e.

Definition AttributeError := Exception (u "AttributeError").
Definition TypeError := Exception (u "TypeError").
Definition KeyError := Exception (u "KeyError").
Definition IndexError := Exception (u "IndexError").
Definition ValueError := Exception (u "ValueError").

(** What [response.json()] yields and what a caller puts in a posting
    payload: [None], booleans, integers, text, lists and dictionaries. *)
#[warnings="-register-all"]
Inductive json : Type :=
| JNone
| JBool (b : bool)
| JInt (z : Z)
| JStr (s : pystr)
| JList (l : list json)
| JDict (d : list (pystr * json)).

(** Truth value of a value in an [if]. *)
Definition truthy (j : json) : bool :=
  match j with
  | JNone => false
  | JBool b => b
  | JInt z => negb (z =? 0)%Z
  | JStr s => match s with [] => false | _ => true end
  | JList l => match l with [] => false | _ => true end
  | JDict d => match d with [] => false | _ => true end
  end.

(** [j.get(k, default)] *)
Definition json_get (j : json) (k : pystr) (default : json) : outcome json :=
  match j with
  | JDict d => Ok (get_default d k default)
  | _ => Raised (AttributeError (u "object has no attribute 'get'"))
  end.

(** [j.get(k)] *)
Definition json_get_none (j : json) (k : pystr) : outcome json :=
  json_get j k JNone.

(** [j[k]] for a text key. *)
Definition json_item (j : json) (k : pystr) : outcome json :=
  match j with
  | JDict d =>
      match dict_get d k with
      | Some v => Ok v
      | None => Raised (KeyError k)
      end
  | _ => Raised (TypeError (u "indices must be integers or the object is not subscriptable"))
  end.

(** [j[0]] *)
Definition json_first (j : json) : outcome json :=
  match j with
  | JList (x :: _) => Ok x
  | JList [] => Raised (IndexError (u "list index out of range"))
  | JStr (c :: _) => Ok (JStr [c])
  | JStr [] => Raised (IndexError (u "string index out of range"))
  | JDict _ => Raised (KeyError (u "0"))
  | _ => Raised (TypeError (u "object is not subscriptable"))
  end.

(** The items a [for] loop over [j] visits. *)
Definition json_iter (j : json) : outcome (list json) :=
  match j with
  | JList l => Ok l
  | JStr s => Ok (map (fun c => JStr [c]) s)
  | JDict d => Ok (map (fun kv => JStr (fst kv)) d)
  | _ => Raised (TypeError (u "object is not iterable"))
  end.

(** [k in j] for a text [k]. *)
Definition json_contains (k : pystr) (j : json) : outcome bool :=
  match j with
  | JDict d => Ok (has_key d k)
  | JList l =>
      Ok (existsb (fun x => match x with JStr s => str_eqb s k | _ => false end) l)
  | JStr s => Ok (str_in k s)
  | _ => Raised (TypeError (u "argument is not iterable"))
  end.

(** [j[:5]] *)
Definition json_slice5 (j : json) : outcome json :=
  match j with
  | JList l => Ok (JList (firstn 5 l))
  | JStr s => Ok (JStr (firstn 5 s))
  | JDict _ => Raised (KeyError (u "slice(None, 5, None)"))
  | _ => Raised (TypeError (u "object is not subscriptable"))
  end.

(** A reply to an HTTP request: the status and the parsed body;
    [response.json()] raises when the body is not JSON. *)
Record response : Type := { status_code : Z; body : option json }.

Definition response_json (r : response) : outcome json :=
  match body r with
  | Some j => Ok j
  | None => Raised (ValueError (u "Expecting value"))
  end.

(** ** [str.format] with keyword arguments

    One pass from left to right, as Python makes it: literal text is
    copied, a doubled brace stands for one brace, [{name}] is replaced by
    [str] of the keyword argument [name], and the first problem met raises.
    [field] is [None] in literal text and holds the characters of the field
    name read so far (newest first) inside braces.  Conversions, format
    specs, attributes and indices inside a field are not part of the model:
    no template of the source has one, and such a field raises here. *)

Definition lbrace : N := 123%N.
Definition rbrace : N := 125%N.

Definition is_digit (c : N) : bool := ((48 <=? c) && (c <=? 57))%N.

Definition plain_name_char (c : N) : bool :=
  negb ((c =? 33) || (c =? 58) || (c =? 46) || (c =? 91) || (c =? lbrace))%N.

Definition lookup_field (kwargs : dict pyval) (name : pystr) : outcome pystr :=
  if forallb is_digit name
  then Raised (IndexError (u "Replacement index out of range for positional args tuple"))
  else match dict_get kwargs name with
       | Some v => Ok (str v)
       | None => Raised (KeyError name)
       end.

Fixpoint format_from (kwargs : dict pyval) (s : pystr) (field : option pystr)
  : outcome pystr :=
  match field with
  | None =>
      match s with
      | [] => Ok []
      | c :: r =>
          if N.eqb c lbrace then
            match r with
            | c' :: r' =>
                if N.eqb c' lbrace then
                  match format_from kwargs r' None with
                  | Ok t => Ok (lbrace :: t)
                  | Raised e => Raised e
                  end
                else format_from kwargs r (Some [])
            | [] => Raised (ValueError (u "Single '{' encountered in format string"))
            end
          else if N.eqb c rbrace then
            match r with
            | c' :: r' =>
                if N.eqb c' rbrace then
                  match format_from kwargs r' None with
                  | Ok t => Ok (rbrace :: t)
                  | Raised e => Raised e
                  end
                else Raised (ValueError (u "Single '}' encountered in format string"))
            | [] => Raised (ValueError (u "Single '}' encountered in format string"))
            end
          else
            match format_from kwargs r None with
            | Ok t => Ok (c :: t)
            | Raised e => Raised e
            end
      end
  | Some acc =>
      match s with
      | [] => Raised (ValueError (u "expected '}' before end of string"))
      | c :: r =>
          if N.eqb c rbrace then
            match lookup_field kwargs (rev acc) with
            | Ok v =>
                match format_from kwargs r None with
                | Ok t => Ok (v ++ t)
                | Raised e => Raised e
                end
            | Raised e => Raised e
            end
          else if plain_name_char c then format_from kwargs r (Some (c :: acc))
          else Raised (ValueError (u "field syntax outside the model"))
      end
  end.

(** [template.format(k1=v1, ...)], the keyword arguments as a dictionary. *)
Definition format (template : pystr) (kwargs : dict pyval) : outcome pystr :=
  format_from kwargs template None.

End Dyn.

Import Dyn.

(* ===================================================================== *)
(** * Effects *)
(* ===================================================================== *)

Module Eff.

Inductive level : Type := LInfo | LWarning | LError.

(** A Playwright locator: a selector on a page, refined by sub-selectors;
    [Nth] is what [all()] returns for each match, [First] is [.first]. *)
Inductive locator : Type :=
| OnPage (page : nat) (sel : pystr)
| Within (l : locator) (sel : pystr)
| Nth (l : locator) (i : nat)
| First (l : locator).

(** The calls into the browser, the network and the file system.  Each
    either returns a value of its reply type or raises. *)
Inductive io : Type -> Type :=
| NewPage : io nat
| PageClose (page : nat) : io unit
| Goto (page : nat) (url : pystr) : io unit
| Fill (page : nat) (sel : pystr) (value : json) : io unit
| Click (page : nat) (sel : pystr) : io unit
| Press (page : nat) (sel key : pystr) : io unit
| SetInputFiles (page : nat) (sel : pystr) (path : json) : io unit
| Evaluate (page : nat) (js : pystr) : io unit
| All (l : locator) : io nat
| AwaitLocator (l : locator) : io locator
| InnerText (l : locator) : io pystr
| GetAttribute (l : locator) (name : pystr) : io (option pystr)
| LocatorFill (l : locator) (value : json) : io unit
| HttpGet (url : pystr) (params : dict json) : io response
| HttpPost (url : pystr) (data : dict json) : io response
| PathExists (path : json) : io bool
| OpenWrite (filename : pystr) : io nat
| WriteRow (file : nat) (cells : list pystr) : io unit
| CloseFile (file : nat) : io unit.

(** What a run leaves behind, newest first. *)
Inductive event : Type :=
| Call (R : Type) (o : io R)
| Log (lvl : level) (msg : pystr)
| Sleep (ms : N).
Arguments Call {R} o.

(** The world the code runs in.  A reply may depend on everything that
    happened before; nothing is assumed about it. *)
Record world : Type := {
  respond : forall R : Type, io R -> list event -> outcome R;
  getenv : pystr -> option pystr;
  now_isoformat : list event -> pystr;
  now_stamp : list event -> pystr
}.

(** A computation over a state [S]: given the world, the events so far and
    the state, an outcome, the events and the state after it.  The state
    and the events survive an exception. *)
Definition config (S : Type) : Type := (list event * S)%type.

Definition M (S A : Type) : Type :=
  world -> config S -> outcome A * config S.

Definition ret (S A : Type) (a : A) : M S A :=
  fun _ c => (Ok a, c).

Definition raise (S A : Type) (e : exn) : M S A :=
  fun _ c => (Raised e, c).

Definition bind (S A B : Type) (m : M S A) (k : A -> M S B) : M S B :=
  fun w c =>
    match m w c with
    | (Ok a, c') => k a w c'
    | (Raised e, c') => (Raised e, c')
    end.

(** A pure step that may raise. *)
Definition lift_outcome (S A : Type) (o : outcome A) : M S A :=
  fun _ c => (o, c).

Definition perform (S R : Type) (o : io R) : M S R :=
  fun w c => (respond w o (fst c), (Call o :: fst c, snd c)).

Definition log (S : Type) (lvl : level) (msg : pystr) : M S unit :=
  fun _ c => (Ok tt, (Log lvl msg :: fst c, snd c)).

(** [await asyncio.sleep(...)], in milliseconds. *)
Definition sleep (S : Type) (ms : N) : M S unit :=
  fun _ c => (Ok tt, (Sleep ms :: fst c, snd c)).

(** [os.getenv(name)] *)
Definition os_getenv (S : Type) (name : pystr) : M S (option pystr) :=
  fun w c => (Ok (getenv w name), c).

(** [datetime.now().isoformat()] *)
Definition now (S : Type) : M S pystr :=
  fun w c => (Ok (now_isoformat w (fst c)), c).

(** [datetime.now().strftime('%Y%m%d_%H%M%S')] *)
Definition now_strftime (S : Type) : M S pystr :=
  fun w c => (Ok (now_stamp w (fst c)), c).

Definition get (S : Type) : M S S :=
  fun _ c => (Ok (snd c), c).

Definition put (S : Type) (s : S) : M S unit :=
  fun _ c => (Ok tt, (fst c, s)).

(** [try: m  except Exception as e: h e] *)
Definition try_except (S A : Type) (m : M S A) (h : exn -> M S A) : M S A :=
  fun w c =>
    match m w c with
    | (Ok a, c') => (Ok a, c')
    | (Raised e, c') => h e w c'
    end.

(** [try: m  finally: f]: [f] runs on every way out of [m]; when [f]
    itself raises, that exception replaces the outcome of [m]. *)
Definition try_finally (S A : Type) (m : M S A) (f : M S unit) : M S A :=
  fun w c =>
    match m w c with
    | (o, c') =>
        match f w c' with
        | (Ok _, c'') => (o, c'')
        | (Raised e, c'') => (Raised e, c'')
        end
    end.

(** [for x in xs: body x] *)
Fixpoint for_each (S X : Type) (xs : list X) (body : X -> M S unit) : M S unit :=
  match xs with
  | [] => ret tt
  | x :: xs' => bind (body x) (fun _ => for_each xs' body)
  end.

(** [for _ in range(n): body] *)
Fixpoint repeat_n (S : Type) (n : nat) (body : M S unit) : M S unit :=
  match n with
  | O => ret tt
  | Datatypes.S n' => bind body (fun _ => repeat_n n' body)
  end.

(** A method's local variable of type [L], beside the state [S]: the body
    runs with the pair, and the variable is gone when the method ends. *)
Definition with_local (S L A : Type) (init : L) (m : M (S * L) A) : M S A :=
  fun w c =>
    match m w (fst c, (snd c, init)) with
    | (o, (t, (s, _))) => (o, (t, s))
    end.

Definition get_local (S L : Type) : M (S * L) L :=
  fun _ c => (Ok (snd (snd c)), c).

Definition set_local (S L : Type) (l : L) : M (S * L) unit :=
  fun _ c => (Ok tt, (fst c, (fst (snd c), l))).

(** A step on the state [S] inside a method that has a local variable. *)
Definition on_state (S L A : Type) (m : M S A) : M (S * L) A :=
  fun w c =>
    match m w (fst c, fst (snd c)) with
    | (o, (t, s)) => (o, (t, (s, snd (snd c))))
    end.

Definition run (S A : Type) (m : M S A) (w : world) (c : config S)
  : outcome A * config S := m w c.

Arguments ret {S A} a _ _.
Arguments raise {S A} e _ _.
Arguments bind {S A B} m k _ _.
Arguments lift_outcome {S A} o _ _.
Arguments perform {S R} o _ _.
Arguments log {S} lvl msg _ _.
Arguments sleep {S} ms _ _.
Arguments os_getenv {S} name _ _.
Arguments now {S} _ _.
Arguments now_strftime {S} _ _.
Arguments get {S} _ _.
Arguments put {S} s _ _.
Arguments try_except {S A} m h _ _.
Arguments try_finally {S A} m f _ _.
Arguments for_each {S X} xs body _ _.
Arguments repeat_n {S} n body _ _.
Arguments with_local {S L A} init m _ _.
Arguments get_local {S L} _ _.
Arguments set_local {S L} l _ _.
Arguments on_state {S L A} m _ _.
Arguments run {S A} m w c.

End Eff.

Import Eff.

Declare Scope eff_scope.
Delimit Scope eff_scope with eff.
Notation "x <- m ;; k" := (bind m (fun x => k))
  (at level 61, m at next level, right associativity) : eff_scope.
Notation "m ;; k" := (bind m (fun _ => k))
  (at level 61, right associativity) : eff_scope.
Open Scope eff_scope.

(* ===================================================================== *)
(** * [lead_scraper.py]: class [LeadScraper] *)
(* ===================================================================== *)

Module LeadScraper.

(** A lead is a [dict] from field names to text, [None] or an integer. *)
Definition lead : Type := dict pyval.

(** The part of a [LeadScraper] object the methods below touch.  Leads are
    dictionaries shared by reference: [objs] gives the dictionary behind
    each reference, [next_id] is the next fresh reference, and [leads] is
    [self.leads], a list of references. *)
Record scraper : Type := {
  objs : nat -> lead;
  next_id : nat;
  leads : list nat
}.

Definition set_obj (o : nat -> lead) (r : nat) (d : lead) : nat -> lead :=
  fun i => if Nat.eqb i r then d else o i.

(** A dictionary display: a new object. *)
Definition new_dict (d : lead) : M scraper nat :=
  s <- get;;
  put {| objs := set_obj (objs s) (next_id s) d;
         next_id := S (next_id s);
         leads := leads s |};;
  ret (next_id s).

(** [self.leads.extend(new)] *)
Definition extend_leads (new : list nat) : M scraper unit :=
  s <- get;;
  put {| objs := objs s; next_id := next_id s; leads := leads s ++ new |}.

(** [not v] for the result of [os.getenv] or an optional text argument. *)
Definition falsy (v : option pystr) : bool :=
  match v with
  | None => true
  | Some [] => true
  | Some (_ :: _) => false
  end.

Definition text_of (v : option pystr) : pystr :=
  match v with Some s => s | None => [] end.

Definition opt_val (v : option pystr) : pyval :=
  match v with Some s => VStr s | None => VNone end.

Definition e_search : pystr := [128269%N].
Definition e_cross : pystr := [10060%N].
Definition e_check : pystr := [9989%N].
Definition e_warn : pystr := [9888%N; 65039%N].
Definition e_chart : pystr := [128202%N].
Definition e_bird : pystr := [128038%N].
Definition e_robot : pystr := [129302%N].

Definition scroll_to_bottom : pystr :=
  u "window.scrollTo(0, document.body.scrollHeight)".

(** [len(xs)] in an f-string. *)
Definition str_len (A : Type) (xs : list A) : pystr :=
  str_int (Z.of_nat (length xs)).

(** ** [scrape_linkedin_leads] *)

Definition linkedin_results (page : nat) : locator :=
  OnPage page (u ".entity-result").

(** The body of [for profile in profiles[:max_results]]. *)
Definition linkedin_profile (profile : locator) : M (scraper * list nat) unit :=
  try_except
    (name <- perform (InnerText (Within profile (u ".entity-result__title-text")));;
     headline <- perform (InnerText (Within profile (u ".entity-result__primary-subtitle")));;
     location <- perform (InnerText (Within profile (u ".entity-result__secondary-subtitle")));;
     profile_url <- perform (GetAttribute (Within profile (u "a.app-aware-link")) (u "href"));;
     found_date <- now;;
     lead <- on_state (new_dict (dict_of
               [ (u "name", VStr (strip name));
                 (u "headline", VStr (strip headline));
                 (u "location", VStr (strip location));
                 (u "profile_url", opt_val profile_url);
                 (u "platform", VStr (u "linkedin"));
                 (u "found_date", VStr found_date) ]));;
     leads <- get_local;;
     set_local (leads ++ [lead]);;
     log LInfo (e_check ++ u " Found: " ++ strip name ++ u " - " ++ strip headline))
    (fun e => log LWarning (e_warn ++ u "  Error extracting profile: " ++ str_exn e)).

(** The [try] block; [Some r] stands for [return r] inside it. *)
Definition linkedin_try (page : nat) (search_query : pystr) (max_results : Z)
  : M (scraper * list nat) (option (list nat)) :=
  log LInfo (e_search ++ u " Searching LinkedIn for: " ++ search_query);;
  linkedin_email <- os_getenv (u "LINKEDIN_EMAIL");;
  linkedin_password <- os_getenv (u "LINKEDIN_PASSWORD");;
  if falsy linkedin_email || falsy linkedin_password then
    log LError (e_cross ++ u " LinkedIn credentials not set");;
    ret (Some [])
  else
    perform (Goto page (u "https://www.linkedin.com/login"));;
    perform (Fill page (u "input[name=" ++ quoted "session_key" ++ u "]")
                  (JStr (text_of linkedin_email)));;
    perform (Fill page (u "input[name=" ++ quoted "session_password" ++ u "]")
                  (JStr (text_of linkedin_password)));;
    perform (Click page (u "button[type=" ++ quoted "submit" ++ u "]"));;
    sleep 3000;;
    perform (Goto page (u "https://www.linkedin.com/search/results/people/?keywords="
                        ++ search_query));;
    sleep 3000;;
    repeat_n 3 (perform (Evaluate page scroll_to_bottom);; sleep 2000);;
    n <- perform (All (linkedin_results page));;
    for_each (slice_to max_results (map (Nth (linkedin_results page)) (seq 0 n)))
             linkedin_profile;;
    leads <- get_local;;
    log LInfo (e_chart ++ u " Found " ++ str_len leads ++ u " LinkedIn leads");;
    ret None.

Definition scrape_linkedin_leads (search_query : pystr) (max_results : Z)
  : M scraper (list nat) :=
  page <- perform NewPage;;
  with_local []
    (r <- try_finally
            (try_except
               (linkedin_try page search_query max_results)
               (fun e =>
                  log LError (e_cross ++ u " LinkedIn scraping error: " ++ str_exn e);;
                  ret None))
            (perform (PageClose page));;
     match r with
     | Some early => ret early
     | None =>
         leads <- get_local;;
         on_state (extend_leads leads);;
         ret leads
     end).

(** ** [scrape_twitter_leads] *)

Definition twitter_results (page : nat) : locator :=
  OnPage page (u "[data-testid=" ++ quoted "tweet" ++ u "]").

(** [username.split('\n')[i]] *)
Definition line (i : nat) (s : pystr) : pystr := nth i (split_on nl s) [].

(** The body of [for tweet in tweets[:max_results]]. *)
Definition twitter_tweet (hashtag : pystr) (tweet : locator)
  : M (scraper * list nat) unit :=
  try_except
    (username <- perform (InnerText
                   (Within tweet (u "[data-testid=" ++ quoted "User-Name" ++ u "]")));;
     text <- perform (InnerText
                   (Within tweet (u "[data-testid=" ++ quoted "tweetText" ++ u "]")));;
     let handle_match := if has_char nl username then line 1 username else [] in
     found_date <- now;;
     lead <- on_state (new_dict (dict_of
               [ (u "name", VStr (if has_char nl username then line 0 username
                                  else username));
                 (u "handle", VStr handle_match);
                 (u "tweet_text", VStr (firstn 200 (strip text)));
                 (u "platform", VStr (u "twitter"));
                 (u "hashtag", VStr hashtag);
                 (u "found_date", VStr found_date) ]));;
     leads <- get_local;;
     set_local (leads ++ [lead]);;
     log LInfo (e_check ++ u " Found: " ++ handle_match))
    (fun e => log LWarning (e_warn ++ u "  Error extracting tweet: " ++ str_exn e)).

Definition twitter_try (page : nat) (hashtag : pystr) (max_results : Z)
  : M (scraper * list nat) unit :=
  log LInfo (e_bird ++ u " Searching Twitter for: " ++ hashtag);;
  perform (Goto page (u "https://twitter.com/search?q=" ++ hashtag ++ u "&f=live"));;
  sleep 3000;;
  repeat_n 5 (perform (Evaluate page scroll_to_bottom);; sleep 2000);;
  n <- perform (All (twitter_results page));;
  for_each (slice_to max_results (map (Nth (twitter_results page)) (seq 0 n)))
           (twitter_tweet hashtag);;
  leads <- get_local;;
  log LInfo (e_chart ++ u " Found " ++ str_len leads ++ u " Twitter leads").

Definition scrape_twitter_leads (hashtag : pystr) (max_results : Z)
  : M scraper (list nat) :=
  page <- perform NewPage;;
  with_local []
    (try_finally
       (try_except
          (twitter_try page hashtag max_results)
          (fun e => log LError (e_cross ++ u " Twitter scraping error: " ++ str_exn e)))
       (perform (PageClose page));;
     leads <- get_local;;
     on_state (extend_leads leads);;
     ret leads).

(** ** [scrape_facebook_groups] *)

Definition e_blue_book : pystr := [128216%N].

Definition facebook_results (page : nat) : locator :=
  OnPage page (u "[data-testid=" ++ quoted "post" ++ u "]").

(** The one selector both fields of a post are read from. *)
Definition facebook_message : pystr :=
  u "[data-ad-comet-preview=" ++ quoted "message" ++ u "]".

(** The body of [for post in posts[:30]]. *)
Definition facebook_post (group_url : pystr) (post : locator)
  : M (scraper * list nat) unit :=
  try_except
    (author <- perform (InnerText (Within post facebook_message));;
     post_text <- perform (InnerText (Within post facebook_message));;
     found_date <- now;;
     lead <- on_state (new_dict (dict_of
               [ (u "author", VStr (firstn 100 author));
                 (u "post_preview", VStr (firstn 200 post_text));
                 (u "platform", VStr (u "facebook"));
                 (u "group_url", VStr group_url);
                 (u "found_date", VStr found_date) ]));;
     leads <- get_local;;
     set_local (leads ++ [lead]);;
     log LInfo (e_check ++ u " Found post from: " ++ firstn 30 (firstn 100 author)
                ++ u "..."))
    (fun e => log LWarning (e_warn ++ u "  Error extracting post: " ++ str_exn e)).

Definition facebook_try (page : nat) (group_url : pystr)
  : M (scraper * list nat) unit :=
  log LInfo (e_blue_book ++ u " Scraping Facebook group...");;
  perform (Goto page group_url);;
  sleep 5000;;
  repeat_n 3 (perform (Evaluate page scroll_to_bottom);; sleep 2000);;
  n <- perform (All (facebook_results page));;
  for_each (slice_to 30 (map (Nth (facebook_results page)) (seq 0 n)))
           (facebook_post group_url);;
  leads <- get_local;;
  log LInfo (e_chart ++ u " Found " ++ str_len leads ++ u " Facebook leads").

Definition scrape_facebook_groups (group_url : pystr) : M scraper (list nat) :=
  page <- perform NewPage;;
  with_local []
    (try_finally
       (try_except
          (facebook_try page group_url)
          (fun e => log LError (e_cross ++ u " Facebook scraping error: " ++ str_exn e)))
       (perform (PageClose page));;
     leads <- get_local;;
     on_state (extend_leads leads);;
     ret leads).

(** ** [scrape_google_maps_businesses]: one business

    The body of [for business in businesses[:50]].  The rating and the
    address are each read under a [try] of their own, which turns any
    failure into a placeholder. *)

Definition business_name_sel : pystr := u ".fontHeadlineSmall".
Definition business_rating_sel : pystr := u "[role=" ++ quoted "img" ++ u "]".
Definition business_address_sel : pystr := u ".fontBodyMedium".

Definition business_rating (business : locator) : M (scraper * list nat) pyval :=
  try_except
    (rating <- perform (GetAttribute (Within business business_rating_sel)
                                     (u "aria-label"));;
     ret (opt_val rating))
    (fun _ => ret (VStr (u "No rating"))).

Definition business_address (business : locator) : M (scraper * list nat) pystr :=
  try_except
    (n <- perform (All (Within business business_address_sel));;
     match n with
     | O => ret (u "No address")
     | Datatypes.S _ =>
         perform (InnerText (Nth (Within business business_address_sel) 0))
     end)
    (fun _ => ret (u "No address")).

Definition google_maps_business (query location : pystr) (business : locator)
  : M (scraper * list nat) unit :=
  try_except
    (name <- perform (InnerText (Within business business_name_sel));;
     rating <- business_rating business;;
     address <- business_address business;;
     found_date <- now;;
     lead <- on_state (new_dict (dict_of
               [ (u "business_name", VStr (strip name));
                 (u "rating", rating);
                 (u "address", VStr address);
                 (u "search_query", VStr query);
                 (u "location", VStr location);
                 (u "platform", VStr (u "google_maps"));
                 (u "found_date", VStr found_date) ]));;
     leads <- get_local;;
     set_local (leads ++ [lead]);;
     log LInfo (e_check ++ u " Found: " ++ strip name))
    (fun e => log LWarning (e_warn ++ u "  Error extracting business: " ++ str_exn e)).

(** [page.locator('[role="article"]')] *)
Definition google_maps_results (page : nat) : locator :=
  OnPage page (u "[role=" ++ quoted "article" ++ u "]").

(** [for business in businesses[:50]], when the page shows [n]
    businesses. *)
Definition google_maps_businesses (page : nat) (query location : pystr) (n : nat)
  : M (scraper * list nat) unit :=
  for_each (slice_to 50 (map (Nth (google_maps_results page)) (seq 0 n)))
           (google_maps_business query location).

(** ** [save_leads_to_csv] *)

(** The text [csv] writes for a field: [restval=''] for a missing key, the
    empty text for [None], [str] of anything else. *)
Definition cell (v : option pyval) : pystr :=
  match v with
  | None => []
  | Some VNone => []
  | Some v' => str v'
  end.

Definition row_of (fieldnames : list pystr) (d : lead) : list pystr :=
  map (fun k => cell (dict_get d k)) fieldnames.

(** [fieldnames = set(); for lead in self.leads: fieldnames.update(lead.keys())] *)
Definition all_keys (o : nat -> lead) (refs : list nat) : list pystr :=
  fold_left (fun acc r => set_update acc (keys (o r))) refs [].

Definition save_leads_to_csv (filename : option pystr) : M scraper (option pystr) :=
  filename <- (if falsy filename
               then stamp <- now_strftime;; ret (u "leads_" ++ stamp ++ u ".csv")
               else ret (text_of filename));;
  s <- get;;
  match leads s with
  | [] => log LWarning (e_warn ++ u "  No leads to save");; ret None
  | _ :: _ =>
      try_except
        (let fieldnames := all_keys (objs s) (leads s) in
         f <- perform (OpenWrite filename);;
         try_finally
           (perform (WriteRow f (sorted_str fieldnames));;
            for_each (leads s)
              (fun r => perform (WriteRow f (row_of (sorted_str fieldnames) (objs s r)))))
           (perform (CloseFile f));;
         log LInfo (e_check ++ u " Saved " ++ str_len (leads s) ++ u " leads to "
                    ++ filename);;
         ret (Some filename))
        (fun e => log LError (e_cross ++ u " Error saving leads: " ++ str_exn e);;
                  ret None)
  end.

(** ** [generate_outreach_message] *)

Definition unlines (ls : list pystr) : pystr := join [nl] ls.

Definition template_default : pystr := unlines
  [ u "Hi {name},";
    u "";
    u "I noticed your profile and thought you might be interested in our AI chatbot services. ";
    u "";
    u "We help businesses like yours:";
    u "- Automate customer support 24/7";
    u "- Increase response time by 90%";
    u "- Reduce support costs by 60%";
    u "";
    u "Would you be open to a quick 15-minute call to see how we can help your business?";
    u "";
    u "Best regards,";
    u "Your Name" ].

Definition template_linkedin : pystr := unlines
  [ u "Hi {name},";
    u "";
    u "I came across your profile and was impressed by your role as {headline}.";
    u "";
    u "I specialize in building AI-powered chatbots that help businesses automate customer service and lead generation. Given your experience in {headline}, I thought this might be valuable for you or your network.";
    u "";
    u "Would you be interested in learning more?";
    u "";
    u "Best,";
    u "Your Name" ].

Definition template_twitter : pystr := unlines
  [ u "Hi {handle},";
    u "";
    u "Saw your tweet about {topic}. We've helped similar businesses automate their customer service with AI chatbots.";
    u "";
    u "Would love to show you how it works. DM me if interested! " ++ e_robot ].

Definition template_cold_email : pystr := unlines
  [ u "Subject: Automate Your Customer Service with AI";
    u "";
    u "Hi {name},";
    u "";
    u "I help businesses automate repetitive customer inquiries using AI chatbots. Here's what we can do for you:";
    u "";
    e_check ++ u " 24/7 instant responses";
    e_check ++ u " Handle 1000+ conversations simultaneously  ";
    e_check ++ u " Integrate with WhatsApp, Facebook, Instagram";
    e_check ++ u " Reduce support costs by 60%";
    u "";
    u "Interested in a free demo?";
    u "";
    u "Reply if you'd like to see it in action!";
    u "";
    u "Best regards,";
    u "Your Name";
    u "" ].

Definition templates : dict pystr := dict_of
  [ (u "default", template_default);
    (u "linkedin", template_linkedin);
    (u "twitter", template_twitter);
    (u "cold_email", template_cold_email) ].

Definition generate_outreach_message (lead : lead) (template : pystr)
  : outcome pystr :=
  let template_text := get_default templates template template_default in
  format template_text (dict_of
    [ (u "name", get_default lead (u "name") (VStr (u "there")));
      (u "headline", get_default lead (u "headline") (VStr (u "your field")));
      (u "handle", get_default lead (u "handle")
                     (get_default lead (u "name") (VStr (u "there"))));
      (u "topic", get_default lead (u "hashtag") (VStr (u "business automation"))) ]).

(** ** [filter_quality_leads] *)

Section Filter.

(** [str.lower], which follows the Unicode case tables. *)
Variable lower : pystr -> pystr.

(** [' '.join(str(v).lower() for v in lead.values())] *)
Definition lead_text (d : lead) : pystr :=
  join (u " ") (map (fun v => lower (str v)) (values d)).

(** [keyword.lower() in lead_text] *)
Definition matches (text keyword : pystr) : bool :=
  str_in (lower keyword) text.

(** [sum(keyword.lower() in lead_text for keyword in keywords)] *)
Definition match_count (text : pystr) (keywords : list pystr) : Z :=
  Z.of_nat (length (filter (matches text) keywords)).

(** One turn of [for lead in self.leads]: the dictionaries and
    [quality_leads] before and after it. *)
Definition filter_step (keywords : list pystr)
  (acc : (nat -> lead) * list nat) (r : nat) : (nat -> lead) * list nat :=
  let lead_text := lead_text (fst acc r) in
  if existsb (matches lead_text) keywords
  then (set_obj (fst acc) r
          (dict_set (fst acc r) (u "match_score")
                    (VInt (match_count lead_text keywords))),
        snd acc ++ [r])
  else acc.

(** [x.get('match_score', 0)]; every lead that is sorted has had an integer
    stored under that key by the loop. *)
Definition score (d : lead) : Z :=
  match get_default d (u "match_score") (VInt 0) with
  | VInt z => z
  | _ => 0%Z
  end.

Definition filter_quality_leads (keywords : list pystr) : M scraper (list nat) :=
  s <- get;;
  let after := fold_left (filter_step keywords) (leads s) (objs s, []) in
  put {| objs := fst after; next_id := next_id s; leads := leads s |};;
  let quality_leads :=
    list_sort (fun a b => (score (fst after a) <? score (fst after b))%Z)
              true (snd after) in
  log LInfo (e_check ++ u " Filtered to " ++ str_len quality_leads ++ u " quality leads");;
  ret quality_leads.

End Filter.

End LeadScraper.

(* ===================================================================== *)
(** * [social_media_automation.py]: class [SocialMediaAutomation] *)
(* ===================================================================== *)

Module SocialMedia.

(** The credentials [__init__] reads from the environment. *)
Record automation : Type := {
  meta_token : option pystr;
  linkedin_email : option pystr;
  linkedin_password : option pystr;
  twitter_email : option pystr;
  twitter_password : option pystr
}.

Definition init : M unit automation :=
  meta <- os_getenv (u "META_ACCESS_TOKEN");;
  le <- os_getenv (u "LINKEDIN_EMAIL");;
  lp <- os_getenv (u "LINKEDIN_PASSWORD");;
  te <- os_getenv (u "TWITTER_EMAIL");;
  tp <- os_getenv (u "TWITTER_PASSWORD");;
  ret {| meta_token := meta; linkedin_email := le; linkedin_password := lp;
         twitter_email := te; twitter_password := tp |}.

Definition falsy := LeadScraper.falsy.
Definition text_of := LeadScraper.text_of.

(** The result of one platform: a [dict]. *)
Definition result : Type := dict json.

Definition failure (error : json) : result :=
  dict_of [ (u "success", JBool false); (u "error", error) ].

Definition graph : pystr := u "https://graph.facebook.com/v18.0/".

Section Adapters.

(** How an f-string renders a value; [str] of a container follows [repr],
    which is left open. *)
Variable str_json : json -> pystr.

Variable self : automation.

(** ** [post_to_facebook] *)

Definition post_to_facebook (message image_url : json) : M unit result :=
  if falsy (meta_token self) then
    ret (failure (JStr (u "META_ACCESS_TOKEN not set")))
  else
    try_except
      (response <- perform (HttpGet (graph ++ u "me/accounts")
                     (dict_of [ (u "access_token", JStr (text_of (meta_token self))) ]));;
       if negb (status_code response =? 200)%Z then
         ret (failure (JStr (u "Failed to get page access")))
       else
         parsed <- lift_outcome (response_json response);;
         pages <- lift_outcome (json_get parsed (u "data") (JList []));;
         if negb (truthy pages) then
           ret (failure (JStr (u "No pages found")))
         else
           first_a <- lift_outcome (json_first pages);;
           page_id <- lift_outcome (json_item first_a (u "id"));;
           first_b <- lift_outcome (json_first pages);;
           page_token <- lift_outcome (json_item first_b (u "access_token"));;
           let post_url := graph ++ str_json page_id ++ u "/feed" in
           let post_data :=
             dict_of [ (u "message", message); (u "access_token", page_token) ] in
           let post_data :=
             if truthy image_url then dict_set post_data (u "link") image_url
             else post_data in
           response <- perform (HttpPost post_url post_data);;
           if (status_code response =? 200)%Z then
             parsed <- lift_outcome (response_json response);;
             post_id <- lift_outcome (json_get_none parsed (u "id"));;
             log LInfo (LeadScraper.e_check ++ u " Posted to Facebook: "
                        ++ str_json post_id);;
             ret (dict_of [ (u "success", JBool true);
                            (u "platform", JStr (u "facebook"));
                            (u "post_id", post_id);
                            (u "url", JStr (u "https://facebook.com/"
                                            ++ str_json post_id)) ])
           else
             parsed <- lift_outcome (response_json response);;
             ret (failure parsed))
      (fun e =>
         log LError (u "Facebook posting error: " ++ str_exn e);;
         ret (failure (JStr (str_exn e)))).

(** ** [post_to_instagram] *)

Definition ig_key : pystr := u "instagram_business_account".

(** [for page in pages: if key in page: ig_account = page[key]['id']; break] *)
Fixpoint find_ig_account (pages : list json) : M unit json :=
  match pages with
  | [] => ret JNone
  | page :: rest =>
      linked <- lift_outcome (json_contains ig_key page);;
      if linked : bool then
        account <- lift_outcome (json_item page ig_key);;
        lift_outcome (json_item account (u "id"))
      else find_ig_account rest
  end.

Definition post_to_instagram (image_url caption : json) : M unit result :=
  if falsy (meta_token self) then
    ret (failure (JStr (u "META_ACCESS_TOKEN not set")))
  else
    try_except
      (response <- perform (HttpGet (graph ++ u "me/accounts")
                     (dict_of [ (u "access_token", JStr (text_of (meta_token self)));
                                (u "fields", JStr ig_key) ]));;
       parsed <- lift_outcome (response_json response);;
       pages <- lift_outcome (json_get parsed (u "data") (JList []));;
       items <- lift_outcome (json_iter pages);;
       ig_account <- find_ig_account items;;
       if negb (truthy ig_account) then
         ret (failure (JStr (u "No Instagram business account linked")))
       else
         response <- perform (HttpPost (graph ++ str_json ig_account ++ u "/media")
                       (dict_of [ (u "image_url", image_url);
                                  (u "caption", caption);
                                  (u "access_token",
                                   JStr (text_of (meta_token self))) ]));;
         if negb (status_code response =? 200)%Z then
           parsed <- lift_outcome (response_json response);;
           ret (failure parsed)
         else
           parsed <- lift_outcome (response_json response);;
           creation_id <- lift_outcome (json_get_none parsed (u "id"));;
           response <- perform (HttpPost
                         (graph ++ str_json ig_account ++ u "/media_publish")
                         (dict_of [ (u "creation_id", creation_id);
                                    (u "access_token",
                                     JStr (text_of (meta_token self))) ]));;
           if (status_code response =? 200)%Z then
             parsed <- lift_outcome (response_json response);;
             media_id <- lift_outcome (json_get_none parsed (u "id"));;
             log LInfo (LeadScraper.e_check ++ u " Posted to Instagram: "
                        ++ str_json media_id);;
             ret (dict_of [ (u "success", JBool true);
                            (u "platform", JStr (u "instagram"));
                            (u "media_id", media_id) ])
           else
             parsed <- lift_outcome (response_json response);;
             ret (failure parsed))
      (fun e =>
         log LError (u "Instagram posting error: " ++ str_exn e);;
         ret (failure (JStr (str_exn e)))).

(** ** [post_to_linkedin] *)

Definition e_book : pystr := [128216%N].
Definition e_memo : pystr := [128221%N].

Definition has_text (label : string) : pystr :=
  u ":has-text(" ++ quoted label ++ u ")".
Arguments has_text label%_string.

Definition post_to_linkedin (content image_path : json) : M unit result :=
  if falsy (linkedin_email self) || falsy (linkedin_password self) then
    ret (failure (JStr (u "LinkedIn credentials not set")))
  else
    page <- perform NewPage;;
    try_finally
      (try_except
         (log LInfo (e_book ++ u " Posting to LinkedIn...");;
          perform (Goto page (u "https://www.linkedin.com/login"));;
          perform (Fill page (u "input[name=" ++ quoted "session_key" ++ u "]")
                        (JStr (text_of (linkedin_email self))));;
          perform (Fill page (u "input[name=" ++ quoted "session_password" ++ u "]")
                        (JStr (text_of (linkedin_password self))));;
          perform (Click page (u "button[type=" ++ quoted "submit" ++ u "]"));;
          sleep 3000;;
          perform (Goto page (u "https://www.linkedin.com/feed/"));;
          sleep 2000;;
          perform (Click page (u "button" ++ has_text "Start a post"));;
          sleep 1000;;
          editor <- perform (AwaitLocator
                      (First (OnPage page (u "[role=" ++ quoted "textbox" ++ u "]"))));;
          perform (LocatorFill editor content);;
          attach <- (if truthy image_path then perform (PathExists image_path)
                     else ret false);;
          (if attach : bool then
             perform (Click page (u "button[aria-label*=" ++ quoted "image" ++ u "]"));;
             sleep 1000;;
             perform (SetInputFiles page (u "input[type=" ++ quoted "file" ++ u "]")
                                    image_path);;
             sleep 2000
           else ret tt);;
          perform (Click page (u "button" ++ has_text "Post"));;
          sleep 3000;;
          log LInfo (LeadScraper.e_check ++ u " Posted to LinkedIn");;
          timestamp <- now;;
          ret (dict_of [ (u "success", JBool true);
                         (u "platform", JStr (u "linkedin"));
                         (u "timestamp", JStr timestamp) ]))
         (fun e =>
            log LError (u "LinkedIn posting error: " ++ str_exn e);;
            ret (failure (JStr (str_exn e)))))
      (perform (PageClose page)).

(** ** [post_to_twitter] *)

Definition testid (sel : string) (id : string) : pystr :=
  u sel ++ u "[data-testid=" ++ quoted id ++ u "]".
Arguments testid sel%_string id%_string.

Definition post_to_twitter (content image_path : json) : M unit result :=
  if falsy (twitter_email self) || falsy (twitter_password self) then
    ret (failure (JStr (u "Twitter credentials not set")))
  else
    page <- perform NewPage;;
    try_finally
      (try_except
         (log LInfo (LeadScraper.e_bird ++ u " Posting to Twitter...");;
          perform (Goto page (u "https://twitter.com/i/flow/login"));;
          sleep 2000;;
          perform (Fill page (u "input[autocomplete=" ++ quoted "username" ++ u "]")
                        (JStr (text_of (twitter_email self))));;
          perform (Click page (u "button" ++ has_text "Next"));;
          sleep 2000;;
          perform (Fill page (u "input[name=" ++ quoted "password" ++ u "]")
                        (JStr (text_of (twitter_password self))));;
          perform (Click page (testid "button" "LoginForm_Login_Button"));;
          sleep 3000;;
          perform (Click page (testid "a" "SideNav_NewTweet_Button"));;
          sleep 1000;;
          tweet_box <- perform (AwaitLocator
                         (First (OnPage page (testid "" "tweetTextarea_0"))));;
          perform (LocatorFill tweet_box content);;
          attach <- (if truthy image_path then perform (PathExists image_path)
                     else ret false);;
          (if attach : bool then
             perform (SetInputFiles page (testid "input" "fileInput") image_path);;
             sleep 2000
           else ret tt);;
          perform (Click page (testid "button" "tweetButtonInline"));;
          sleep 3000;;
          log LInfo (LeadScraper.e_check ++ u " Posted to Twitter");;
          timestamp <- now;;
          ret (dict_of [ (u "success", JBool true);
                         (u "platform", JStr (u "twitter"));
                         (u "timestamp", JStr timestamp) ]))
         (fun e =>
            log LError (u "Twitter posting error: " ++ str_exn e);;
            ret (failure (JStr (str_exn e)))))
      (perform (PageClose page)).

(** ** [post_to_medium] *)

Definition tag_input : pystr :=
  u "input[placeholder=" ++ quoted "Add a tag..." ++ u "]".

Definition post_to_medium (title content tags : json) : M unit result :=
  page <- perform NewPage;;
  try_finally
    (try_except
       (log LInfo (e_memo ++ u " Posting to Medium...");;
        perform (Goto page (u "https://medium.com/new-story"));;
        sleep 3000;;
        title_box <- perform (AwaitLocator
                       (First (OnPage page
                          (u "h1[data-default-value=" ++ quoted "Title" ++ u "]"))));;
        perform (LocatorFill title_box title);;
        content_box <- perform (AwaitLocator
                         (First (OnPage page
                            (u "[data-default-value=" ++ quoted "Tell your story..."
                             ++ u "]"))));;
        perform (LocatorFill content_box content);;
        perform (Click page (u "button" ++ has_text "Publish"));;
        sleep 2000;;
        (if truthy tags then
           first_tags <- lift_outcome (json_slice5 tags);;
           items <- lift_outcome (json_iter first_tags);;
           for_each items (fun tag =>
             perform (Fill page tag_input tag);;
             perform (Press page tag_input (u "Enter"));;
             sleep 500)
         else ret tt);;
        perform (Click page (u "button" ++ has_text "Publish now"));;
        sleep 3000;;
        log LInfo (LeadScraper.e_check ++ u " Posted to Medium");;
        timestamp <- now;;
        ret (dict_of [ (u "success", JBool true);
                       (u "platform", JStr (u "medium"));
                       (u "title", title);
                       (u "timestamp", JStr timestamp) ]))
       (fun e =>
          log LError (u "Medium posting error: " ++ str_exn e);;
          ret (failure (JStr (str_exn e)))))
    (perform (PageClose page)).

(** ** [post_to_all_platforms] *)

(** [content.get(platform)] *)
Definition requested (content : dict json) (platform : pystr) : json :=
  get_default content platform JNone.

(** [payload.get(field, default)] as an argument of an adapter. *)
Definition field (payload : json) (name : pystr) (default : json) : M unit json :=
  lift_outcome (json_get payload name default).

Definition post_to_all_platforms (content : dict json) : M unit (dict result) :=
  let results : dict result := [] in
  results <-
    (if truthy (requested content (u "facebook")) then
       message <- field (requested content (u "facebook")) (u "message") (JStr []);;
       image_url <- field (requested content (u "facebook")) (u "image_url") JNone;;
       r <- post_to_facebook message image_url;;
       ret (dict_set results (u "facebook") r)
     else ret results);;
  results <-
    (if truthy (requested content (u "instagram")) then
       image_url <- field (requested content (u "instagram")) (u "image_url") (JStr []);;
       caption <- field (requested content (u "instagram")) (u "caption") (JStr []);;
       r <- post_to_instagram image_url caption;;
       ret (dict_set results (u "instagram") r)
     else ret results);;
  results <-
    (if truthy (requested content (u "linkedin")) then
       text <- field (requested content (u "linkedin")) (u "content") (JStr []);;
       image_path <- field (requested content (u "linkedin")) (u "image_path") JNone;;
       r <- post_to_linkedin text image_path;;
       ret (dict_set results (u "linkedin") r)
     else ret results);;
  results <-
    (if truthy (requested content (u "twitter")) then
       text <- field (requested content (u "twitter")) (u "content") (JStr []);;
       image_path <- field (requested content (u "twitter")) (u "image_path") JNone;;
       r <- post_to_twitter text image_path;;
       ret (dict_set results (u "twitter") r)
     else ret results);;
  results <-
    (if truthy (requested content (u "medium")) then
       title <- field (requested content (u "medium")) (u "title") (JStr []);;
       text <- field (requested content (u "medium")) (u "content") (JStr []);;
       tags <- field (requested content (u "medium")) (u "tags") (JList []);;
       r <- post_to_medium title text tags;;
       ret (dict_set results (u "medium") r)
     else ret results);;
  ret results.

End Adapters.

(** ** [post_crew_output]: the request built from a report

    [social_content], the dictionary handed to [post_to_all_platforms];
    [content] is the text read from the report. *)

Definition social_content (content : pystr) : dict json := dict_of
  [ (u "twitter", JDict (dict_of [ (u "content", JStr (firstn 280 content)) ]));
    (u "linkedin", JDict (dict_of [ (u "content", JStr (firstn 1300 content)) ]));
    (u "facebook", JDict (dict_of [ (u "message", JStr (firstn 500 content)) ]));
    (u "medium", JDict (dict_of
       [ (u "title", JStr (u "AI-Generated Content Report"));
         (u "content", JStr content);
         (u "tags", JList [ JStr (u "AI"); JStr (u "Automation");
                            JStr (u "Technology") ]) ])) ].

End SocialMedia.

(* ===================================================================== *)
(** * [master_automation.py]: class [MasterAutomation] *)
(* ===================================================================== *)

Module MasterAutomation.
Import LeadScraper.

(** ** [generate_content] *)

Definition e_sparkles : pystr := [10024%N].
Definition bullet : pystr := [8226%N].
Definition space : N := 32%N.

(** [s.replace(' ', '')] *)
Definition remove_spaces (s : pystr) : pystr :=
  filter (fun c => negb (N.eqb c space)) s.

Definition base_content (topic : pystr) : pystr := unlines
  [ e_robot ++ u " Exciting Update!";
    u "";
    u "We're revolutionizing " ++ topic ++ u " with AI-powered automation. ";
    u "";
    e_sparkles ++ u " Key benefits:";
    bullet ++ u " 24/7 availability";
    bullet ++ u " Instant responses";
    bullet ++ u " Reduced costs";
    bullet ++ u " Better customer satisfaction";
    u "";
    u "Want to learn more? DM us! ";
    u "";
    u "#AI #Automation #" ++ remove_spaces topic ].

Definition generate_content (topic : pystr) : dict json := dict_of
  [ (u "twitter", JDict (dict_of [ (u "content", JStr (firstn 280 (base_content topic))) ]));
    (u "linkedin", JDict (dict_of [ (u "content", JStr (base_content topic)) ]));
    (u "facebook", JDict (dict_of [ (u "message", JStr (base_content topic)) ]));
    (u "medium", JDict (dict_of
       [ (u "title", JStr (u "The Future of " ++ topic ++ u ": AI Automation"));
         (u "content", JStr (base_content topic ++ [nl; nl]
                             ++ u "[Full article content here]"));
         (u "tags", JList [ JStr (u "AI"); JStr (u "Automation"); JStr topic ]) ])) ].

(** ** [find_and_contact_leads]: the outreach file

    What the loop [for lead in quality_leads[:20]] writes for one lead: the
    texts of its six [f.write] calls, in order.  The template is chosen,
    and the message generated, before anything is written, so a lead
    without a platform raises before its block is begun. *)

(** ['=' * 60] *)
Definition rule : pystr := repeat 61%N 60.

(** [lead[k]] *)
Definition item (d : lead) (k : pystr) : outcome pyval :=
  match dict_get d k with
  | Some v => Ok v
  | None => Raised (KeyError k)
  end.

(** [v == s] for a text [s]. *)
Definition is_text (v : pyval) (s : pystr) : bool :=
  match v with
  | VStr t => str_eqb t s
  | _ => false
  end.

Definition outreach_entry (lead : lead) : outcome (list pystr) :=
  match item lead (u "platform") with
  | Raised e => Raised e
  | Ok platform =>
      match generate_outreach_message lead
              (if is_text platform (u "linkedin") then u "linkedin" else u "default") with
      | Raised e => Raised e
      | Ok message =>
          Ok [ [nl] ++ rule ++ [nl];
               u "TO: "
               ++ str (get_default lead (u "name")
                         (get_default lead (u "handle") (VStr (u "Unknown"))))
               ++ [nl];
               u "PLATFORM: " ++ str platform ++ [nl];
               rule ++ [nl; nl];
               message;
               [nl; nl] ]
      end
  end.

(** The texts written for the leads, in order, and how the loop ends. *)
Fixpoint write_entries (leads : list lead) : list pystr * outcome unit :=
  match leads with
  | [] => ([], Ok tt)
  | d :: rest =>
      match outreach_entry d with
      | Raised e => ([], Raised e)
      | Ok texts =>
          let (more, o) := write_entries rest in (texts ++ more, o)
      end
  end.

(** [for lead in quality_leads[:20]: ...] *)
Definition outreach_writes (quality_leads : list lead) : list pystr * outcome unit :=
  write_entries (firstn 20 quality_leads).

End MasterAutomation.

(* ===================================================================== *)
(** * The notions the properties are stated with *)
(* ===================================================================== *)

Module Notions.
Import LeadScraper.

(** ** Worlds *)

(** A call that returns, or raises, whenever it is made. *)
Definition returns (R : Type) (w : world) (o : io R) : Prop :=
  forall tr, exists a, respond w o tr = Ok a.

Definition raises (R : Type) (w : world) (o : io R) : Prop :=
  forall tr, exists e, respond w o tr = Raised e.

(** The browser context opens and closes pages. *)
Definition healthy_browser (w : world) : Prop :=
  returns w NewPage /\ forall p, returns w (PageClose p).

(** [e] was raised by opening or by closing a page. *)
Definition lifecycle_error (w : world) (e : exn) : Prop :=
  (exists tr, respond w NewPage tr = Raised e) \/
  (exists p tr, respond w (PageClose p) tr = Raised e).

(** Every step that leads to the list of results works. *)
Definition navigable (w : world) : Prop :=
  (forall p url, returns w (Goto p url)) /\
  (forall p sel v, returns w (Fill p sel v)) /\
  (forall p sel, returns w (Click p sel)) /\
  (forall p js, returns w (Evaluate p js)).


(** The credentials of LinkedIn are missing from the environment. *)
Definition no_linkedin_credentials (w : world) : Prop :=
  falsy (getenv w (u "LINKEDIN_EMAIL")) || falsy (getenv w (u "LINKEDIN_PASSWORD"))
  = true.

(** The fields read from a LinkedIn result and from a tweet. *)
Definition profile_name (profile : locator) : io pystr :=
  InnerText (Within profile (u ".entity-result__title-text")).
Definition profile_headline (profile : locator) : io pystr :=
  InnerText (Within profile (u ".entity-result__primary-subtitle")).
Definition profile_location (profile : locator) : io pystr :=
  InnerText (Within profile (u ".entity-result__secondary-subtitle")).
Definition profile_link (profile : locator) : io (option pystr) :=
  GetAttribute (Within profile (u "a.app-aware-link")) (u "href").

Definition tweet_user (tweet : locator) : io pystr :=
  InnerText (Within tweet (u "[data-testid=" ++ quoted "User-Name" ++ u "]")).
Definition tweet_text (tweet : locator) : io pystr :=
  InnerText (Within tweet (u "[data-testid=" ++ quoted "tweetText" ++ u "]")).

(** A container all of whose fields can be read, and one with a field
    that cannot. *)
Definition profile_readable (w : world) (profile : locator) : Prop :=
  returns w (profile_name profile) /\ returns w (profile_headline profile) /\
  returns w (profile_location profile) /\ returns w (profile_link profile).

Definition profile_malformed (w : world) (profile : locator) : Prop :=
  raises w (profile_name profile) \/ raises w (profile_headline profile) \/
  raises w (profile_location profile) \/ raises w (profile_link profile).

Definition tweet_readable (w : world) (tweet : locator) : Prop :=
  returns w (tweet_user tweet) /\ returns w (tweet_text tweet).

Definition tweet_malformed (w : world) (tweet : locator) : Prop :=
  raises w (tweet_user tweet) \/ raises w (tweet_text tweet).

(** The page shows [n] containers for the selector [results], all readable
    but number [k]. *)
Definition one_malformed (readable malformed : world -> locator -> Prop)
  (w : world) (results : nat -> locator) (n k : nat) : Prop :=
  (forall p tr, respond w (All (results p)) tr = Ok n) /\
  k < n /\
  forall p i, i < n ->
    if Nat.eqb i k then malformed w (Nth (results p) i)
    else readable w (Nth (results p) i).

(** A file system that lets the table be written. *)
Definition writable (w : world) : Prop :=
  (forall name tr, exists f, respond w (OpenWrite name) tr = Ok f) /\
  (forall f cells tr, respond w (WriteRow f cells) tr = Ok tt) /\
  (forall f tr, respond w (CloseFile f) tr = Ok tt).

(** ** Events *)

(** A navigation of a page. *)
Definition is_navigation (ev : event) : bool :=
  match ev with
  | Call o => match o with Goto _ _ => true | _ => false end
  | _ => false
  end.

(** No event of [added] is a navigation. *)
Definition quiet (added : list event) : bool :=
  forallb (fun ev => negb (is_navigation ev)) added.

(** The rows written so far, oldest first. *)
Fixpoint rows_written (tr : list event) : list (list pystr) :=
  match tr with
  | [] => []
  | Call o :: tr' =>
      match o with
      | WriteRow _ cells => rows_written tr' ++ [cells]
      | _ => rows_written tr'
      end
  | _ :: tr' => rows_written tr'
  end.

(** ** Leads *)

(** A lead that carries its platform and a name. *)
Definition tagged (platform : pystr) (d : lead) : Prop :=
  dict_get d (u "platform") = Some (VStr platform) /\
  exists name, dict_get d (u "name") = Some (VStr name).

(** The identity of a lead as the specification has it: its name, and
    well-formed means the name is not empty. *)
Definition identity (d : lead) : pystr := str (get_default d (u "name") VNone).

Definition spec_well_formed (platform : pystr) (d : lead) : Prop :=
  dict_get d (u "platform") = Some (VStr platform) /\ identity d <> [].

(** ** Filtering *)

(** [str.lower] on text whose letters are ASCII. *)
Definition ascii_lower (s : pystr) : pystr :=
  map (fun c => if ((65 <=? c) && (c <=? 90))%N then (c + 32)%N else c) s.

(** The score as the specification words it: the number of distinct
    keywords that match the lead's text. *)
Fixpoint distinct (ks : list pystr) : list pystr :=
  match ks with
  | [] => []
  | k :: ks' => if existsb (str_eqb k) ks' then distinct ks' else k :: distinct ks'
  end.

Definition spec_match_score (lower : pystr -> pystr) (d : lead)
  (keywords : list pystr) : Z :=
  Z.of_nat (length (distinct (filter (matches lower (lead_text lower d)) keywords))).

(** [kept] holds some of the items of [l], in the order they have in
    [l]. *)
Inductive subseq (A : Type) : list A -> list A -> Prop :=
| subseq_nil : subseq [] []
| subseq_keep (x : A) (kept l : list A) : subseq kept l -> subseq (x :: kept) (x :: l)
| subseq_drop (x : A) (kept l : list A) : subseq kept l -> subseq kept (x :: l).

(** A lead qualifies when its text contains some keyword. *)
Definition qualifies (lower : pystr -> pystr) (keywords : list pystr) (d : lead)
  : bool :=
  existsb (matches lower (lead_text lower d)) keywords.

(** What the loop of [filter_quality_leads] stores in a qualifying lead. *)
Definition scored (lower : pystr -> pystr) (keywords : list pystr) (d : lead)
  : lead :=
  dict_set d (u "match_score")
           (VInt (match_count lower (lead_text lower d) keywords)).

(** ** Messages *)


(** ** The table of leads *)

Definition header (s : scraper) : list pystr :=
  sorted_str (all_keys (objs s) (leads s)).

Definition table (s : scraper) : list (list pystr) :=
  header s :: map (fun r => row_of (header s) (objs s r)) (leads s).

(** ** Posting *)

(** The platforms [post_to_all_platforms] knows, in the order it visits
    them. *)
Definition platforms : list pystr :=
  [ u "facebook"; u "instagram"; u "linkedin"; u "twitter"; u "medium" ].

(** A result that says whether the post succeeded. *)
Definition reports (r : SocialMedia.result) : Prop :=
  exists b, dict_get r (u "success") = Some (JBool b).

(** Every payload of the request is a mapping. *)
Definition payloads_are_mappings (content : dict json) : Prop :=
  forall platform, In platform platforms ->
    match SocialMedia.requested content platform with
    | JDict _ | JNone => True
    | _ => False
    end.

End Notions.

(* ===================================================================== *)
(** * Worlds to run the code in *)
(* ===================================================================== *)

Module Sites.
Import LeadScraper.

(** A site that answers the same way whenever it is asked. *)
Record site : Type := {
  found : nat;
  inner_text : locator -> outcome pystr;
  attribute : locator -> pystr -> outcome (option pystr);
  environ : pystr -> option pystr;
  new_page : outcome nat;
  goto : pystr -> outcome unit;
  http : pystr -> outcome response
}.

Definition world_of (st : site) : world :=
  {| respond := fun (R : Type) (o : io R) (_ : list event) =>
       match o in io T return outcome T with
       | NewPage => new_page st
       | PageClose _ => Ok tt
       | Goto _ url => goto st url
       | Fill _ _ _ => Ok tt
       | Click _ _ => Ok tt
       | Press _ _ _ => Ok tt
       | SetInputFiles _ _ _ => Ok tt
       | Evaluate _ _ => Ok tt
       | All _ => Ok (found st)
       | AwaitLocator l => Ok l
       | InnerText l => inner_text st l
       | GetAttribute l name => attribute st l name
       | LocatorFill _ _ => Ok tt
       | HttpGet url _ => http st url
       | HttpPost url _ => http st url
       | PathExists _ => Ok false
       | OpenWrite _ => Ok 7
       | WriteRow _ _ => Ok tt
       | CloseFile _ => Ok tt
       end;
     getenv := environ st;
     now_isoformat := fun _ => u "2024-05-01T09:30:00";
     now_stamp := fun _ => u "20240501_093000" |}.

Definition timeout : exn := Exception (u "TimeoutError") (u "Timeout 30000ms exceeded.").

Definition logged_in (name : pystr) : option pystr :=
  if str_eqb name (u "LINKEDIN_EMAIL") then Some (u "ada@example.org")
  else if str_eqb name (u "LINKEDIN_PASSWORD") then Some (u "s3cret")
  else None.

(** A healthy site showing [n] results whose every text is [text]. *)
Definition plain_site (n : nat) (text : pystr) : site :=
  {| found := n;
     inner_text := fun _ => Ok text;
     attribute := fun _ _ => Ok (Some (u "https://example.org/in/ada"));
     environ := logged_in;
     new_page := Ok 1;
     goto := fun _ => Ok tt;
     http := fun _ => Ok {| status_code := 200; body := None |} |}.

(** The same site when result number [k] cannot be read. *)
Definition site_with_broken (n k : nat) (text : pystr) : site :=
  {| found := n;
     inner_text := fun l =>
       match l with
       | Within (Nth _ i) _ => if Nat.eqb i k then Raised timeout else Ok text
       | _ => Ok text
       end;
     attribute := fun _ _ => Ok (Some (u "https://example.org/in/ada"));
     environ := logged_in;
     new_page := Ok 1;
     goto := fun _ => Ok tt;
     http := fun _ => Ok {| status_code := 200; body := None |} |}.


(** The same site when the environment holds no credentials. *)
Definition anonymous_site (n : nat) (text : pystr) : site :=
  {| found := n;
     inner_text := fun _ => Ok text;
     attribute := fun _ _ => Ok None;
     environ := fun _ => None;
     new_page := Ok 1;
     goto := fun _ => Ok tt;
     http := fun _ => Ok {| status_code := 200; body := None |} |}.

(** A browser that cannot open a page. *)
Definition no_browser : site :=
  {| found := 0;
     inner_text := fun _ => Ok [];
     attribute := fun _ _ => Ok None;
     environ := logged_in;
     new_page := Raised timeout;
     goto := fun _ => Ok tt;
     http := fun _ => Ok {| status_code := 200; body := None |} |}.

(** Cards that show a name and nothing else: no attribute can be read,
    and no text but that of a descendant. *)
Definition bare_cards : site :=
  {| found := 2;
     inner_text := fun l => match l with
                            | Within _ _ => Ok (u " Cafe Javas ")
                            | _ => Raised timeout
                            end;
     attribute := fun _ _ => Raised timeout;
     environ := logged_in;
     new_page := Ok 1;
     goto := fun _ => Ok tt;
     http := fun _ => Ok {| status_code := 200; body := None |} |}.

(** A business as the Google Maps loop stores it. *)
Definition cafe : lead := dict_of
  [ (u "business_name", VStr (u "Cafe Javas"));
    (u "rating", VStr (u "4.5 stars"));
    (u "address", VStr (u "Kampala Road"));
    (u "search_query", VStr (u "cafes"));
    (u "location", VStr (u "Kampala"));
    (u "platform", VStr (u "google_maps"));
    (u "found_date", VStr (u "2024-05-01T09:30:00")) ].

(** A scraper that holds nothing yet. *)
Definition fresh : scraper :=
  {| objs := fun _ => []; next_id := 0; leads := [] |}.

(** A scraper that holds two leads. *)
Definition ada : lead := dict_of
  [ (u "name", VStr (u "Ada"));
    (u "headline", VStr (u "AI engineer"));
    (u "platform", VStr (u "linkedin")) ].

Definition bob : lead := dict_of
  [ (u "name", VStr (u "Bob"));
    (u "handle", VStr (u "@bob"));
    (u "platform", VStr (u "twitter")) ].

Definition two_leads : scraper :=
  {| objs := fun r => match r with 0 => ada | 1 => bob | _ => [] end;
     next_id := 2;
     leads := [0; 1] |}.

(** How the examples render a value in an f-string. *)
Definition str_of_scalar (j : json) : pystr :=
  match j with
  | JStr s => s
  | JInt z => str_int z
  | JBool true => u "True"
  | JBool false => u "False"
  | JNone => u "None"
  | _ => u "[...]"
  end.

(** An SocialMedia.automation object built where no credential is set. *)
Definition anonymous : SocialMedia.automation :=
  {| SocialMedia.meta_token := None; SocialMedia.linkedin_email := None; SocialMedia.linkedin_password := None;
     SocialMedia.twitter_email := None; SocialMedia.twitter_password := None |}.

(** A request for two platforms, and a request whose one payload is
    empty. *)
Definition two_platforms : dict json := dict_of
  [ (u "facebook", JDict [ (u "message", JStr (u "hello")) ]);
    (u "twitter", JDict [ (u "content", JStr (u "hello")) ]) ].


End Sites.

(* ===================================================================== *)
(** * Assertions about runs *)
(* ===================================================================== *)

Module Assertions.
Import LeadScraper Notions.

(** [wp m w c Q]: running [m] in world [w] from [c] ends in an outcome and
    a configuration that satisfy [Q].  Every computation ends, so this is
    a statement about the one result of the run. *)
Definition wp (S A : Type) (m : M S A) (w : world) (c : config S)
  (Q : outcome A -> config S -> Prop) : Prop :=
  Q (fst (m w c)) (snd (m w c)).
Arguments wp {S A} m w c Q : simpl never.

(** The leads collected so far by a run that started from [s0]: at most
    [k] of them, all new, all tagged; [self.leads] is untouched. *)
Definition collected (platform : pystr) (s0 : scraper) (k : nat)
  (cl : config (scraper * list nat)) : Prop :=
  leads (fst (snd cl)) = leads s0 /\
  length (snd (snd cl)) <= k /\
  Forall (fun r => r < next_id (fst (snd cl)) /\
                   tagged platform (objs (fst (snd cl)) r))
         (snd (snd cl)).

(** What holds when the [try] statement is left, on every way out. *)
Definition kept (platform : pystr) (s0 : scraper) (max : Z)
  (cl : config (scraper * list nat)) : Prop :=
  leads (fst (snd cl)) = leads s0 /\
  ((0 <= max)%Z -> length (snd (snd cl)) <= Z.to_nat max) /\
  Forall (fun r => tagged platform (objs (fst (snd cl)) r)) (snd (snd cl)).

(** What an extraction run returns: the new leads, appended to
    [self.leads], capped and tagged; or the error of opening or closing
    the page. *)
Definition extracted (platform : pystr) (w : world) (s : scraper) (max : Z)
  (o : outcome (list nat)) (c' : config scraper) : Prop :=
  match o with
  | Ok r =>
      leads (snd c') = leads s ++ r /\
      ((0 <= max)%Z -> length r <= Z.to_nat max) /\
      Forall (fun x => tagged platform (objs (snd c') x)) r
  | Raised e => lifecycle_error w e
  end.

(** The local list [leads] of a run. *)
Definition local (cl : config (scraper * list nat)) : list nat := snd (snd cl).

(** An adapter that returns a result that reports. *)
Definition answers (o : outcome SocialMedia.result) : Prop :=
  exists r, o = Ok r /\ reports r.

(** The results after the platforms [visited]: one entry for each of them
    that has a payload, each entry a result that reports. *)
Definition stage (content : dict json) (visited : list pystr)
  (results : dict SocialMedia.result) : Prop :=
  keys results = filter (fun p => truthy (SocialMedia.requested content p)) visited /\
  forall p r, dict_get results p = Some r -> reports r.


End Assertions.

Import Assertions.

(* ===================================================================== *)
(** * The conduct of runs: what they call, keep and leave behind *)
(* ===================================================================== *)

Module Conduct.
Import LeadScraper Notions Sites.

(** ** Events *)

(** Opening or closing a page. *)
Definition is_lifecycle (ev : event) : bool :=
  match ev with
  | Call o => match o with NewPage | PageClose _ => true | _ => false end
  | _ => false
  end.

(** A request over HTTP. *)
Definition is_http (ev : event) : bool :=
  match ev with
  | Call o => match o with HttpGet _ _ | HttpPost _ _ => true | _ => false end
  | _ => false
  end.

(** A call on the file system. *)
Definition is_file (ev : event) : bool :=
  match ev with
  | Call o =>
      match o with
      | OpenWrite _ | WriteRow _ _ | CloseFile _ | PathExists _ => true
      | _ => false
      end
  | _ => false
  end.

(** A call on the browser: a page, or a locator on a page. *)
Definition is_browser (ev : event) : bool :=
  match ev with
  | Call o =>
      match o with
      | HttpGet _ _ | HttpPost _ _ => false
      | OpenWrite _ | WriteRow _ _ | CloseFile _ | PathExists _ => false
      | _ => true
      end
  | _ => false
  end.

(** A row written to the file [f]. *)
Definition is_row_of (f : nat) (ev : event) : bool :=
  match ev with
  | Call o => match o with WriteRow f' _ => Nat.eqb f' f | _ => false end
  | _ => false
  end.

(** An event that stays with one site: a navigation goes to an address
    under [site], and nothing goes over HTTP or to a file that is
    written. *)
Definition stays_on (site : pystr) (ev : event) : bool :=
  match ev with
  | Call o =>
      match o with
      | Goto _ url => starts_with site url
      | HttpGet _ _ | HttpPost _ _ => false
      | OpenWrite _ | WriteRow _ _ | CloseFile _ => false
      | _ => true
      end
  | _ => true
  end.

(** An event that neither opens nor closes a page. *)
Definition calm (ev : event) : bool := negb (is_lifecycle ev).

(** No event at all. *)
Definition silent (ev : event) : bool := false.

(** An event of the Meta adapters: a request goes to the Graph API, and
    nothing else is called. *)
Definition graph_only (ev : event) : bool :=
  match ev with
  | Call o =>
      match o with
      | HttpGet url _ | HttpPost url _ => starts_with SocialMedia.graph url
      | _ => false
      end
  | _ => true
  end.

(** The keys pressed so far. *)
Fixpoint presses (tr : list event) : nat :=
  match tr with
  | [] => 0
  | Call o :: tr' =>
      match o with
      | Press _ _ _ => Datatypes.S (presses tr')
      | _ => presses tr'
      end
  | _ :: tr' => presses tr'
  end.

(** [after] is [before] with, on top of it, events that all pass [ok]. *)
Definition grew (ok : event -> bool) (before after : list event) : Prop :=
  exists added, after = added ++ before /\ forallb ok added = true.


(** ** Adapters *)

(** An adapter that returns a result that reports, or that raises what
    opening or closing its page raised. *)
Definition settled (w : world) (o : outcome SocialMedia.result) : Prop :=
  answers o \/ exists e, o = Raised e /\ lifecycle_error w e.

(** The request makes [post_to_all_platforms] open a page: it asks for
    LinkedIn or for Twitter and their credentials are set, or it asks for
    Medium, which needs none. *)
Definition needs_a_page (self : SocialMedia.automation) (content : dict json)
  : bool :=
  truthy (SocialMedia.requested content (u "linkedin"))
  && negb (SocialMedia.falsy (SocialMedia.linkedin_email self)
           || SocialMedia.falsy (SocialMedia.linkedin_password self))
  || truthy (SocialMedia.requested content (u "twitter"))
     && negb (SocialMedia.falsy (SocialMedia.twitter_email self)
              || SocialMedia.falsy (SocialMedia.twitter_password self))
  || truthy (SocialMedia.requested content (u "medium")).

(** A payload that is present, not empty and not a mapping. *)
Definition no_mapping (j : json) : bool :=
  truthy j && match j with JDict _ => false | _ => true end.

(** What an adapter answers when the credentials of its platform are
    missing. *)
Definition not_set (platform : pystr) : SocialMedia.result :=
  SocialMedia.failure (JStr
    (if str_eqb platform (u "linkedin") then u "LinkedIn credentials not set"
     else if str_eqb platform (u "twitter") then u "Twitter credentials not set"
     else u "META_ACCESS_TOKEN not set")).

(** A request whose payload for Twitter is a text, not a mapping. *)
Definition text_payload : dict json :=
  dict_of [ (u "twitter", JStr (u "hello")) ].

(** What a value that is no mapping raises when its [get] is called. *)
Definition no_get : exn := AttributeError (u "object has no attribute 'get'").

(** An automation object that holds every credential. *)
Definition signed_in : SocialMedia.automation :=
  {| SocialMedia.meta_token := Some (u "token");
     SocialMedia.linkedin_email := Some (u "ada@example.org");
     SocialMedia.linkedin_password := Some (u "s3cret");
     SocialMedia.twitter_email := Some (u "ada@example.org");
     SocialMedia.twitter_password := Some (u "s3cret") |}.



(** ** Leads *)

Definition has_platform (d : lead) : Prop :=
  exists p, dict_get d (u "platform") = Some (VStr p).

(** What [scrape_linkedin_leads] puts in a lead. *)
Definition linkedin_lead (d : lead) : Prop :=
  dict_get d (u "platform") = Some (VStr (u "linkedin")) /\
  (exists name, dict_get d (u "name") = Some (VStr name)) /\
  (exists headline, dict_get d (u "headline") = Some (VStr headline)) /\
  (exists location, dict_get d (u "location") = Some (VStr location)).

(** What [scrape_twitter_leads] puts in a lead: the name and the handle
    are single lines, and the text of the tweet is cut at 200
    characters. *)
Definition twitter_lead (hashtag : pystr) (d : lead) : Prop :=
  dict_get d (u "platform") = Some (VStr (u "twitter")) /\
  dict_get d (u "hashtag") = Some (VStr hashtag) /\
  (exists name, dict_get d (u "name") = Some (VStr name) /\
                has_char nl name = false) /\
  (exists handle, dict_get d (u "handle") = Some (VStr handle) /\
                  has_char nl handle = false) /\
  (exists text, dict_get d (u "tweet_text") = Some (VStr text) /\
                length text <= 200).

(** What [scrape_facebook_groups] puts in a lead: an author and a preview
    of bounded length, and neither a name nor a handle. *)
Definition facebook_lead (group_url : pystr) (d : lead) : Prop :=
  dict_get d (u "platform") = Some (VStr (u "facebook")) /\
  dict_get d (u "group_url") = Some (VStr group_url) /\
  (exists author, dict_get d (u "author") = Some (VStr author) /\
                  length author <= 100) /\
  (exists preview, dict_get d (u "post_preview") = Some (VStr preview) /\
                   length preview <= 200) /\
  dict_get d (u "name") = None /\
  dict_get d (u "handle") = None.

(** What the loop of [scrape_google_maps_businesses] puts in a lead. *)
Definition google_maps_lead (query location : pystr) (d : lead) : Prop :=
  dict_get d (u "platform") = Some (VStr (u "google_maps")) /\
  dict_get d (u "search_query") = Some (VStr query) /\
  dict_get d (u "location") = Some (VStr location) /\
  (exists name, dict_get d (u "business_name") = Some (VStr name)) /\
  (exists rating, dict_get d (u "rating") = Some rating) /\
  (exists address, dict_get d (u "address") = Some (VStr address)) /\
  dict_get d (u "name") = None /\
  dict_get d (u "handle") = None.

(** ** Letters *)

(** The six texts of one entry of the outreach file. *)
Definition letter (to platform message : pystr) : list pystr :=
  [ [nl] ++ MasterAutomation.rule ++ [nl];
    u "TO: " ++ to ++ [nl];
    u "PLATFORM: " ++ platform ++ [nl];
    MasterAutomation.rule ++ [nl; nl];
    message;
    [nl; nl] ].

(** A lead that can be written to: it holds a platform. *)
Definition addressable (d : lead) : Prop :=
  dict_get d (u "platform") <> None.

(** A business whose rating and address could not be read. *)
Definition placeholders (d : lead) : Prop :=
  dict_get d (u "rating") = Some (VStr (u "No rating")) /\
  dict_get d (u "address") = Some (VStr (u "No address")).

(** ** Scrapers *)

(** [self.leads] holds distinct objects, all of them allocated, each with
    a platform. *)
Definition well_kept (s : scraper) : Prop :=
  NoDup (leads s) /\
  Forall (fun r => r < next_id s /\ has_platform (objs s r)) (leads s).

(** What a scraping run does to a scraper: the dictionaries stored before
    are as they were; the leads it returns are distinct objects that were
    not stored before, appended to [self.leads] in the order returned;
    when it raises, [self.leads] is as it was. *)
Definition stores_new (s : scraper) (o : outcome (list nat)) (s' : scraper)
  : Prop :=
  (forall x, In x (leads s) -> objs s' x = objs s x) /\
  match o with
  | Ok new =>
      leads s' = leads s ++ new /\ NoDup new /\
      forall x, In x new -> ~ In x (leads s)
  | Raised _ => leads s' = leads s
  end.

(** The name of the file [save_leads_to_csv] writes: the one it is given,
    or one made from the time of the call. *)
Definition csv_name (w : world) (tr : list event) (filename : option pystr)
  : pystr :=
  if falsy filename then u "leads_" ++ now_stamp w tr ++ u ".csv"
  else text_of filename.

(** The methods a client calls on a scraper. *)
Inductive method : Type :=
| ScrapeLinkedin (search_query : pystr) (max_results : Z)
| ScrapeTwitter (hashtag : pystr) (max_results : Z)
| ScrapeFacebook (group_url : pystr)
| FilterQuality (keywords : list pystr)
| SaveCsv (filename : option pystr).

(** A call of a method, its result dropped. *)
Definition invoke (lower : pystr -> pystr) (m : method) : M scraper unit :=
  match m with
  | ScrapeLinkedin search_query max_results =>
      scrape_linkedin_leads search_query max_results;; ret tt
  | ScrapeTwitter hashtag max_results =>
      scrape_twitter_leads hashtag max_results;; ret tt
  | ScrapeFacebook group_url => scrape_facebook_groups group_url;; ret tt
  | FilterQuality keywords => filter_quality_leads lower keywords;; ret tt
  | SaveCsv filename => save_leads_to_csv filename;; ret tt
  end.

(** The configurations a new scraper reaches by calls of its methods,
    whether they return or raise. *)
Inductive reachable (lower : pystr -> pystr) (w : world) : config scraper -> Prop :=
| reach_new : reachable lower w ([], fresh)
| reach_call (c : config scraper) (m : method) :
    reachable lower w c -> reachable lower w (snd (run (invoke lower m) w c)).

(** ** Runs *)

(** Every run of [m] adds events that all pass [ok]. *)
Definition emits (ok : event -> bool) (S A : Type) (m : M S A) : Prop :=
  forall w c, grew ok (fst c) (fst (snd (m w c))).

(** Every run of [m] begins by opening a page; when that fails the error
    is raised and nothing else happens; when it works, the last event of
    the run is the closing of that page, and no other page is opened or
    closed in between. *)
Definition closes_its_page (S A : Type) (m : M S A) : Prop :=
  forall (w : world) (tr : list event) (s : S),
    match respond w NewPage tr with
    | Ok page =>
        exists added,
          fst (snd (run m w (tr, s)))
          = Call (PageClose page) :: added ++ Call NewPage :: tr /\
          forallb calm added = true
    | Raised e => run m w (tr, s) = (Raised e, (Call NewPage :: tr, s))
    end.

(** The leads gathered so far by a run that started from [s0]: at most [k]
    of them, new and distinct objects that satisfy [P]; what was stored
    before is as it was. *)
Definition gathered (P : lead -> Prop) (s0 : scraper) (k : nat)
  (cl : config (scraper * list nat)) : Prop :=
  leads (fst (snd cl)) = leads s0 /\
  next_id s0 <= next_id (fst (snd cl)) /\
  (forall x, x < next_id s0 -> objs (fst (snd cl)) x = objs s0 x) /\
  length (snd (snd cl)) <= k /\
  NoDup (snd (snd cl)) /\
  Forall (fun r => next_id s0 <= r < next_id (fst (snd cl)) /\
                   P (objs (fst (snd cl)) r))
         (snd (snd cl)).

(** What holds when the [try] statement of a scraper is left, on every
    way out, for a cap that is not negative. *)
Definition held (P : lead -> Prop) (s0 : scraper) (cap : Z)
  (cl : config (scraper * list nat)) : Prop :=
  exists k, gathered P s0 k cl /\ ((0 <= cap)%Z -> k <= Z.to_nat cap).

(** What a scraping run leaves: the leads it returns are new, distinct,
    at most [cap], satisfy [P] and are appended to [self.leads]; the
    dictionaries stored before are as they were; when it raises, the error
    comes from opening or closing the page and [self.leads] is as it
    was. *)
Definition appended (P : lead -> Prop) (w : world) (s : scraper) (cap : Z)
  (o : outcome (list nat)) (c' : config scraper) : Prop :=
  next_id s <= next_id (snd c') /\
  (forall x, x < next_id s -> objs (snd c') x = objs s x) /\
  match o with
  | Ok r =>
      leads (snd c') = leads s ++ r /\
      ((0 <= cap)%Z -> length r <= Z.to_nat cap) /\
      NoDup r /\
      Forall (fun x => next_id s <= x < next_id (snd c') /\ P (objs (snd c') x)) r
  | Raised e => lifecycle_error w e /\ leads (snd c') = leads s
  end.

End Conduct.

(* ===================================================================== *)
(** * Reasoning about computations *)
(* ===================================================================== *)

Module Rules.

Section WpRules.
Context {S : Type}.
Implicit Types (w : world) (c : config S).

Lemma wp_run (A : Type) (m : M S A) w c Q :
  wp m w c Q <-> Q (fst (run m w c)) (snd (run m w c)).
Proof. reflexivity. Qed.

Lemma wp_mono (A : Type) (m : M S A) w c (P Q : outcome A -> config S -> Prop) :
  wp m w c P -> (forall o c', P o c' -> Q o c') -> wp m w c Q.
Proof. unfold wp; auto. Qed.

Lemma wp_ret (A : Type) (a : A) w c Q : Q (Ok a) c -> wp (ret a) w c Q.
Proof. auto. Qed.

Lemma wp_raise (A : Type) (e : exn) w c (Q : outcome A -> config S -> Prop) :
  Q (Raised e) c -> wp (raise e) w c Q.
Proof. auto. Qed.

Lemma wp_lift (A : Type) (o : outcome A) w c Q : Q o c -> wp (lift_outcome o) w c Q.
Proof. auto. Qed.

Lemma wp_bind (A B : Type) (m : M S A) (k : A -> M S B) w c Q :
  wp m w c (fun o c' => match o with
                        | Ok a => wp (k a) w c' Q
                        | Raised e => Q (Raised e) c'
                        end) ->
  wp (bind m k) w c Q.
Proof.
  unfold wp, bind. destruct (m w c) as [[a | e] c']; cbn [fst snd]; auto.
Qed.

Lemma wp_perform (R : Type) (o : io R) w c Q :
  Q (respond w o (fst c)) (Call o :: fst c, snd c) -> wp (perform o) w c Q.
Proof. auto. Qed.

Lemma wp_log lvl msg w c Q :
  Q (Ok tt) (Log lvl msg :: fst c, snd c) -> wp (log lvl msg) w c Q.
Proof. auto. Qed.

Lemma wp_sleep ms w c Q :
  Q (Ok tt) (Sleep ms :: fst c, snd c) -> wp (sleep ms) w c Q.
Proof. auto. Qed.

Lemma wp_getenv name w c Q :
  Q (Ok (getenv w name)) c -> wp (os_getenv name) w c Q.
Proof. auto. Qed.

Lemma wp_now w c Q : Q (Ok (now_isoformat w (fst c))) c -> wp now w c Q.
Proof. auto. Qed.

Lemma wp_now_strftime w c Q :
  Q (Ok (now_stamp w (fst c))) c -> wp now_strftime w c Q.
Proof. auto. Qed.

Lemma wp_get w c Q : Q (Ok (snd c)) c -> wp get w c Q.
Proof. auto. Qed.

Lemma wp_put (s : S) w c Q : Q (Ok tt) (fst c, s) -> wp (put s) w c Q.
Proof. auto. Qed.

Lemma wp_try_except (A : Type) (m : M S A) (h : exn -> M S A) w c Q :
  wp m w c (fun o c' => match o with
                        | Ok a => Q (Ok a) c'
                        | Raised e => wp (h e) w c' Q
                        end) ->
  wp (try_except m h) w c Q.
Proof.
  unfold wp, try_except. destruct (m w c) as [[a | e] c']; cbn [fst snd]; auto.
Qed.

Lemma wp_try_finally (A : Type) (m : M S A) (f : M S unit) w c Q :
  wp m w c (fun o c' =>
    wp f w c' (fun o' c'' => match o' with
                             | Ok _ => Q o c''
                             | Raised e => Q (Raised e) c''
                             end)) ->
  wp (try_finally m f) w c Q.
Proof.
  unfold wp, try_finally. destruct (m w c) as [o c']; cbn [fst snd].
  destruct (f w c') as [[[] | e] c'']; cbn [fst snd]; auto.
Qed.

(** A loop, with an invariant over the items already visited. *)
Lemma wp_for_each (X : Type) (I : list X -> config S -> Prop)
    (xs : list X) (body : X -> M S unit) w c Q :
  I [] c ->
  (forall visited x rest c0, xs = visited ++ x :: rest -> I visited c0 ->
     wp (body x) w c0 (fun o c' => match o with
                                   | Ok _ => I (visited ++ [x]) c'
                                   | Raised e => Q (Raised e) c'
                                   end)) ->
  (forall c0, I xs c0 -> Q (Ok tt) c0) ->
  wp (for_each xs body) w c Q.
Proof.
  intros H0 Hstep Hend.
  assert (G : forall rest visited c0, xs = visited ++ rest -> I visited c0 ->
                wp (for_each rest body) w c0 Q).
  { induction rest as [| x rest IH]; intros visited c0 E HI.
    - rewrite app_nil_r in E. subst. apply wp_ret. auto.
    - cbn [for_each]. apply wp_bind.
      eapply wp_mono; [ apply (Hstep visited x rest c0 E HI) |].
      intros [[] | e] c' H; auto.
      apply (IH (visited ++ [x])); auto.
      rewrite <- app_assoc. exact E. }
  apply (G xs []); auto.
Qed.

Lemma wp_repeat_n (I : config S -> Prop) (n : nat) (body : M S unit) w c Q :
  I c ->
  (forall c0, I c0 ->
     wp body w c0 (fun o c' => match o with
                               | Ok _ => I c'
                               | Raised e => Q (Raised e) c'
                               end)) ->
  (forall c0, I c0 -> Q (Ok tt) c0) ->
  wp (repeat_n n body) w c Q.
Proof.
  intros H0 Hstep Hend. revert c H0.
  induction n as [| n IH]; intros c H0; cbn [repeat_n].
  - apply wp_ret. auto.
  - apply wp_bind. eapply wp_mono; [ apply (Hstep c H0) |].
    intros [[] | e] c' H; auto.
Qed.

Lemma wp_with_local (L A : Type) (init : L) (m : M (S * L) A) w c Q :
  wp m w (fst c, (snd c, init)) (fun o cl => Q o (fst cl, fst (snd cl))) ->
  wp (with_local init m) w c Q.
Proof.
  unfold wp, with_local.
  destruct (m w (fst c, (snd c, init))) as [o [t [s l]]]; cbn [fst snd]; auto.
Qed.

Lemma wp_get_local (L : Type) w (cl : config (S * L)) Q :
  Q (Ok (snd (snd cl))) cl -> wp get_local w cl Q.
Proof. auto. Qed.

Lemma wp_set_local (L : Type) (l : L) w (cl : config (S * L)) Q :
  Q (Ok tt) (fst cl, (fst (snd cl), l)) -> wp (set_local l) w cl Q.
Proof. auto. Qed.

Lemma wp_on_state (L A : Type) (m : M S A) w (cl : config (S * L)) Q :
  wp m w (fst cl, fst (snd cl))
     (fun o c' => Q o (fst c', (snd c', snd (snd cl)))) ->
  wp (on_state m) w cl Q.
Proof.
  unfold wp, on_state.
  destruct (m w (fst cl, fst (snd cl))) as [o [t s]]; cbn [fst snd]; auto.
Qed.

End WpRules.

(** One step of a run. *)
Ltac wp_step :=
  lazymatch goal with
  | |- wp (bind _ _) _ _ _ => apply wp_bind
  | |- wp (ret _) _ _ _ => apply wp_ret
  | |- wp (raise _) _ _ _ => apply wp_raise
  | |- wp (lift_outcome _) _ _ _ => apply wp_lift
  | |- wp (perform _) _ _ _ => apply wp_perform
  | |- wp (log _ _) _ _ _ => apply wp_log
  | |- wp (sleep _) _ _ _ => apply wp_sleep
  | |- wp (os_getenv _) _ _ _ => apply wp_getenv
  | |- wp now _ _ _ => apply wp_now
  | |- wp now_strftime _ _ _ => apply wp_now_strftime
  | |- wp get _ _ _ => apply wp_get
  | |- wp (put _) _ _ _ => apply wp_put
  | |- wp get_local _ _ _ => apply wp_get_local
  | |- wp (set_local _) _ _ _ => apply wp_set_local
  | |- wp (on_state _) _ _ _ => apply wp_on_state
  | |- wp (with_local _ _) _ _ _ => apply wp_with_local
  | |- wp (try_except _ _) _ _ _ => apply wp_try_except
  | |- wp (try_finally _ _) _ _ _ => apply wp_try_finally
  end; cbn beta iota delta [fst snd].

End Rules.

Import Rules.

(* ===================================================================== *)
(** * Facts about the Python values *)
(* ===================================================================== *)

Module PyFacts.

(** ** Text *)

Lemma str_eqb_eq (a b : pystr) : str_eqb a b = true <-> a = b.
Proof.
  revert b. induction a as [| x a IH]; intros [| y b]; cbn; try (split; congruence).
  rewrite andb_true_iff, N.eqb_eq, IH. split.
  - intros [-> ->]. reflexivity.
  - intros [= -> ->]. auto.
Qed.

Lemma str_eqb_refl (a : pystr) : str_eqb a a = true.
Proof. apply str_eqb_eq. reflexivity. Qed.

Lemma str_eqb_neq (a b : pystr) : str_eqb a b = false <-> a <> b.
Proof.
  rewrite <- str_eqb_eq. destruct (str_eqb a b); split; congruence.
Qed.

Lemma str_eqb_sym (a b : pystr) : str_eqb a b = str_eqb b a.
Proof.
  destruct (str_eqb a b) eqn:E.
  - apply str_eqb_eq in E. subst. symmetry. apply str_eqb_refl.
  - symmetry. apply str_eqb_neq. apply str_eqb_neq in E. congruence.
Qed.

Lemma existsb_str_eqb (k : pystr) (s : list pystr) :
  existsb (str_eqb k) s = true <-> In k s.
Proof.
  rewrite existsb_exists. split.
  - intros [x [Hx E]]. apply str_eqb_eq in E. subst. exact Hx.
  - intros H. exists k. split; [ exact H | apply str_eqb_refl ].
Qed.

Lemma str_ltb_irrefl (a : pystr) : str_ltb a a = false.
Proof.
  induction a as [| x a IH]; cbn; [ reflexivity |].
  rewrite N.ltb_irrefl, N.eqb_refl. exact IH.
Qed.

Lemma str_ltb_asym (a b : pystr) : str_ltb a b = true -> str_ltb b a = false.
Proof.
  revert b. induction a as [| x a IH]; intros [| y b]; cbn; try congruence.
  destruct (N.ltb_spec x y) as [L | L].
  - intros _. destruct (N.ltb_spec y x); [ lia |].
    destruct (N.eqb_spec y x); [ lia | reflexivity ].
  - destruct (N.eqb_spec x y) as [-> | N]; [| congruence ].
    rewrite N.ltb_irrefl, N.eqb_refl. apply IH.
Qed.

(** Two texts that are not ordered either way are the same text. *)
Lemma str_ltb_total (a b : pystr) :
  str_ltb a b = false -> str_ltb b a = false -> a = b.
Proof.
  revert b. induction a as [| x a IH]; intros [| y b]; cbn; try congruence.
  destruct (N.ltb_spec x y) as [L | L]; [ congruence |].
  destruct (N.eqb_spec x y) as [-> | N].
  - rewrite N.ltb_irrefl, N.eqb_refl. intros H1 H2. f_equal. auto.
  - destruct (N.ltb_spec y x) as [L' | L']; [ congruence | lia ].
Qed.

Lemma str_ltb_trans (a b c : pystr) :
  str_ltb a b = true -> str_ltb b c = true -> str_ltb a c = true.
Proof.
  revert b c. induction a as [| x a IH]; intros [| y b] [| z c]; cbn; try congruence.
  destruct (N.ltb_spec x y) as [L1 | L1].
  - intros _. destruct (N.ltb_spec y z) as [L2 | L2].
    + intros _. destruct (N.ltb_spec x z); [ reflexivity | lia ].
    + destruct (N.eqb_spec y z) as [-> | N]; [| congruence ].
      intros _. destruct (N.ltb_spec x z); [ reflexivity | lia ].
  - destruct (N.eqb_spec x y) as [-> | N]; [| congruence ].
    intros H1. destruct (N.ltb_spec y z) as [L2 | L2]; [ reflexivity |].
    destruct (N.eqb_spec y z) as [-> | N2]; [| congruence ].
    apply IH. exact H1.
Qed.

(** [not (b < a)] is transitive: the order of [sorted] on text is total. *)
Lemma str_leb_trans (a b c : pystr) :
  str_ltb b a = false -> str_ltb c b = false -> str_ltb c a = false.
Proof.
  intros H1 H2. destruct (str_ltb c a) eqn:E; [| reflexivity ].
  destruct (str_ltb a b) eqn:E1.
  - rewrite (str_ltb_trans _ _ _ E E1) in H2. discriminate.
  - assert (a = b) by (apply str_ltb_total; assumption). subst. congruence.
Qed.

(** ** Slices *)

Lemma slice_to_length (A : Type) (m : Z) (xs : list A) :
  (0 <= m)%Z -> length (slice_to m xs) <= Z.to_nat m.
Proof.
  intros H. unfold slice_to.
  destruct (m <? 0)%Z eqn:E; [ lia |].
  rewrite length_firstn. lia.
Qed.

Lemma slice_to_all (A : Type) (m : Z) (xs : list A) :
  (Z.of_nat (length xs) <= m)%Z -> slice_to m xs = xs.
Proof.
  intros H. unfold slice_to.
  destruct (m <? 0)%Z eqn:E; [ lia |].
  apply firstn_all2. lia.
Qed.

(** ** Dictionaries *)

Lemma dict_get_set_same (V : Type) (d : dict V) k v :
  dict_get (dict_set d k v) k = Some v.
Proof.
  induction d as [| [k' v'] d IH]; cbn.
  - rewrite str_eqb_refl. reflexivity.
  - destruct (str_eqb k' k) eqn:E; cbn; rewrite E; auto.
Qed.

Lemma dict_get_set_other (V : Type) (d : dict V) k v k' :
  k <> k' -> dict_get (dict_set d k v) k' = dict_get d k'.
Proof.
  intros N. induction d as [| [k0 v0] d IH]; cbn.
  - destruct (str_eqb k k') eqn:E; [ apply str_eqb_eq in E; contradiction | reflexivity ].
  - destruct (str_eqb k0 k) eqn:E; cbn.
    + apply str_eqb_eq in E. subst k0.
      destruct (str_eqb k k') eqn:E'; [ apply str_eqb_eq in E'; contradiction | reflexivity ].
    + destruct (str_eqb k0 k'); auto.
Qed.

Lemma dict_set_set (V : Type) (d : dict V) k v v' :
  dict_set (dict_set d k v) k v' = dict_set d k v'.
Proof.
  induction d as [| [k0 v0] d IH]; cbn.
  - rewrite str_eqb_refl. reflexivity.
  - destruct (str_eqb k0 k) eqn:E; cbn; rewrite E; [ reflexivity | f_equal; exact IH ].
Qed.

Lemma keys_dict_set (V : Type) (d : dict V) k v :
  keys (dict_set d k v) = if has_key d k then keys d else keys d ++ [k].
Proof.
  unfold has_key. induction d as [| [k0 v0] d IH]; cbn; [ reflexivity |].
  destruct (str_eqb k0 k) eqn:E; cbn; [ reflexivity |].
  unfold keys in IH. rewrite IH. destruct (dict_get d k); reflexivity.
Qed.

Lemma has_key_in (V : Type) (d : dict V) k : has_key d k = true <-> In k (keys d).
Proof.
  unfold has_key. induction d as [| [k0 v0] d IH]; cbn; [ split; [ congruence | tauto ] |].
  destruct (str_eqb k0 k) eqn:E.
  - apply str_eqb_eq in E. split; auto.
  - apply str_eqb_neq in E. rewrite IH. split; [ auto | intros [? | ?]; [ contradiction | auto ] ].
Qed.

(** ** Sets of text *)

Lemma set_add_in k s x : In x (set_add k s) <-> In x s \/ x = k.
Proof.
  unfold set_add. destruct (existsb (str_eqb k) s) eqn:E.
  - apply existsb_str_eqb in E. split; [ auto | intros [? | ->]; auto ].
  - rewrite in_app_iff. cbn. split; intros [? | ?]; auto.
    + destruct H as [-> | []]. auto.
Qed.

Lemma set_add_nodup k s : NoDup s -> NoDup (set_add k s).
Proof.
  intros H. unfold set_add. destruct (existsb (str_eqb k) s) eqn:E; [ exact H |].
  assert (~ In k s).
  { intros C. apply existsb_str_eqb in C. congruence. }
  apply NoDup_rev in H. rewrite <- (rev_involutive (s ++ [k])).
  apply NoDup_rev. rewrite rev_app_distr. cbn. constructor; [| exact H ].
  rewrite <- in_rev. assumption.
Qed.

Lemma set_update_in ks s x : In x (set_update s ks) <-> In x s \/ In x ks.
Proof.
  unfold set_update. revert s. induction ks as [| k ks IH]; intros s; cbn.
  - tauto.
  - rewrite IH, set_add_in. intuition (subst; auto).
Qed.

Lemma set_update_nodup ks s : NoDup s -> NoDup (set_update s ks).
Proof.
  unfold set_update. revert s. induction ks as [| k ks IH]; intros s H; cbn.
  - exact H.
  - apply IH. apply set_add_nodup. exact H.
Qed.

(** ** The stable sort *)

Section SortFacts.
Variable A : Type.
Variable lt : A -> A -> bool.

(** [le a b]: [b] is not smaller than [a]. *)
Let le (a b : A) : Prop := lt b a = false.

Hypothesis lt_asym : forall a b, lt a b = true -> lt b a = false.
Hypothesis le_trans : forall a b c, le a b -> le b c -> le a c.

Lemma insert_sorted_perm x l : Permutation (insert_sorted lt x l) (x :: l).
Proof.
  induction l as [| y l IH]; cbn; [ reflexivity |].
  destruct (lt y x); [| reflexivity ].
  rewrite IH. apply perm_swap.
Qed.

Lemma stable_sort_perm l : Permutation (stable_sort lt l) l.
Proof.
  induction l as [| x l IH]; cbn; [ reflexivity |].
  rewrite insert_sorted_perm. constructor. exact IH.
Qed.

Lemma insert_sorted_sorted x l :
  StronglySorted le l -> StronglySorted le (insert_sorted lt x l).
Proof.
  induction l as [| y l IH]; intros H; cbn.
  - constructor; [ constructor | constructor ].
  - inversion H as [| ? ? Hs Hall]; subst.
    destruct (lt y x) eqn:E.
    + constructor; [ auto |].
      apply (Permutation_Forall (Permutation_sym (insert_sorted_perm x l))).
      constructor; [ apply lt_asym; exact E | exact Hall ].
    + constructor; [ exact H |].
      constructor; [ exact E |].
      eapply Forall_impl; [| exact Hall ]. intros z Hz.
      apply le_trans with (b := y); assumption.
Qed.

Lemma stable_sort_sorted l : StronglySorted le (stable_sort lt l).
Proof.
  induction l as [| x l IH]; cbn; [ constructor |].
  apply insert_sorted_sorted. exact IH.
Qed.

End SortFacts.

(** *** Sorting by an integer key, as [l.sort(key=..., reverse=True)] does *)





Section KeySort.
Variable A : Type.
Variable key : A -> Z.





Lemma list_sort_reverse_perm l :
  Permutation (list_sort (fun a b => (key a <? key b)%Z) true l) l.
Proof.
  unfold list_sort. rewrite <- Permutation_rev, stable_sort_perm, <- Permutation_rev.
  reflexivity.
Qed.


End KeySort.

End PyFacts.

(* ===================================================================== *)
(** * Dictionaries by reference *)
(* ===================================================================== *)

Module ObjFacts.
Import LeadScraper.

Lemma set_obj_same o r d : set_obj o r d r = d.
Proof. unfold set_obj. rewrite Nat.eqb_refl. reflexivity. Qed.

Lemma set_obj_other o r d i : i <> r -> set_obj o r d i = o i.
Proof.
  unfold set_obj. intros H.
  destruct (Nat.eqb_spec i r); [ contradiction | reflexivity ].
Qed.

End ObjFacts.

(* ===================================================================== *)
(** * Filtering, scoring and ordering leads *)
(* ===================================================================== *)

Module FilterFacts.
Import LeadScraper Notions PyFacts ObjFacts.

Section Filtering.
Variable lower : pystr -> pystr.
Variable keywords : list pystr.

Let qualifies := qualifies lower keywords.
Let scored := scored lower keywords.

Lemma filter_step_eq o acc r :
  filter_step lower keywords (o, acc) r =
  if qualifies (o r) then (set_obj o r (scored (o r)), acc ++ [r]) else (o, acc).
Proof. reflexivity. Qed.

Lemma existsb_eqb_in x refs : existsb (Nat.eqb x) refs = true <-> In x refs.
Proof.
  rewrite existsb_exists. split.
  - intros [y [Hy E]]. apply Nat.eqb_eq in E. subst. exact Hy.
  - intros H. exists x. split; [ exact H | apply Nat.eqb_refl ].
Qed.

(** The loop over distinct references: which leads are kept, in which
    order, and what each dictionary holds afterwards. *)
Lemma filter_loop refs :
  NoDup refs ->
  forall o acc,
    snd (fold_left (filter_step lower keywords) refs (o, acc))
    = acc ++ filter (fun r => qualifies (o r)) refs /\
    forall x,
      fst (fold_left (filter_step lower keywords) refs (o, acc)) x
      = if existsb (Nat.eqb x) refs && qualifies (o x) then scored (o x) else o x.
Proof.
  induction 1 as [| r refs Hnin Hnd IH]; intros o acc.
  - cbn. rewrite app_nil_r. auto.
  - cbn [fold_left]. rewrite filter_step_eq.
    assert (Hsame : forall o', (forall x, x <> r -> o' x = o x) ->
              filter (fun x => qualifies (o' x)) refs
              = filter (fun x => qualifies (o x)) refs).
    { intros o' Ho. apply filter_ext_in. intros x Hx. rewrite Ho; [ reflexivity |].
      intros ->. contradiction. }
    assert (Hr : existsb (Nat.eqb r) refs = false).
    { destruct (existsb (Nat.eqb r) refs) eqn:E; [| reflexivity ].
      apply existsb_eqb_in in E. contradiction. }
    destruct (qualifies (o r)) eqn:Q.
    + destruct (IH (set_obj o r (scored (o r))) (acc ++ [r])) as [IH1 IH2].
      split.
      * rewrite IH1, Hsame by (intros; apply set_obj_other; assumption).
        cbn [filter]. rewrite Q, <- app_assoc. reflexivity.
      * intros x. rewrite IH2. cbn [existsb].
        destruct (Nat.eqb_spec x r) as [-> | N].
        -- rewrite Hr, Q. cbn. apply set_obj_same.
        -- rewrite set_obj_other by assumption. reflexivity.
    + destruct (IH o acc) as [IH1 IH2]. split.
      * rewrite IH1. cbn [filter]. rewrite Q. reflexivity.
      * intros x. rewrite IH2. cbn [existsb].
        destruct (Nat.eqb_spec x r) as [-> | N]; [| reflexivity ].
        rewrite Hr, Q. reflexivity.
Qed.

Lemma score_scored d :
  score (scored d) = match_count lower (lead_text lower d) keywords.
Proof.
  unfold score, scored, Notions.scored, get_default.
  rewrite dict_get_set_same. reflexivity.
Qed.

(** What [filter_quality_leads] returns and leaves behind. *)
Lemma filter_quality_leads_run w tr s :
  NoDup (leads s) ->
  let kept := filter (fun r => qualifies (objs s r)) (leads s) in
  let objs' := fun x =>
    if existsb (Nat.eqb x) (leads s) && qualifies (objs s x)
    then scored (objs s x) else objs s x in
  exists q tr' o',
    run (filter_quality_leads lower keywords) w (tr, s)
    = (Ok q, (tr', {| objs := o'; next_id := next_id s; leads := leads s |})) /\
    (forall x, o' x = objs' x) /\
    q = list_sort (fun a b => (score (o' a) <? score (o' b))%Z) true kept.
Proof.
  intros Hnd kept objs'.
  destruct (filter_loop Hnd (objs s) []) as [H1 H2].
  unfold run, filter_quality_leads, bind, get, put, log, ret. cbn [fst snd].
  do 3 eexists. split; [ reflexivity |]. split; [ exact H2 |].
  rewrite H1. reflexivity.
Qed.

(** The same loop over any list of references, with repetitions. *)
Lemma match_count_positive d :
  qualifies d = true ->
  (1 <= match_count lower (lead_text lower d) keywords)%Z.
Proof.
  unfold qualifies, Notions.qualifies, match_count. intros H.
  apply existsb_exists in H. destruct H as (k & Hk & Hm).
  assert (Hin : In k (filter (matches lower (lead_text lower d)) keywords)).
  { apply filter_In. auto. }
  destruct (filter (matches lower (lead_text lower d)) keywords); [ destruct Hin |].
  cbn [length]. lia.
Qed.

Lemma filter_loop_any refs :
  forall o acc,
  exists kept,
    snd (fold_left (filter_step lower keywords) refs (o, acc)) = acc ++ kept /\
    subseq kept refs /\
    (forall x, In x kept <-> In x refs /\ qualifies (o x) = true) /\
    (forall x, In x kept ->
       exists z, (1 <= z)%Z /\
         fst (fold_left (filter_step lower keywords) refs (o, acc)) x
         = dict_set (o x) (u "match_score") (VInt z)) /\
    (forall x, ~ In x kept ->
       fst (fold_left (filter_step lower keywords) refs (o, acc)) x = o x).
Proof.
  induction refs as [| r refs IH]; intros o acc.
  - exists []. cbn. rewrite app_nil_r.
    repeat split; try constructor; try tauto; intros x []; tauto.
  - cbn [fold_left]. rewrite filter_step_eq.
    destruct (qualifies (o r)) eqn:Q.
    + destruct (IH (set_obj o r (scored (o r))) (acc ++ [r]))
        as (kept & Hsnd & Hsub & Hmem & Hin & Hout).
      exists (r :: kept). split; [ rewrite Hsnd, <- app_assoc; reflexivity |].
      split; [ constructor; exact Hsub |]. split; [| split ].
      * intros x. cbn [In]. rewrite Hmem.
        destruct (Nat.eq_dec r x) as [-> | N].
        -- tauto.
        -- rewrite set_obj_other by congruence. tauto.
      * intros x Hx.
        destruct (in_dec Nat.eq_dec x kept) as [Hk | Hk].
        -- destruct (Hin x Hk) as (z & Hz & E). exists z. split; [ exact Hz |].
           rewrite E. destruct (Nat.eq_dec x r) as [-> | N].
           ++ rewrite set_obj_same. unfold scored, Notions.scored.
              apply dict_set_set.
           ++ rewrite set_obj_other by exact N. reflexivity.
        -- destruct Hx as [<- | Hx]; [| contradiction ].
           exists (match_count lower (lead_text lower (o r)) keywords).
           split; [ apply match_count_positive; exact Q |].
           rewrite (Hout r Hk). apply set_obj_same.
      * intros x Hx. cbn [In] in Hx.
        rewrite Hout by tauto. apply set_obj_other. intros ->. tauto.
    + destruct (IH o acc) as (kept & Hsnd & Hsub & Hmem & Hin & Hout).
      exists kept. split; [ exact Hsnd |].
      split; [ constructor; exact Hsub |]. split; [| split; assumption ].
      intros x. rewrite Hmem. cbn [In]. split; [ tauto |].
      intros [[<- | H] Hq]; [ congruence | tauto ].
Qed.

(** What [filter_quality_leads] returns and leaves behind, for any
    scraper. *)
Lemma filter_quality_leads_run_any w tr s :
  exists q tr' o' kept,
    run (filter_quality_leads lower keywords) w (tr, s)
    = (Ok q, (tr', {| objs := o'; next_id := next_id s; leads := leads s |})) /\
    q = list_sort (fun a b => (score (o' a) <? score (o' b))%Z) true kept /\
    subseq kept (leads s) /\
    (forall x, In x kept <-> In x (leads s) /\ qualifies (objs s x) = true) /\
    (forall x, In x kept ->
       exists z, (1 <= z)%Z /\ o' x = dict_set (objs s x) (u "match_score") (VInt z)) /\
    (forall x, ~ In x kept -> o' x = objs s x).
Proof.
  destruct (filter_loop_any (leads s) (objs s) [])
    as (kept & Hsnd & Hsub & Hmem & Hin & Hout).
  unfold run, filter_quality_leads, bind, get, put, log, ret. cbn [fst snd].
  do 3 eexists. exists kept. split; [ reflexivity |].
  split; [ rewrite Hsnd; reflexivity |]. auto.
Qed.

End Filtering.

End FilterFacts.

(* ===================================================================== *)
(** * Writing the table of leads *)
(* ===================================================================== *)

Module SaveFacts.
Import LeadScraper Notions PyFacts.

Lemma all_keys_from (o : nat -> lead) refs acc k :
  In k (fold_left (fun acc r => set_update acc (keys (o r))) refs acc)
  <-> In k acc \/ exists r, In r refs /\ In k (keys (o r)).
Proof.
  revert acc. induction refs as [| r refs IH]; intros acc; cbn [fold_left].
  - split; [ auto | intros [H | [r [[] _]]]; exact H ].
  - rewrite IH, set_update_in. split.
    + intros [[H | H] | [r' [H1 H2]]]; [ auto | right; exists r; cbn; auto |].
      right. exists r'. cbn. auto.
    + intros [H | [r' [[<- | H1] H2]]]; [ auto | auto |].
      right. exists r'. auto.
Qed.

Lemma all_keys_in (o : nat -> lead) refs k :
  In k (all_keys o refs) <-> exists r, In r refs /\ In k (keys (o r)).
Proof.
  unfold all_keys. rewrite all_keys_from. cbn. tauto.
Qed.

Lemma all_keys_nodup (o : nat -> lead) refs : NoDup (all_keys o refs).
Proof.
  unfold all_keys.
  assert (G : forall acc, NoDup acc ->
            NoDup (fold_left (fun acc r => set_update acc (keys (o r))) refs acc)).
  { induction refs as [| r refs IH]; intros acc H; cbn [fold_left]; [ exact H |].
    apply IH. apply set_update_nodup. exact H. }
  apply G. constructor.
Qed.

(** [sorted] of distinct texts is strictly increasing. *)
Lemma sorted_str_increasing l :
  NoDup l -> StronglySorted (fun a b => str_ltb a b = true) (sorted_str l).
Proof.
  intros Hnd. unfold sorted_str.
  assert (Hs := @stable_sort_sorted _ str_ltb str_ltb_asym
                   (fun a b c H1 H2 => str_leb_trans a b c H1 H2) l).
  assert (Hn : NoDup (stable_sort str_ltb l)).
  { eapply Permutation_NoDup; [ apply Permutation_sym, stable_sort_perm | exact Hnd ]. }
  induction Hs as [| x l' Hs IH Hx]; [ constructor |].
  inversion Hn as [| ? ? Hnin Hn']; subst.
  constructor; [ auto |].
  rewrite Forall_forall in *. intros y Hy.
  destruct (str_ltb x y) eqn:E; [ reflexivity |].
  assert (x = y) by (apply str_ltb_total; [ exact E | apply Hx; exact Hy ]).
  subst. contradiction.
Qed.

Lemma header_increasing s :
  StronglySorted (fun a b => str_ltb a b = true) (header s).
Proof. apply sorted_str_increasing, all_keys_nodup. Qed.

Lemma header_keys s k :
  In k (header s) <-> exists r, In r (leads s) /\ In k (keys (objs s r)).
Proof.
  unfold header, sorted_str. rewrite <- all_keys_in. split.
  - apply Permutation_in, stable_sort_perm.
  - apply Permutation_in, Permutation_sym, stable_sort_perm.
Qed.

(** The run of [save_leads_to_csv] on a scraper that holds leads. *)
Lemma save_leads_run w tr s filename :
  writable w -> leads s <> [] ->
  wp (save_leads_to_csv filename) w (tr, s)
     (fun o c' => (exists name, o = Ok (Some name)) /\ snd c' = s /\
                  rows_written (fst c') = rows_written tr ++ table s).
Proof.
  intros (Hopen & Hrow & Hclose) Hne. unfold save_leads_to_csv.
  wp_step.
  eapply wp_mono with
    (P := fun o c' => (exists name, o = Ok name) /\ c' = (tr, s)).
  { destruct (falsy filename); repeat wp_step; eauto. }
  intros o c' [[name ->] ->]. wp_step. wp_step.
  lazymatch goal with
  | |- wp (match leads s with [] => _ | _ :: _ => ?b end) _ _ _ =>
      assert (E : forall a, match leads s with [] => a | _ :: _ => b end = b)
        by (intros; destruct (leads s); [ congruence | reflexivity ]);
      rewrite E; clear E
  end.
  wp_step. wp_step. wp_step.
  destruct (Hopen name tr) as [f ->]. wp_step. wp_step. wp_step. wp_step.
  rewrite Hrow. cbn beta iota.
  apply wp_for_each with
    (I := fun visited c0 =>
            snd c0 = s /\
            rows_written (fst c0) = rows_written tr ++ header s ::
              map (fun r => row_of (header s) (objs s r)) visited).
  - split; reflexivity.
  - intros visited x rest' [t0 s0] _ [Hs Hr]. cbn [fst snd] in *. subst s0.
    wp_step. rewrite Hrow. cbn beta iota delta [fst snd rows_written]. split; [ reflexivity |].
    rewrite Hr, map_app, <- app_assoc. reflexivity.
  - intros [t0 s0] [Hs Hr]. cbn [fst snd] in *. subst s0.
    wp_step. rewrite Hclose. cbn beta iota. wp_step. wp_step. wp_step.
    cbn [fst snd rows_written]. split; [ eauto |]. split; [ reflexivity | exact Hr ].
Qed.

(** The same, about the result of the run. *)
Lemma save_leads_writes_table w tr s filename :
  writable w -> leads s <> [] ->
  exists name tr',
    run (save_leads_to_csv filename) w (tr, s) = (Ok (Some name), (tr', s)) /\
    rows_written tr' = rows_written tr ++ table s.
Proof.
  intros Hw Hne.
  pose proof (@save_leads_run w tr s filename Hw Hne) as H.
  unfold wp in H. fold (run (save_leads_to_csv filename) w (tr, s)) in H.
  destruct (run (save_leads_to_csv filename) w (tr, s)) as [o [tr' s']].
  cbn [fst snd] in H. destruct H as ([name ->] & -> & Hrows).
  exists name, tr'. split; [ reflexivity | exact Hrows ].
Qed.

End SaveFacts.

(* ===================================================================== *)
(** * Properties of the lead aggregator *)
(* ===================================================================== *)

Module Aggregator.
Import LeadScraper Notions Sites PyFacts ObjFacts FilterFacts SaveFacts.

Lemma two_leads_distinct : NoDup (leads two_leads).
Proof.
  cbn. constructor; [ cbn; intros [H | []]; discriminate |].
  constructor; [ intros [] | constructor ].
Defined.

Lemma plain_site_writable n text : writable (world_of (plain_site n text)).
Proof.
  split; [| split ]; intros; cbn; eauto.
Defined.

(** C5, as amended. [filter_quality_leads] keeps exactly the stored leads
    whose text (the lowered values joined by spaces) contains a lowered
    keyword.  When the stored leads are distinct objects, each kept lead
    is returned once and holds a [match_score] equal to the number of
    entries of the keyword list that match: a keyword given twice counts
    twice. *)
Theorem filter_keeps_matching_and_counts_keywords :
  forall (lower : pystr -> pystr) (keywords : list pystr)
         (w : world) (tr : list event) (s : scraper),
    exists q c',
      run (filter_quality_leads lower keywords) w (tr, s) = (Ok q, c') /\
      (forall r, In r q <->
                 In r (leads s) /\ qualifies lower keywords (objs s r) = true) /\
      (NoDup (leads s) ->
       Permutation q (filter (fun r => qualifies lower keywords (objs s r)) (leads s)) /\
       forall r, In r q ->
         dict_get (objs (snd c') r) (u "match_score")
         = Some (VInt (match_count lower (lead_text lower (objs s r)) keywords))).
Proof.
  intros lower keywords w tr s.
  destruct (@filter_quality_leads_run_any lower keywords w tr s)
    as (q & tr' & o' & kept & Hrun & Hq & _ & Hmem & _).
  exists q. eexists. split; [ exact Hrun |]. split.
  - intros r. rewrite <- Hmem, Hq. split; apply Permutation_in.
    + apply list_sort_reverse_perm with (key := fun a => score (o' a)).
    + apply Permutation_sym.
      apply list_sort_reverse_perm with (key := fun a => score (o' a)).
  - intros Hnd.
    destruct (@filter_quality_leads_run lower keywords w tr s Hnd)
      as (q2 & tr2 & o2 & Hrun2 & Ho & Hq2).
    rewrite Hrun in Hrun2. injection Hrun2 as <- <- <-.
    assert (Hp : Permutation q
                   (filter (fun r => qualifies lower keywords (objs s r)) (leads s))).
    { rewrite Hq2. apply list_sort_reverse_perm with (key := fun a => score (o' a)). }
    split; [ exact Hp |].
    intros r Hr. cbn [snd objs]. rewrite Ho.
    apply (Permutation_in _ Hp) in Hr. apply filter_In in Hr.
    destruct Hr as [Hin Hqual].
    apply existsb_eqb_in in Hin. rewrite Hin, Hqual. cbn [andb].
    apply dict_get_set_same.
Qed.

Lemma filter_keeps_matching_witness :
  exists q c',
    run (filter_quality_leads ascii_lower [u "ai"; u "engineer"])
        (world_of (plain_site 0 [])) ([], two_leads) = (Ok q, c') /\
    Permutation q
      (filter (fun r => qualifies ascii_lower [u "ai"; u "engineer"] (objs two_leads r))
              (leads two_leads)) /\
    forall r, In r q ->
      dict_get (objs (snd c') r) (u "match_score")
      = Some (VInt (match_count ascii_lower
                      (lead_text ascii_lower (objs two_leads r))
                      [u "ai"; u "engineer"])).
Proof.
  destruct (@filter_keeps_matching_and_counts_keywords ascii_lower
              [u "ai"; u "engineer"] (world_of (plain_site 0 [])) [] two_leads)
    as (q & c' & Hrun & _ & H).
  exists q, c'. split; [ exact Hrun |]. apply H, two_leads_distinct.
Defined.

(** C5 as stated fails: with the keyword list [["ai", "ai"]] the lead Ada
    gets the score 2, and one distinct keyword matches. *)
Lemma score_counts_repeated_keywords :
  exists c',
    run (filter_quality_leads ascii_lower [u "ai"; u "ai"])
        (world_of (plain_site 0 [])) ([], two_leads) = (Ok [0], c') /\
    dict_get (objs (snd c') 0) (u "match_score") = Some (VInt 2) /\
    spec_match_score ascii_lower (objs two_leads 0) [u "ai"; u "ai"] = 1%Z /\
    dict_get (objs (snd c') 0) (u "match_score")
    <> Some (VInt (spec_match_score ascii_lower (objs two_leads 0) [u "ai"; u "ai"])).
Proof.
  eexists. split; [ vm_compute; reflexivity |].
  split; [ vm_compute; reflexivity |].
  split; [ vm_compute; reflexivity |].
  vm_compute. discriminate.
Qed.


Example filter_orders_two_leads :
  fst (run (filter_quality_leads ascii_lower [u "a"; u "ai"; u "bob"])
           (world_of (plain_site 0 [])) ([], two_leads)) = Ok [0; 1].
Proof. vm_compute. reflexivity. Qed.

(** C7. For a scraper that holds leads, and a file system that lets the
    file be written, [save_leads_to_csv] writes the header and then one
    row per lead; the header is the union of the keys of the leads, each
    key once, in ascending order, and every row has one cell per column. *)
Theorem csv_columns_are_sorted_union_of_keys :
  forall (w : world) (tr : list event) (s : scraper) (filename : option pystr),
    leads s <> [] ->
    writable w ->
    exists name tr',
      run (save_leads_to_csv filename) w (tr, s) = (Ok (Some name), (tr', s)) /\
      rows_written tr'
      = rows_written tr ++ header s :: map (fun r => row_of (header s) (objs s r)) (leads s) /\
      StronglySorted (fun a b => str_ltb a b = true) (header s) /\
      (forall k, In k (header s) <->
                 exists r, In r (leads s) /\ In k (keys (objs s r))) /\
      (forall r, length (row_of (header s) (objs s r)) = length (header s)).
Proof.
  intros w tr s filename Hne Hw.
  destruct (@save_leads_writes_table w tr s filename Hw Hne)
    as (name & tr' & Hrun & Hrows).
  exists name, tr'. split; [ exact Hrun |]. split; [ exact Hrows |].
  split; [ apply header_increasing |]. split; [ apply header_keys |].
  intros r. unfold row_of. apply length_map.
Qed.

Lemma csv_columns_witness :
  exists name tr',
    run (save_leads_to_csv None) (world_of (plain_site 0 [])) ([], two_leads)
    = (Ok (Some name), (tr', two_leads)) /\
    rows_written tr'
    = rows_written [] ++ header two_leads ::
        map (fun r => row_of (header two_leads) (objs two_leads r)) (leads two_leads) /\
    StronglySorted (fun a b => str_ltb a b = true) (header two_leads) /\
    (forall k, In k (header two_leads) <->
               exists r, In r (leads two_leads) /\ In k (keys (objs two_leads r))) /\
    (forall r, length (row_of (header two_leads) (objs two_leads r))
               = length (header two_leads)).
Proof.
  apply (@csv_columns_are_sorted_union_of_keys (world_of (plain_site 0 [])) []
           two_leads None).
  - cbn. discriminate.
  - apply plain_site_writable.
Defined.

(** C10. [filter_quality_leads] leaves [self.leads] as it is, members and
    order; the one change it makes to a stored lead is to set the key
    [match_score] of the leads it returns, which are the stored leads that
    match a keyword; and a [save_leads_to_csv] that follows writes one row
    for every stored lead, whether it was kept by the filter or not. *)
Theorem filter_leaves_stored_leads :
  forall (lower : pystr -> pystr) (keywords : list pystr)
         (w : world) (tr : list event) (s : scraper) (filename : option pystr),
    exists q tr' s',
      run (filter_quality_leads lower keywords) w (tr, s) = (Ok q, (tr', s')) /\
      leads s' = leads s /\
      next_id s' = next_id s /\
      (forall x, In x q <->
                 In x (leads s) /\ qualifies lower keywords (objs s x) = true) /\
      (forall x, In x q ->
         exists z, (1 <= z)%Z /\
           objs s' x = dict_set (objs s x) (u "match_score") (VInt z)) /\
      (forall x, ~ In x q -> objs s' x = objs s x) /\
      (leads s <> [] -> writable w ->
       exists name tr'',
         run (save_leads_to_csv filename) w (tr', s') = (Ok (Some name), (tr'', s')) /\
         rows_written tr''
         = rows_written tr' ++ header s' ::
             map (fun r => row_of (header s') (objs s' r)) (leads s)).
Proof.
  intros lower keywords w tr s filename.
  destruct (@filter_quality_leads_run_any lower keywords w tr s)
    as (q & tr' & o' & kept & Hrun & Hq & _ & Hmem & Hin & Hout).
  assert (Hp : Permutation q kept).
  { rewrite Hq. apply list_sort_reverse_perm with (key := fun a => score (o' a)). }
  exists q, tr'. eexists. split; [ exact Hrun |]. cbn [leads next_id objs].
  split; [ reflexivity |]. split; [ reflexivity |].
  split; [| split; [| split ] ].
  - intros x. rewrite <- Hmem. split; apply Permutation_in;
      [ exact Hp | apply Permutation_sym; exact Hp ].
  - intros x Hx. apply Hin. apply (Permutation_in _ Hp). exact Hx.
  - intros x Hx. apply Hout. intros Hk. apply Hx.
    apply (Permutation_in _ (Permutation_sym Hp)). exact Hk.
  - intros Hne Hw.
    destruct (@save_leads_writes_table w tr'
                {| objs := o'; next_id := next_id s; leads := leads s |}
                filename Hw Hne) as (name & tr'' & Hsave & Hrows).
    exists name, tr''. split; [ exact Hsave | exact Hrows ].
Qed.

Lemma two_leads_not_empty : leads two_leads <> [].
Proof. cbn. discriminate. Defined.

Lemma filter_leaves_stored_leads_witness :
  exists q tr' s',
    run (filter_quality_leads ascii_lower [u "ai"])
        (world_of (plain_site 0 [])) ([], two_leads) = (Ok q, (tr', s')) /\
    leads s' = leads two_leads /\
    exists name tr'',
      run (save_leads_to_csv None) (world_of (plain_site 0 [])) (tr', s')
      = (Ok (Some name), (tr'', s')) /\
      rows_written tr''
      = rows_written tr' ++ header s' ::
          map (fun r => row_of (header s') (objs s' r)) (leads two_leads).
Proof.
  destruct (@filter_leaves_stored_leads ascii_lower [u "ai"]
              (world_of (plain_site 0 [])) [] two_leads None)
    as (q & tr' & s' & Hrun & Hl & _ & _ & _ & _ & Hsave).
  exists q, tr', s'. split; [ exact Hrun |]. split; [ exact Hl |].
  apply Hsave; [ apply two_leads_not_empty | apply plain_site_writable ].
Defined.

End Aggregator.

(* ===================================================================== *)
(** * Properties of the outreach templates *)
(* ===================================================================== *)

Module Outreach.
Import LeadScraper Notions Sites PyFacts.





Section Kwargs.
Variables name headline handle topic : pyval.

Let kwargs : dict pyval :=
  dict_of [ (u "name", name); (u "headline", headline);
            (u "handle", handle); (u "topic", topic) ].

Ltac render tpl :=
  unfold format, kwargs;
  let t := eval vm_compute in tpl in change tpl with t;
  eexists; cbv - [app str]; reflexivity.

Lemma default_renders : exists m, format template_default kwargs = Ok m.
Proof. render template_default. Qed.

Lemma linkedin_renders : exists m, format template_linkedin kwargs = Ok m.
Proof. render template_linkedin. Qed.

Lemma twitter_renders : exists m, format template_twitter kwargs = Ok m.
Proof. render template_twitter. Qed.

Lemma cold_email_renders : exists m, format template_cold_email kwargs = Ok m.
Proof. render template_cold_email. Qed.


End Kwargs.

(** The template chosen for a name: one of the four. *)
Lemma template_choice template :
  let t := get_default templates template template_default in
  t = template_default \/ t = template_linkedin \/
  t = template_twitter \/ t = template_cold_email.
Proof.
  change templates with [ (u "default", template_default);
                          (u "linkedin", template_linkedin);
                          (u "twitter", template_twitter);
                          (u "cold_email", template_cold_email) ].
  unfold get_default. cbn [dict_get].
  repeat (destruct (str_eqb _ template); [ auto |]).
  auto.
Qed.









Example outreach_unknown_template :
  generate_outreach_message [] (u "newsletter")
  = generate_outreach_message [ (u "name", VStr (u "there")) ] (u "default").
Proof. vm_compute. reflexivity. Qed.

End Outreach.

(* ===================================================================== *)
(** * The extraction runs *)
(* ===================================================================== *)

Module ScrapeFacts.
Import LeadScraper Notions PyFacts ObjFacts.

Lemma collected_start platform s tr : collected platform s 0 (tr, (s, [])).
Proof. repeat split; cbn; auto. Qed.

Lemma collected_weaken platform s0 k k' tr tr' sl :
  collected platform s0 k (tr, sl) -> k <= k' -> collected platform s0 k' (tr', sl).
Proof. unfold collected. cbn. intros (H1 & H2 & H3) Hk. repeat split; [ auto | lia | auto ]. Qed.

Lemma collected_push platform s0 k tr s l d :
  collected platform s0 k (tr, (s, l)) ->
  tagged platform d ->
  forall tr',
  collected platform s0 (Datatypes.S k)
    (tr', ({| objs := set_obj (objs s) (next_id s) d;
              next_id := Datatypes.S (next_id s);
              leads := leads s |}, l ++ [next_id s])).
Proof.
  unfold collected; cbn [fst snd objs next_id leads].
  intros (Hleads & Hlen & Hall) Hd tr'. split; [ exact Hleads |]. split.
  - rewrite length_app. cbn. lia.
  - apply Forall_app. split.
    + eapply Forall_impl; [| exact Hall ]. cbn beta. intros r [Hr Ht]. split; [ lia |].
      rewrite set_obj_other by lia. exact Ht.
    + constructor; [| constructor ]. split; [ lia |]. rewrite set_obj_same. exact Hd.
Qed.

Lemma kept_start platform s max tr : kept platform s max (tr, (s, [])).
Proof. repeat split; cbn; auto. intros; lia. Qed.

Lemma kept_of_collected platform s0 max k tr tr' sl :
  collected platform s0 k (tr, sl) ->
  ((0 <= max)%Z -> k <= Z.to_nat max) ->
  kept platform s0 max (tr', sl).
Proof.
  unfold collected, kept. cbn. intros (H1 & H2 & H3) Hk. split; [ exact H1 |]. split.
  - intros H. specialize (Hk H). lia.
  - eapply Forall_impl; [| exact H3 ]. cbn beta. tauto.
Qed.

Lemma kept_events platform s0 max tr tr' sl :
  kept platform s0 max (tr, sl) -> kept platform s0 max (tr', sl).
Proof. auto. Qed.

(** A step that reads a field: go on when it returns, and leave the rest
    to [tac] when it raises. *)
Ltac wp_call tac :=
  wp_step; wp_step;
  lazymatch goal with
  | |- match ?r with Ok _ => _ | Raised _ => _ end =>
      let a := fresh "a" in
      let e := fresh "e" in
      destruct r as [a | e]; [| tac ]
  end.

(** ** One container *)

Lemma twitter_tweet_collects hashtag tweet w s0 k cl :
  collected (u "twitter") s0 k cl ->
  wp (twitter_tweet hashtag tweet) w cl
     (fun o cl' => o = Ok tt /\ collected (u "twitter") s0 (Datatypes.S k) cl').
Proof.
  destruct cl as [tr [s l]]. intros H.
  assert (Hk : forall tr', collected (u "twitter") s0 (Datatypes.S k) (tr', (s, l))).
  { intros tr'. eapply collected_weaken; [ exact H | lia ]. }
  unfold twitter_tweet. wp_step.
  wp_call ltac:(wp_step; auto).
  wp_call ltac:(wp_step; auto).
  wp_step. wp_step. wp_step. wp_step. unfold new_dict.
  repeat wp_step. split; [ reflexivity |].
  eapply collected_push; [ exact H |].
  split; [ reflexivity | eexists; reflexivity ].
Qed.

Lemma linkedin_profile_collects profile w s0 k cl :
  collected (u "linkedin") s0 k cl ->
  wp (linkedin_profile profile) w cl
     (fun o cl' => o = Ok tt /\ collected (u "linkedin") s0 (Datatypes.S k) cl').
Proof.
  destruct cl as [tr [s l]]. intros H.
  assert (Hk : forall tr', collected (u "linkedin") s0 (Datatypes.S k) (tr', (s, l))).
  { intros tr'. eapply collected_weaken; [ exact H | lia ]. }
  unfold linkedin_profile. wp_step.
  wp_call ltac:(wp_step; auto).
  wp_call ltac:(wp_step; auto).
  wp_call ltac:(wp_step; auto).
  wp_call ltac:(wp_step; auto).
  wp_step. wp_step. wp_step. wp_step. unfold new_dict.
  repeat wp_step. split; [ reflexivity |].
  eapply collected_push; [ exact H |].
  split; [ reflexivity | eexists; reflexivity ].
Qed.

(** ** The loop over the containers *)

Lemma scrape_loop platform (body : locator -> M (scraper * list nat) unit)
    (xs : list locator) w s0 cl (Q : outcome unit -> _ -> Prop) :
  (forall x k cl0, collected platform s0 k cl0 ->
     wp (body x) w cl0
        (fun o cl' => o = Ok tt /\ collected platform s0 (Datatypes.S k) cl')) ->
  collected platform s0 0 cl ->
  (forall cl', collected platform s0 (length xs) cl' -> Q (Ok tt) cl') ->
  wp (for_each xs body) w cl Q.
Proof.
  intros Hbody H0 Hend.
  apply wp_for_each with (I := fun visited cl0 =>
                                 collected platform s0 (length visited) cl0).
  - exact H0.
  - intros visited x rest cl0 _ HI.
    eapply wp_mono; [ apply (Hbody x _ cl0 HI) |].
    cbn beta. intros o cl' [-> HI']. rewrite length_app, Nat.add_comm. exact HI'.
  - exact Hend.
Qed.

(** The scrolling changes neither the scraper nor the leads collected. *)
Lemma scroll_keeps (S : Type) n page w (c : config S) Q :
  (forall tr', Q (Ok tt) (tr', snd c)) ->
  (forall e tr', Q (Raised e) (tr', snd c)) ->
  wp (repeat_n n (perform (Evaluate page scroll_to_bottom);; sleep 2000)) w c Q.
Proof.
  intros Hok Hraise.
  apply wp_repeat_n with (I := fun c0 => snd c0 = snd c).
  - reflexivity.
  - intros [t0 s0] E. cbn [snd] in E. subst s0.
    wp_step. wp_step. destruct (respond w _ t0); [| apply Hraise ].
    wp_step. reflexivity.
  - intros [t0 s0] E. cbn [snd] in E. subst s0. apply Hok.
Qed.

(** ** The [try] blocks *)

Lemma slice_of_results_length max (f : nat -> locator) n :
  (0 <= max)%Z -> length (slice_to max (map f (seq 0 n))) <= Z.to_nat max.
Proof. apply slice_to_length. Qed.

Lemma twitter_try_keeps page hashtag max w tr s :
  wp (twitter_try page hashtag max) w (tr, (s, []))
     (fun _ cl => kept (u "twitter") s max cl).
Proof.
  unfold twitter_try. wp_step. wp_step.
  wp_call ltac:(apply kept_start).
  wp_step. wp_step. wp_step.
  apply scroll_keeps; cbn [snd]; [| intros; apply kept_start ]. intros tr1.
  wp_call ltac:(apply kept_start).
  wp_step.
  apply scrape_loop with (platform := u "twitter") (s0 := s).
  - intros x k cl0. apply twitter_tweet_collects.
  - apply collected_start.
  - intros [tr2 sl] Hc. repeat wp_step.
    eapply kept_of_collected; [ exact Hc |]. apply slice_of_results_length.
Qed.

Lemma linkedin_try_keeps page query max w tr s :
  wp (linkedin_try page query max) w (tr, (s, []))
     (fun o cl => kept (u "linkedin") s max cl /\
                  forall r, o = Ok (Some r) -> r = []).
Proof.
  assert (K : forall tr' (o : outcome (option (list nat))),
            (forall r, o <> Ok (Some r)) ->
            kept (u "linkedin") s max (tr', (s, [])) /\
            forall r, o = Ok (Some r) -> r = []).
  { intros tr' o Ho. split; [ apply kept_start |]. intros r E. destruct (Ho r E). }
  unfold linkedin_try. wp_step. wp_step. wp_step. wp_step. wp_step. wp_step.
  destruct (falsy _ || falsy _).
  { wp_step. wp_step. wp_step. split; [ apply kept_start |].
    intros r [= <-]. reflexivity. }
  wp_call ltac:(apply K; discriminate).
  wp_call ltac:(apply K; discriminate).
  wp_call ltac:(apply K; discriminate).
  wp_call ltac:(apply K; discriminate).
  wp_step. wp_step.
  wp_call ltac:(apply K; discriminate).
  wp_step. wp_step. wp_step.
  apply scroll_keeps; cbn [snd]; [| intros; apply K; discriminate ]. intros tr1.
  wp_call ltac:(apply K; discriminate).
  wp_step.
  apply scrape_loop with (platform := u "linkedin") (s0 := s).
  - intros x k cl0. apply linkedin_profile_collects.
  - apply collected_start.
  - intros [tr2 sl] Hc. repeat wp_step. split; [| discriminate ].
    eapply kept_of_collected; [ exact Hc |]. apply slice_of_results_length.
Qed.

(** ** The whole runs *)

Lemma scrape_twitter_leads_extracts hashtag max w tr s :
  wp (scrape_twitter_leads hashtag max) w (tr, s) (extracted (u "twitter") w s max).
Proof.
  unfold scrape_twitter_leads. wp_step. wp_step.
  destruct (respond w NewPage tr) as [page | e] eqn:Enew;
    [| left; eauto ].
  wp_step. wp_step. wp_step. wp_step.
  eapply wp_mono; [ apply twitter_try_keeps |]. cbn beta.
  assert (G : forall tr1 sl,
            kept (u "twitter") s max (tr1, sl) ->
            wp (perform (PageClose page)) w (tr1, sl)
               (fun o' cl'' =>
                  match o' with
                  | Ok _ =>
                      wp (leads <- get_local;; on_state (extend_leads leads);; ret leads)
                         w cl''
                         (fun o1 cl1 => extracted (u "twitter") w s max o1
                                          (fst cl1, fst (snd cl1)))
                  | Raised e0 =>
                      extracted (u "twitter") w s max (Raised e0)
                        (fst cl'', fst (snd cl''))
                  end)).
  { intros tr1 [s1 l1] (Hl & Hlen & Htag). cbn [fst snd] in *.
    wp_step. destruct (respond w (PageClose page) tr1) as [[] | e] eqn:Eclose;
      [| right; eauto ].
    unfold extend_leads. repeat wp_step. cbn.
    split; [ rewrite Hl; reflexivity |]. split; assumption. }
  intros [[] | e] [tr1 sl] Hk.
  - apply G. exact Hk.
  - wp_step. apply G. exact Hk.
Qed.

Lemma scrape_linkedin_leads_extracts query max w tr s :
  wp (scrape_linkedin_leads query max) w (tr, s) (extracted (u "linkedin") w s max).
Proof.
  unfold scrape_linkedin_leads. wp_step. wp_step.
  destruct (respond w NewPage tr) as [page | e] eqn:Enew;
    [| left; eauto ].
  wp_step. wp_step. wp_step. wp_step.
  eapply wp_mono; [ apply linkedin_try_keeps |]. cbn beta.
  assert (G : forall tr1 sl (r : option (list nat)),
            kept (u "linkedin") s max (tr1, sl) ->
            (forall l, r = Some l -> l = []) ->
            wp (perform (PageClose page)) w (tr1, sl)
               (fun o' cl'' =>
                  match o' with
                  | Ok _ =>
                      wp match r with
                         | Some early => ret early
                         | None =>
                             leads <- get_local;; on_state (extend_leads leads);;
                             ret leads
                         end
                         w cl''
                         (fun o1 cl1 => extracted (u "linkedin") w s max o1
                                          (fst cl1, fst (snd cl1)))
                  | Raised e0 =>
                      extracted (u "linkedin") w s max (Raised e0)
                        (fst cl'', fst (snd cl''))
                  end)).
  { intros tr1 [s1 l1] r (Hl & Hlen & Htag) Hr. cbn [fst snd] in *.
    wp_step. destruct (respond w (PageClose page) tr1) as [[] | e] eqn:Eclose;
      [| right; eauto ].
    destruct r as [early |].
    - rewrite (Hr early eq_refl). wp_step. cbn.
      split; [ rewrite app_nil_r; exact Hl |]. split; [ intros; lia | constructor ].
    - unfold extend_leads. repeat wp_step. cbn.
      split; [ rewrite Hl; reflexivity |]. split; assumption. }
  intros [r | e] [tr1 sl] [Hk Hr].
  - apply G; [ exact Hk |]. intros l ->. apply Hr. reflexivity.
  - wp_step. wp_step. apply G; [ exact Hk | discriminate ].
Qed.

End ScrapeFacts.

(* ===================================================================== *)
(** * Extraction when one container is malformed *)
(* ===================================================================== *)

Module SkipFacts.
Import LeadScraper Notions PyFacts ObjFacts.

(** A call that is known to return. *)
Ltac wp_returns H :=
  wp_step; wp_step;
  lazymatch goal with
  | |- match respond ?w ?o ?tr with Ok _ => _ | Raised _ => _ end =>
      let a := fresh "a" in
      let E := fresh "E" in
      let R := fresh "R" in
      assert (R : returns w o) by (apply H);
      destruct (R tr) as [a E]; rewrite E; clear E R; cbn beta iota
  end.

(** A call that is known to raise. *)
Ltac wp_raises H :=
  wp_step; wp_step;
  lazymatch goal with
  | |- match respond ?w ?o ?tr with Ok _ => _ | Raised _ => _ end =>
      let e := fresh "e" in
      let E := fresh "E" in
      let R := fresh "R" in
      assert (R : raises w o) by (apply H);
      destruct (R tr) as [e E]; rewrite E; clear E R; cbn beta iota
  end.

(** A call that may do either, when raising ends the attempt as wanted. *)
Ltac wp_either tac :=
  wp_step; wp_step;
  lazymatch goal with
  | |- match ?r with Ok _ => _ | Raised _ => _ end =>
      let a := fresh "a" in
      let e := fresh "e" in
      destruct r as [a | e]; [| tac ]
  end.

Lemma results_nth (f : nat -> locator) n visited x rest :
  map f (seq 0 n) = visited ++ x :: rest ->
  x = f (length visited) /\ length visited < n.
Proof.
  intros E.
  assert (Hlen : n = length visited + Datatypes.S (length rest)).
  { apply (f_equal (@length _)) in E.
    rewrite length_map, length_seq, length_app in E. cbn in E. exact E. }
  split; [| lia ].
  apply (f_equal (fun l => nth (length visited) l x)) in E.
  rewrite app_nth2, Nat.sub_diag in E by lia. cbn in E. rewrite <- E.
  rewrite nth_indep with (d' := f 0) by (rewrite length_map, length_seq; lia).
  rewrite map_nth, seq_nth by lia. reflexivity.
Qed.

(** The loop when every container but number [k] yields a lead. *)
Lemma count_loop (body : locator -> M (scraper * list nat) unit)
    (f : nat -> locator) n k w cl (Q : outcome unit -> _ -> Prop) :
  (forall i cl0, i < n -> i <> k ->
     wp (body (f i)) w cl0
        (fun o cl' => o = Ok tt /\ length (local cl') = Datatypes.S (length (local cl0)))) ->
  (forall cl0,
     wp (body (f k)) w cl0
        (fun o cl' => o = Ok tt /\ length (local cl') = length (local cl0))) ->
  k < n ->
  (forall cl', length (local cl') = length (local cl) + (n - 1) -> Q (Ok tt) cl') ->
  wp (for_each (map f (seq 0 n)) body) w cl Q.
Proof.
  intros Hgood Hbad Hk Hend.
  apply wp_for_each with
    (I := fun visited cl0 =>
            length (local cl0)
            = length (local cl)
              + (length visited - (if k <? length visited then 1 else 0))).
  - cbn [length]. destruct (k <? 0); lia.
  - intros visited x rest cl0 E HI.
    apply results_nth in E. destruct E as [-> Hlt].
    destruct (Nat.eq_dec (length visited) k) as [Ek | Nk].
    + rewrite Ek. eapply wp_mono; [ apply Hbad |]. cbn beta.
      intros o cl' [-> Hl]. rewrite Hl, HI, length_app. cbn [length].
      destruct (Nat.ltb_spec k (length visited)); [ lia |].
      destruct (Nat.ltb_spec k (length visited + 1)); lia.
    + eapply wp_mono; [ apply (Hgood _ cl0 Hlt Nk) |]. cbn beta.
      intros o cl' [-> Hl]. rewrite Hl, HI, length_app. cbn [length].
      destruct (Nat.ltb_spec k (length visited)),
               (Nat.ltb_spec k (length visited + 1)); lia.
  - intros cl' HI. apply Hend. rewrite HI, length_map, length_seq.
    destruct (Nat.ltb_spec k n); lia.
Qed.

(** ** One container *)

Lemma linkedin_profile_read profile w cl :
  profile_readable w profile ->
  wp (linkedin_profile profile) w cl
     (fun o cl' => o = Ok tt /\ length (local cl') = Datatypes.S (length (local cl))).
Proof.
  intros (H1 & H2 & H3 & H4). destruct cl as [tr [s l]].
  unfold profile_name, profile_headline, profile_location, profile_link in *.
  unfold linkedin_profile. wp_step.
  wp_returns H1. wp_returns H2. wp_returns H3. wp_returns H4.
  wp_step. wp_step. wp_step. wp_step. unfold new_dict.
  repeat wp_step. split; [ reflexivity |]. unfold local. cbn.
  rewrite length_app. cbn. lia.
Qed.

Lemma linkedin_profile_skipped profile w cl :
  profile_malformed w profile ->
  wp (linkedin_profile profile) w cl
     (fun o cl' => o = Ok tt /\ length (local cl') = length (local cl)).
Proof.
  destruct cl as [tr [s l]].
  unfold profile_malformed, profile_name, profile_headline, profile_location,
    profile_link.
  intros [H | [H | [H | H]]]; unfold linkedin_profile; wp_step.
  - wp_raises H. wp_step. auto.
  - wp_either ltac:(wp_step; auto). wp_raises H. wp_step. auto.
  - wp_either ltac:(wp_step; auto). wp_either ltac:(wp_step; auto).
    wp_raises H. wp_step. auto.
  - wp_either ltac:(wp_step; auto). wp_either ltac:(wp_step; auto).
    wp_either ltac:(wp_step; auto). wp_raises H. wp_step. auto.
Qed.

Lemma twitter_tweet_read hashtag tweet w cl :
  tweet_readable w tweet ->
  wp (twitter_tweet hashtag tweet) w cl
     (fun o cl' => o = Ok tt /\ length (local cl') = Datatypes.S (length (local cl))).
Proof.
  intros (H1 & H2). destruct cl as [tr [s l]].
  unfold tweet_user, tweet_text in *.
  unfold twitter_tweet. wp_step.
  wp_returns H1. wp_returns H2.
  wp_step. wp_step. wp_step. wp_step. unfold new_dict.
  repeat wp_step. split; [ reflexivity |]. unfold local. cbn.
  rewrite length_app. cbn. lia.
Qed.

Lemma twitter_tweet_skipped hashtag tweet w cl :
  tweet_malformed w tweet ->
  wp (twitter_tweet hashtag tweet) w cl
     (fun o cl' => o = Ok tt /\ length (local cl') = length (local cl)).
Proof.
  destruct cl as [tr [s l]].
  unfold tweet_malformed, tweet_user, tweet_text.
  intros [H | H]; unfold twitter_tweet; wp_step.
  - wp_raises H. wp_step. auto.
  - wp_either ltac:(wp_step; auto). wp_raises H. wp_step. auto.
Qed.

(** The scrolling goes through when the page can be scripted. *)
Lemma scroll_passes (S : Type) n page w (c : config S) Q :
  (forall p js, returns w (Evaluate p js)) ->
  (forall tr', Q (Ok tt) (tr', snd c)) ->
  wp (repeat_n n (perform (Evaluate page scroll_to_bottom);; sleep 2000)) w c Q.
Proof.
  intros Hev Hok.
  apply wp_repeat_n with (I := fun c0 => snd c0 = snd c).
  - reflexivity.
  - intros [t0 s0] E. cbn [snd] in E. subst s0.
    wp_returns Hev. wp_step. reflexivity.
  - intros [t0 s0] E. cbn [snd] in E. subst s0. apply Hok.
Qed.

(** ** The whole runs *)

Section OneMalformed.
Variable w : world.
Variables n k : nat.
Variable max : Z.
Hypothesis within_cap : (Z.of_nat n <= max)%Z.
Hypothesis browser : healthy_browser w.
Hypothesis nav : navigable w.

Lemma scrape_twitter_leads_skips hashtag tr s :
  one_malformed tweet_readable tweet_malformed w twitter_results n k ->
  wp (scrape_twitter_leads hashtag max) w (tr, s)
     (fun o _ => exists r, o = Ok r /\ length r = n - 1).
Proof.
  intros (Hall & Hk & Hfields).
  destruct browser as [Hnew Hclose]. destruct nav as (Hgoto & Hfill & Hclick & Hev).
  unfold scrape_twitter_leads.
  wp_returns Hnew. rename a into page.
  wp_step. wp_step. wp_step. wp_step.
  unfold twitter_try. wp_step. wp_step.
  wp_returns Hgoto. wp_step. wp_step. wp_step.
  apply scroll_passes; [ exact Hev |]. cbn [snd]. intros tr1.
  wp_step. wp_step. rewrite Hall. cbn beta iota. wp_step.
  rewrite slice_to_all by (rewrite length_map, length_seq; exact within_cap).
  apply count_loop with (k := k).
  - intros i cl0 Hi Hik. apply twitter_tweet_read.
    specialize (Hfields page i Hi).
    destruct (Nat.eqb_spec i k); [ contradiction | exact Hfields ].
  - intros cl0. apply twitter_tweet_skipped.
    specialize (Hfields page k Hk). rewrite Nat.eqb_refl in Hfields. exact Hfields.
  - exact Hk.
  - intros [tr2 [s2 l2]]. unfold local. cbn [fst snd length]. intros Hlen.
    wp_step. wp_step. wp_step.
    wp_step.
    lazymatch goal with
    | |- context [ respond w (PageClose page) ?t ] =>
        destruct (Hclose page t) as [[] E]; rewrite E; clear E; cbn beta iota
    end.
    unfold extend_leads. repeat wp_step. eauto.
Qed.

Lemma scrape_linkedin_leads_skips query tr s :
  falsy (getenv w (u "LINKEDIN_EMAIL")) || falsy (getenv w (u "LINKEDIN_PASSWORD"))
  = false ->
  one_malformed profile_readable profile_malformed w linkedin_results n k ->
  wp (scrape_linkedin_leads query max) w (tr, s)
     (fun o _ => exists r, o = Ok r /\ length r = n - 1).
Proof.
  intros Hcred (Hall & Hk & Hfields).
  destruct browser as [Hnew Hclose]. destruct nav as (Hgoto & Hfill & Hclick & Hev).
  unfold scrape_linkedin_leads.
  wp_returns Hnew. rename a into page.
  wp_step. wp_step. wp_step. wp_step.
  unfold linkedin_try. wp_step. wp_step. wp_step. wp_step. wp_step. wp_step.
  rewrite Hcred.
  wp_returns Hgoto. wp_returns Hfill. wp_returns Hfill. wp_returns Hclick.
  wp_step. wp_step. wp_returns Hgoto. wp_step. wp_step. wp_step.
  apply scroll_passes; [ exact Hev |]. cbn [snd]. intros tr1.
  wp_step. wp_step. rewrite Hall. cbn beta iota. wp_step.
  rewrite slice_to_all by (rewrite length_map, length_seq; exact within_cap).
  apply count_loop with (k := k).
  - intros i cl0 Hi Hik. apply linkedin_profile_read.
    specialize (Hfields page i Hi).
    destruct (Nat.eqb_spec i k); [ contradiction | exact Hfields ].
  - intros cl0. apply linkedin_profile_skipped.
    specialize (Hfields page k Hk). rewrite Nat.eqb_refl in Hfields. exact Hfields.
  - exact Hk.
  - intros [tr2 [s2 l2]]. unfold local. cbn [fst snd length]. intros Hlen.
    wp_step. wp_step. wp_step. wp_step. wp_step.
    wp_step.
    lazymatch goal with
    | |- context [ respond w (PageClose page) ?t ] =>
        destruct (Hclose page t) as [[] E]; rewrite E; clear E; cbn beta iota
    end.
    unfold extend_leads. repeat wp_step. eauto.
Qed.

End OneMalformed.

End SkipFacts.

(* ===================================================================== *)
(** * Extraction when navigation fails or credentials are missing *)
(* ===================================================================== *)

Module StopFacts.
Import LeadScraper Notions PyFacts ObjFacts.
Import SkipFacts.




Lemma scrape_linkedin_leads_anonymous query max w tr s :
  no_linkedin_credentials w ->
  wp (scrape_linkedin_leads query max) w (tr, s)
     (fun o c' =>
        snd c' = s /\
        (exists added, fst c' = added ++ tr /\ quiet added = true) /\
        (o = Ok [] \/ exists e, o = Raised e /\ lifecycle_error w e)).
Proof.
  unfold no_linkedin_credentials. intros Hcred. unfold scrape_linkedin_leads.
  wp_step. wp_step.
  destruct (respond w NewPage tr) as [page | e] eqn:Enew.
  - wp_step. wp_step. wp_step. wp_step.
    unfold linkedin_try. wp_step. wp_step. wp_step. wp_step. wp_step. wp_step.
    rewrite Hcred. wp_step. wp_step. wp_step. wp_step.
    lazymatch goal with
    | |- context [ respond w (PageClose page) ?t ] =>
        destruct (respond w (PageClose page) t) as [[] | e] eqn:Eclose
    end.
    + wp_step. split; [ reflexivity |]. split; [| auto ].
      eexists [_; _; _; _]. split; reflexivity.
    + split; [ reflexivity |]. split.
      * eexists [_; _; _; _]. split; reflexivity.
      * right. exists e. split; [ reflexivity | right; eauto ].
  - split; [ reflexivity |]. split.
    + exists [Call NewPage]. split; reflexivity.
    + right. exists e. split; [ reflexivity | left; eauto ].
Qed.

End StopFacts.

(* ===================================================================== *)
(** * Properties of the extraction runs *)
(* ===================================================================== *)

Module Extraction.
Import LeadScraper Notions Sites PyFacts ObjFacts.
Import ScrapeFacts SkipFacts StopFacts.

(** ** The example sites *)

Lemma site_healthy st p : new_page st = Ok p -> healthy_browser (world_of st).
Proof.
  intros H. split.
  - intros tr. exists p. exact H.
  - intros q tr. exists tt. reflexivity.
Defined.

Lemma site_navigable st :
  (forall url, goto st url = Ok tt) -> navigable (world_of st).
Proof.
  intros H. repeat split; intros; intros tr; exists tt; cbn; auto.
Defined.


Lemma broken_profile n k text :
  k < n ->
  one_malformed profile_readable profile_malformed
    (world_of (site_with_broken n k text)) linkedin_results n k.
Proof.
  intros Hk. split; [ reflexivity |]. split; [ exact Hk |].
  intros p i Hi. destruct (Nat.eqb i k) eqn:E.
  - left. intros tr. exists timeout. cbn. rewrite E. reflexivity.
  - repeat split; intros tr; cbn; rewrite ?E; eauto.
Defined.

Lemma broken_tweet n k text :
  k < n ->
  one_malformed tweet_readable tweet_malformed
    (world_of (site_with_broken n k text)) twitter_results n k.
Proof.
  intros Hk. split; [ reflexivity |]. split; [ exact Hk |].
  intros p i Hi. destruct (Nat.eqb i k) eqn:E.
  - left. intros tr. exists timeout. cbn. rewrite E. reflexivity.
  - repeat split; intros tr; cbn; rewrite ?E; eauto.
Defined.

(** ** C1 *)

(** C1, as amended. For a cap that is not negative, an extraction run
    returns at most [max_results] leads, each carrying the platform of the
    run and a name, which may be empty; when it does not return, the
    error was raised by opening or closing the page. *)
Theorem scraped_leads_are_capped_and_tagged :
  forall (w : world) (tr : list event) (s : scraper) (text : pystr) (max : Z),
    (0 <= max)%Z ->
    match run (scrape_linkedin_leads text max) w (tr, s) with
    | (Ok r, c') =>
        (Z.of_nat (length r) <= max)%Z /\
        Forall (fun x => tagged (u "linkedin") (objs (snd c') x)) r
    | (Raised e, _) => lifecycle_error w e
    end /\
    match run (scrape_twitter_leads text max) w (tr, s) with
    | (Ok r, c') =>
        (Z.of_nat (length r) <= max)%Z /\
        Forall (fun x => tagged (u "twitter") (objs (snd c') x)) r
    | (Raised e, _) => lifecycle_error w e
    end.
Proof.
  intros w tr s text max Hmax. split.
  - pose proof (scrape_linkedin_leads_extracts text max w tr s) as H.
    unfold wp, extracted in H. unfold run.
    destruct (scrape_linkedin_leads text max w (tr, s)) as [[r | e] c'];
      cbn [fst snd] in H; [| exact H ].
    destruct H as (_ & Hlen & Htag). split; [| exact Htag ].
    specialize (Hlen Hmax). lia.
  - pose proof (scrape_twitter_leads_extracts text max w tr s) as H.
    unfold wp, extracted in H. unfold run.
    destruct (scrape_twitter_leads text max w (tr, s)) as [[r | e] c'];
      cbn [fst snd] in H; [| exact H ].
    destruct H as (_ & Hlen & Htag). split; [| exact Htag ].
    specialize (Hlen Hmax). lia.
Qed.

Lemma scraped_leads_witness :
  match run (scrape_linkedin_leads (u "manager") 2)
            (world_of (plain_site 5 (u "Ada"))) ([], fresh) with
  | (Ok r, c') =>
      (Z.of_nat (length r) <= 2)%Z /\
      Forall (fun x => tagged (u "linkedin") (objs (snd c') x)) r
  | (Raised e, _) => lifecycle_error (world_of (plain_site 5 (u "Ada"))) e
  end /\
  match run (scrape_twitter_leads (u "manager") 2)
            (world_of (plain_site 5 (u "Ada"))) ([], fresh) with
  | (Ok r, c') =>
      (Z.of_nat (length r) <= 2)%Z /\
      Forall (fun x => tagged (u "twitter") (objs (snd c') x)) r
  | (Raised e, _) => lifecycle_error (world_of (plain_site 5 (u "Ada"))) e
  end.
Proof.
  apply (@scraped_leads_are_capped_and_tagged
           (world_of (plain_site 5 (u "Ada"))) [] fresh (u "manager") 2).
  lia.
Defined.

(** C1 as stated fails twice.  With [max_results = -1] and three tweets on
    the page the run returns two leads; and a result whose name is blank
    yields a lead with an empty name. *)
Lemma scrape_exceeds_negative_cap_and_keeps_empty_names :
  (exists r c',
     run (scrape_twitter_leads (u "#ai") (-1))
         (world_of (plain_site 3 (u "Ada"))) ([], fresh) = (Ok r, c') /\
     length r = 2 /\ ~ (Z.of_nat (length r) <= -1)%Z) /\
  (exists c',
     run (scrape_linkedin_leads (u "manager") 50)
         (world_of (plain_site 1 (u "   "))) ([], fresh) = (Ok [0], c') /\
     identity (objs (snd c') 0) = [] /\
     ~ spec_well_formed (u "linkedin") (objs (snd c') 0)).
Proof.
  split.
  - do 2 eexists. split; [ vm_compute; reflexivity |]. split; [ reflexivity |].
    cbn. lia.
  - eexists. split; [ vm_compute; reflexivity |]. split; [ reflexivity |].
    intros [_ H]. apply H. reflexivity.
Qed.

(** ** C2 *)

(** C2, as amended. When the page shows [n] containers, no more than
    [max_results], of which exactly one has a field that cannot be read,
    the run returns the [n - 1] other leads and appends them to
    [self.leads]: the malformed container is skipped and the loop goes
    on. *)
Theorem one_malformed_container_is_skipped :
  forall (w : world) (n k : nat) (max : Z) (text : pystr)
         (tr : list event) (s : scraper),
    (Z.of_nat n <= max)%Z ->
    healthy_browser w ->
    navigable w ->
    (falsy (getenv w (u "LINKEDIN_EMAIL"))
     || falsy (getenv w (u "LINKEDIN_PASSWORD")) = false ->
     one_malformed profile_readable profile_malformed w linkedin_results n k ->
     exists r c',
       run (scrape_linkedin_leads text max) w (tr, s) = (Ok r, c') /\
       length r = n - 1 /\
       leads (snd c') = leads s ++ r) /\
    (one_malformed tweet_readable tweet_malformed w twitter_results n k ->
     exists r c',
       run (scrape_twitter_leads text max) w (tr, s) = (Ok r, c') /\
       length r = n - 1 /\
       leads (snd c') = leads s ++ r).
Proof.
  intros w n k max text tr s Hcap Hb Hn. split.
  - intros Hcred Hone.
    pose proof (@scrape_linkedin_leads_skips w n k max Hcap Hb Hn text tr s Hcred Hone)
      as H1.
    pose proof (scrape_linkedin_leads_extracts text max w tr s) as H2.
    unfold wp, extracted in H1, H2. unfold run.
    destruct (scrape_linkedin_leads text max w (tr, s)) as [o c'].
    cbn [fst snd] in H1, H2. destruct H1 as (r & -> & Hlen).
    exists r, c'. split; [ reflexivity |]. split; [ exact Hlen | apply H2 ].
  - intros Hone.
    pose proof (@scrape_twitter_leads_skips w n k max Hcap Hb Hn text tr s Hone) as H1.
    pose proof (scrape_twitter_leads_extracts text max w tr s) as H2.
    unfold wp, extracted in H1, H2. unfold run.
    destruct (scrape_twitter_leads text max w (tr, s)) as [o c'].
    cbn [fst snd] in H1, H2. destruct H1 as (r & -> & Hlen).
    exists r, c'. split; [ reflexivity |]. split; [ exact Hlen | apply H2 ].
Qed.

Lemma ten_lt : 3 < 10.
Proof. lia. Defined.

Lemma one_malformed_witness :
  (exists r c',
     run (scrape_linkedin_leads (u "manager") 50)
         (world_of (site_with_broken 10 3 (u "Ada"))) ([], fresh) = (Ok r, c') /\
     length r = 10 - 1 /\
     leads (snd c') = leads fresh ++ r) /\
  (exists r c',
     run (scrape_twitter_leads (u "manager") 50)
         (world_of (site_with_broken 10 3 (u "Ada"))) ([], fresh) = (Ok r, c') /\
     length r = 10 - 1 /\
     leads (snd c') = leads fresh ++ r).
Proof.
  destruct (@one_malformed_container_is_skipped
              (world_of (site_with_broken 10 3 (u "Ada"))) 10 3 50 (u "manager")
              [] fresh) as [H1 H2].
  - lia.
  - apply (@site_healthy _ 1). reflexivity.
  - apply site_navigable. reflexivity.
  - split.
    + apply H1; [ reflexivity | apply broken_profile, ten_lt ].
    + apply H2. apply broken_tweet, ten_lt.
Defined.

(** C2 as stated fails when the cap is smaller than the number of
    containers: of three tweets, the first malformed, a run capped at two
    returns one lead, not two. *)
Lemma malformed_container_counts_towards_cap :
  one_malformed tweet_readable tweet_malformed
    (world_of (site_with_broken 3 0 (u "Ada"))) twitter_results 3 0 /\
  exists r c',
    run (scrape_twitter_leads (u "#ai") 2)
        (world_of (site_with_broken 3 0 (u "Ada"))) ([], fresh) = (Ok r, c') /\
    length r = 1 /\ length r <> 3 - 1.
Proof.
  split.
  - apply broken_tweet. lia.
  - do 2 eexists. split; [ vm_compute; reflexivity |]. split; [ reflexivity |].
    cbn. lia.
Qed.

(** ** C3 *)




End Extraction.

(* ===================================================================== *)
(** * The posting adapters *)
(* ===================================================================== *)

Module PostFacts.
Import SocialMedia Notions PyFacts SkipFacts.

Lemma wp_total (S A : Type) (m : M S A) w c (Q : outcome A -> config S -> Prop) :
  (forall o c', Q o c') -> wp m w c Q.
Proof. intros H. apply H. Qed.

(** Follow every path of a computation. *)
Ltac wp_branch :=
  lazymatch goal with
  | |- match ?r with Ok _ => _ | Raised _ => _ end => destruct r
  | |- wp (if ?b then _ else _) _ _ _ => destruct b
  | |- wp _ _ _ _ => apply wp_total; intros [? | ?] ?
  end.

Ltac wp_paths := repeat first [ wp_step | wp_branch ].

(** A path of an adapter ends in a result that reports, or in an
    exception for the handler. *)
Ltac reports_leaf :=
  cbn beta;
  let E := fresh "E" in
  intros ? E;
  first [ discriminate E | injection E as <-; eexists; reflexivity ].

Lemma failure_reports error : reports (failure error).
Proof. exists false. reflexivity. Qed.

(** A body guarded by [except Exception] that answers with a failure. *)
Lemma guarded_answers (body : M unit result) (h : exn -> M unit result) w c :
  wp body w c (fun o _ => forall r, o = Ok r -> reports r) ->
  (forall e c', wp (h e) w c' (fun o _ => answers o)) ->
  wp (try_except body h) w c (fun o _ => answers o).
Proof.
  intros Hbody Hh. apply wp_try_except.
  eapply wp_mono; [ exact Hbody |]. cbn beta.
  intros [r | e] c' H; [| apply Hh ].
  exists r. split; [ reflexivity | apply H; reflexivity ].
Qed.

Section AdapterFacts.
Variable str_json : json -> pystr.
Variable self : automation.
Variable w : world.

Lemma post_to_facebook_answers message image_url c :
  wp (post_to_facebook str_json self message image_url) w c (fun o _ => answers o).
Proof.
  unfold post_to_facebook. destruct (SocialMedia.falsy (meta_token self)).
  { wp_step. eexists. split; [ reflexivity | apply failure_reports ]. }
  apply guarded_answers.
  - wp_paths; reports_leaf.
  - intros e c'. wp_paths.
    eexists. split; [ reflexivity | apply failure_reports ].
Qed.

Lemma post_to_instagram_answers image_url caption c :
  wp (post_to_instagram str_json self image_url caption) w c (fun o _ => answers o).
Proof.
  unfold post_to_instagram. destruct (SocialMedia.falsy (meta_token self)).
  { wp_step. eexists. split; [ reflexivity | apply failure_reports ]. }
  apply guarded_answers.
  - wp_paths; reports_leaf.
  - intros e c'. wp_paths.
    eexists. split; [ reflexivity | apply failure_reports ].
Qed.

Hypothesis browser : healthy_browser w.

(** A page that is opened, used under [try ... except ... finally] and
    closed. *)
Lemma paged_answers (body : nat -> M unit result) (h : exn -> M unit result) c :
  (forall page c', wp (body page) w c' (fun o _ => forall r, o = Ok r -> reports r)) ->
  (forall e c', wp (h e) w c' (fun o _ => answers o)) ->
  wp (page <- perform NewPage;;
      try_finally (try_except (body page) h) (perform (PageClose page)))
     w c (fun o _ => answers o).
Proof.
  intros Hbody Hh. destruct browser as [Hnew Hclose].
  wp_returns Hnew. rename a into page.
  wp_step. eapply wp_mono; [ apply guarded_answers; [ apply Hbody | apply Hh ] |].
  cbn beta. intros o [t []] Ho.
  wp_step. destruct (Hclose page t) as [[] E]. rewrite E. exact Ho.
Qed.

Lemma post_to_linkedin_answers content image_path c :
  wp (post_to_linkedin self content image_path) w c (fun o _ => answers o).
Proof.
  unfold post_to_linkedin.
  destruct (SocialMedia.falsy (linkedin_email self)
            || SocialMedia.falsy (linkedin_password self)).
  { wp_step. eexists. split; [ reflexivity | apply failure_reports ]. }
  apply paged_answers.
  - intros page c'. wp_paths; reports_leaf.
  - intros e c'. wp_paths.
    eexists. split; [ reflexivity | apply failure_reports ].
Qed.

Lemma post_to_twitter_answers content image_path c :
  wp (post_to_twitter self content image_path) w c (fun o _ => answers o).
Proof.
  unfold post_to_twitter.
  destruct (SocialMedia.falsy (twitter_email self)
            || SocialMedia.falsy (twitter_password self)).
  { wp_step. eexists. split; [ reflexivity | apply failure_reports ]. }
  apply paged_answers.
  - intros page c'. wp_paths; reports_leaf.
  - intros e c'. wp_paths.
    eexists. split; [ reflexivity | apply failure_reports ].
Qed.

Lemma post_to_medium_answers title content tags c :
  wp (post_to_medium title content tags) w c (fun o _ => answers o).
Proof.
  unfold post_to_medium.
  apply paged_answers.
  - intros page c'. wp_paths; reports_leaf.
  - intros e c'. wp_paths.
    eexists. split; [ reflexivity | apply failure_reports ].
Qed.

End AdapterFacts.

End PostFacts.

(* ===================================================================== *)
(** * Properties of posting and of authentication *)
(* ===================================================================== *)

Module Posting.
Import SocialMedia Notions Sites PyFacts SkipFacts PostFacts StopFacts.

Section Stages.
Variable content : dict json.

Lemma stage_start : stage content [] [].
Proof. split; [ reflexivity | intros p r [=] ]. Qed.

Lemma stage_skip visited p results :
  truthy (requested content p) = false ->
  stage content visited results -> stage content (visited ++ [p]) results.
Proof.
  intros T [Hk Hr]. split; [| exact Hr ].
  rewrite filter_app. cbn. rewrite T, app_nil_r. exact Hk.
Qed.

Lemma stage_add visited p results r :
  truthy (requested content p) = true ->
  ~ In p visited ->
  stage content visited results -> reports r ->
  stage content (visited ++ [p]) (dict_set results p r).
Proof.
  intros T Hnew [Hk Hr] Hrep. split.
  - rewrite keys_dict_set, filter_app. cbn. rewrite T.
    destruct (has_key results p) eqn:E.
    + apply has_key_in in E. rewrite Hk in E. apply filter_In in E. tauto.
    + rewrite Hk. reflexivity.
  - intros q r'. destruct (str_eqb p q) eqn:E.
    + apply str_eqb_eq in E. subst q. rewrite dict_get_set_same.
      intros [= <-]. exact Hrep.
    + apply str_eqb_neq in E. rewrite dict_get_set_other by exact E. apply Hr.
Qed.

Hypothesis mappings : payloads_are_mappings content.

Lemma payload_is_mapping p :
  In p platforms -> truthy (requested content p) = true ->
  exists d, requested content p = JDict d.
Proof.
  intros Hp T. pose proof (@mappings p Hp) as Hm.
  destruct (requested content p); try contradiction; [ discriminate | eauto ].
Qed.

End Stages.

(** One platform of [post_to_all_platforms]: skipped, or posted to. *)
Ltac platform_block adapter_answers :=
  lazymatch goal with
  | Hst : stage ?content ?visited ?results |- wp (bind (if truthy (requested ?content ?p) then _ else _) _) _ _ _ =>
      apply wp_bind;
      eapply wp_mono with
        (P := fun o _ => exists results', o = Ok results' /\
                         stage content (visited ++ [p]) results');
      [ destruct (truthy (requested content p)) eqn:T;
        [ let d := fresh "d" in
          let E := fresh "E" in
          destruct (@payload_is_mapping content ltac:(assumption) p) as [d E];
          [ cbn; tauto | exact T | ];
          rewrite E; unfold field; cbn [json_get];
          repeat (wp_step; wp_step);
          wp_step;
          eapply wp_mono; [ apply adapter_answers |];
          cbn beta;
          let r := fresh "r" in
          let Hr := fresh "Hr" in
          intros ? ? (r & -> & Hr); wp_step;
          eexists; split; [ reflexivity |];
          apply stage_add;
          [ exact T
          | cbn; intros H; repeat (destruct H as [H | H]; [ vm_compute in H; discriminate H |]); exact H
          | exact Hst | exact Hr ]
        | wp_step; eexists; split; [ reflexivity |];
          apply stage_skip; [ exact T | exact Hst ] ]
      | cbn beta; clear Hst;
        let results' := fresh "results" in
        let Hst' := fresh "Hst" in
        intros ? ? (results' & -> & Hst'); cbn [app] in Hst' ]
  end.


Lemma two_platforms_mappings : payloads_are_mappings two_platforms.
Proof.
  intros p H. cbn in H.
  repeat (destruct H as [<- | H]; [ vm_compute; exact I |]). destruct H.
Defined.



(** C8, as amended. When the LinkedIn credentials are missing, no page
    is navigated.  [scrape_linkedin_leads] opens a page, logs the error,
    closes the page and returns the empty list, leaving the scraper as it
    was; it raises only what opening or closing the page raised.
    [post_to_linkedin], on an object built in that environment, opens no
    page and returns the result [{'success': False, 'error': 'LinkedIn
    credentials not set'}]. *)
Theorem missing_credentials_stop_before_navigation :
  forall (w : world),
    no_linkedin_credentials w ->
    (forall (text : pystr) (max : Z) (tr : list event) (s : LeadScraper.scraper),
       snd (snd (run (LeadScraper.scrape_linkedin_leads text max) w (tr, s))) = s /\
       (exists added,
          fst (snd (run (LeadScraper.scrape_linkedin_leads text max) w (tr, s)))
          = added ++ tr /\ quiet added = true) /\
       (fst (run (LeadScraper.scrape_linkedin_leads text max) w (tr, s)) = Ok [] \/
        exists e,
          fst (run (LeadScraper.scrape_linkedin_leads text max) w (tr, s)) = Raised e /\
          lifecycle_error w e)) /\
    (forall (self : automation) (content image_path : json) (c c1 : config unit),
       run init w c = (Ok self, c1) ->
       run (post_to_linkedin self content image_path) w c1
       = (Ok (failure (JStr (u "LinkedIn credentials not set"))), c1)).
Proof.
  intros w Hcred. split.
  - intros text max tr s.
    exact (@scrape_linkedin_leads_anonymous text max w tr s Hcred).
  - intros self content image_path c c1 Hinit.
    unfold run, init, bind, os_getenv, ret in Hinit. injection Hinit as <- <-.
    unfold run, post_to_linkedin. cbn [linkedin_email linkedin_password].
    unfold no_linkedin_credentials in Hcred. unfold falsy. rewrite Hcred. reflexivity.
Qed.

Lemma anonymous_site_has_no_credentials n text :
  no_linkedin_credentials (world_of (anonymous_site n text)).
Proof. reflexivity. Defined.

Lemma missing_credentials_witness :
  (forall (text : pystr) (max : Z) (tr : list event) (s : LeadScraper.scraper),
     snd (snd (run (LeadScraper.scrape_linkedin_leads text max)
                   (world_of (anonymous_site 3 (u "Ada"))) (tr, s))) = s /\
     (exists added,
        fst (snd (run (LeadScraper.scrape_linkedin_leads text max)
                      (world_of (anonymous_site 3 (u "Ada"))) (tr, s)))
        = added ++ tr /\ quiet added = true) /\
     (fst (run (LeadScraper.scrape_linkedin_leads text max)
               (world_of (anonymous_site 3 (u "Ada"))) (tr, s)) = Ok [] \/
      exists e,
        fst (run (LeadScraper.scrape_linkedin_leads text max)
                 (world_of (anonymous_site 3 (u "Ada"))) (tr, s)) = Raised e /\
        lifecycle_error (world_of (anonymous_site 3 (u "Ada"))) e)) /\
  (forall (self : automation) (content image_path : json) (c c1 : config unit),
     run init (world_of (anonymous_site 3 (u "Ada"))) c = (Ok self, c1) ->
     run (post_to_linkedin self content image_path)
         (world_of (anonymous_site 3 (u "Ada"))) c1
     = (Ok (failure (JStr (u "LinkedIn credentials not set"))), c1)).
Proof.
  apply (@missing_credentials_stop_before_navigation
           (world_of (anonymous_site 3 (u "Ada")))).
  apply anonymous_site_has_no_credentials.
Defined.

(** C8 as stated fails for the scraper: without credentials it neither
    returns nor raises an error, it returns the empty list, which is also
    what a search without results returns. *)
Lemma missing_credentials_return_an_empty_list :
  no_linkedin_credentials (world_of (anonymous_site 3 (u "Ada"))) /\
  fst (run (LeadScraper.scrape_linkedin_leads (u "manager") 50)
           (world_of (anonymous_site 3 (u "Ada"))) ([], fresh)) = Ok [] /\
  fst (run (LeadScraper.scrape_linkedin_leads (u "manager") 50)
           (world_of (plain_site 0 [])) ([], fresh)) = Ok [] /\
  forall e,
    fst (run (LeadScraper.scrape_linkedin_leads (u "manager") 50)
             (world_of (anonymous_site 3 (u "Ada"))) ([], fresh)) <> Raised e.
Proof.
  split; [ reflexivity |]. split; [ vm_compute; reflexivity |].
  split; [ vm_compute; reflexivity |]. intros e. vm_compute. discriminate.
Qed.

End Posting.

(* ===================================================================== *)
(** * What runs add to the events *)
(* ===================================================================== *)

Module EmitFacts.
Import LeadScraper Notions Conduct.

Lemma grew_refl ok tr : grew ok tr tr.
Proof. exists []. split; reflexivity. Qed.

Lemma grew_cons ok ev tr t : ok ev = true -> grew ok tr t -> grew ok tr (ev :: t).
Proof.
  intros H (added & -> & Ha). exists (ev :: added).
  split; [ reflexivity |]. cbn [forallb]. rewrite H. exact Ha.
Qed.

Lemma grew_trans ok a b c : grew ok a b -> grew ok b c -> grew ok a c.
Proof.
  intros (x & -> & Hx) (y & -> & Hy). exists (y ++ x).
  split; [ apply app_assoc |]. rewrite forallb_app, Hx, Hy. reflexivity.
Qed.

Lemma grew_weaken (ok ok' : event -> bool) a b :
  (forall ev, ok ev = true -> ok' ev = true) -> grew ok a b -> grew ok' a b.
Proof.
  intros H (x & -> & Hx). exists x. split; [ reflexivity |].
  rewrite forallb_forall in *. auto.
Qed.

Section Emits.
Variable ok : event -> bool.
Context {S : Type}.

Lemma emits_ret (A : Type) (a : A) : emits ok (ret (S := S) a).
Proof. intros w c. apply grew_refl. Qed.

Lemma emits_raise (A : Type) (e : exn) : emits ok (raise (S := S) (A := A) e).
Proof. intros w c. apply grew_refl. Qed.

Lemma emits_lift (A : Type) (o : outcome A) : emits ok (lift_outcome (S := S) o).
Proof. intros w c. apply grew_refl. Qed.

Lemma emits_getenv name : emits ok (os_getenv (S := S) name).
Proof. intros w c. apply grew_refl. Qed.

Lemma emits_now : emits ok (now (S := S)).
Proof. intros w c. apply grew_refl. Qed.

Lemma emits_now_strftime : emits ok (now_strftime (S := S)).
Proof. intros w c. apply grew_refl. Qed.

Lemma emits_get : emits ok (get (S := S)).
Proof. intros w c. apply grew_refl. Qed.

Lemma emits_put (s : S) : emits ok (put s).
Proof. intros w c. apply grew_refl. Qed.

Lemma emits_perform (R : Type) (o : io R) :
  ok (Call o) = true -> emits ok (perform (S := S) o).
Proof. intros H w c. apply grew_cons; [ exact H | apply grew_refl ]. Qed.

Lemma emits_log lvl msg : ok (Log lvl msg) = true -> emits ok (log (S := S) lvl msg).
Proof. intros H w c. apply grew_cons; [ exact H | apply grew_refl ]. Qed.

Lemma emits_sleep ms : ok (Sleep ms) = true -> emits ok (sleep (S := S) ms).
Proof. intros H w c. apply grew_cons; [ exact H | apply grew_refl ]. Qed.

Lemma emits_bind (A B : Type) (m : M S A) (k : A -> M S B) :
  emits ok m -> (forall a, emits ok (k a)) -> emits ok (bind m k).
Proof.
  intros Hm Hk w c. unfold bind. specialize (Hm w c).
  destruct (m w c) as [[a | e] c']; cbn [fst snd] in *; [| exact Hm ].
  eapply grew_trans; [ exact Hm | apply Hk ].
Qed.

Lemma emits_try_except (A : Type) (m : M S A) (h : exn -> M S A) :
  emits ok m -> (forall e, emits ok (h e)) -> emits ok (try_except m h).
Proof.
  intros Hm Hh w c. unfold try_except. specialize (Hm w c).
  destruct (m w c) as [[a | e] c']; cbn [fst snd] in *; [ exact Hm |].
  eapply grew_trans; [ exact Hm | apply Hh ].
Qed.

Lemma emits_try_finally (A : Type) (m : M S A) (f : M S unit) :
  emits ok m -> emits ok f -> emits ok (try_finally m f).
Proof.
  intros Hm Hf w c. unfold try_finally. specialize (Hm w c).
  destruct (m w c) as [o c']; cbn [fst snd] in *.
  specialize (Hf w c'). destruct (f w c') as [[[] | e] c'']; cbn [fst snd] in *;
    eapply grew_trans; eassumption.
Qed.

Lemma emits_for_each (X : Type) (xs : list X) (body : X -> M S unit) :
  (forall x, emits ok (body x)) -> emits ok (for_each xs body).
Proof.
  intros H. induction xs as [| x xs IH]; cbn [for_each].
  - apply emits_ret.
  - apply emits_bind; [ apply H | intros _; exact IH ].
Qed.

Lemma emits_repeat_n (n : nat) (body : M S unit) :
  emits ok body -> emits ok (repeat_n n body).
Proof.
  intros H. induction n as [| n IH]; cbn [repeat_n].
  - apply emits_ret.
  - apply emits_bind; [ exact H | intros _; exact IH ].
Qed.

Lemma emits_with_local (L A : Type) (init : L) (m : M (S * L) A) :
  emits ok m -> emits ok (with_local init m).
Proof.
  intros H w c. unfold with_local. specialize (H w (fst c, (snd c, init))).
  destruct (m w (fst c, (snd c, init))) as [o [t [s l]]]. exact H.
Qed.

Lemma emits_get_local (L : Type) : emits ok (get_local (S := S) (L := L)).
Proof. intros w c. apply grew_refl. Qed.

Lemma emits_set_local (L : Type) (l : L) : emits ok (set_local (S := S) l).
Proof. intros w c. apply grew_refl. Qed.

Lemma emits_on_state (L A : Type) (m : M S A) :
  emits ok m -> emits ok (on_state (L := L) m).
Proof.
  intros H w c. unfold on_state. specialize (H w (fst c, fst (snd c))).
  destruct (m w (fst c, fst (snd c))) as [o [t s]]. exact H.
Qed.

(** What [emits] says about a run. *)
Lemma emits_wp (A : Type) (m : M S A) w c (Q : outcome A -> config S -> Prop) :
  emits ok m ->
  (forall o c', grew ok (fst c) (fst c') -> Q o c') ->
  wp m w c Q.
Proof. intros H HQ. apply HQ, H. Qed.

End Emits.

(** Follow the structure of a computation; what is left is to check the
    events it adds. *)
Ltac emit_step :=
  lazymatch goal with
  | |- emits _ (bind _ _) => apply emits_bind; [| intros ? ]
  | |- emits _ (ret _) => apply emits_ret
  | |- emits _ (raise _) => apply emits_raise
  | |- emits _ (lift_outcome _) => apply emits_lift
  | |- emits _ (os_getenv _) => apply emits_getenv
  | |- emits _ now => apply emits_now
  | |- emits _ now_strftime => apply emits_now_strftime
  | |- emits _ get => apply emits_get
  | |- emits _ (put _) => apply emits_put
  | |- emits _ get_local => apply emits_get_local
  | |- emits _ (set_local _) => apply emits_set_local
  | |- emits _ (on_state _) => apply emits_on_state
  | |- emits _ (with_local _ _) => apply emits_with_local
  | |- emits _ (try_except _ _) => apply emits_try_except; [| intros ? ]
  | |- emits _ (try_finally _ _) => apply emits_try_finally
  | |- emits _ (for_each _ _) => apply emits_for_each; intros ?
  | |- emits _ (repeat_n _ _) => apply emits_repeat_n
  | |- emits _ (perform _) => apply emits_perform; vm_compute; reflexivity
  | |- emits _ (log _ _) => apply emits_log; reflexivity
  | |- emits _ (sleep _) => apply emits_sleep; reflexivity
  | |- emits _ (if ?b then _ else _) => destruct b
  | |- emits _ (match ?x with _ => _ end) => destruct x
  end.

Ltac emit := repeat emit_step.

(** ** The scrapers and the adapters *)

Lemma new_dict_emits ok d : emits ok (new_dict d).
Proof. unfold new_dict. emit. Qed.

Lemma extend_leads_emits ok new : emits ok (extend_leads new).
Proof. unfold extend_leads. emit. Qed.

End EmitFacts.

(* ===================================================================== *)
(** * Pages are closed, and runs stay on their site *)
(* ===================================================================== *)

Module PageFacts.
Import LeadScraper SocialMedia Notions Conduct EmitFacts.

Lemma silent_adds_nothing tr t : grew silent tr t -> t = tr.
Proof.
  intros ([| ev added] & -> & H); [ reflexivity | discriminate H ].
Qed.

(** A page that is opened, used under [try ... finally] and closed. *)
Lemma paged_closes (S A : Type) (body : nat -> M S A) :
  (forall page, emits calm (body page)) ->
  closes_its_page (page <- perform NewPage;;
                   try_finally (body page) (perform (PageClose page))).
Proof.
  intros Hbody w tr s.
  destruct (respond w NewPage tr) as [page | e] eqn:E;
    unfold run, bind, perform; cbn [fst snd]; rewrite E; [| reflexivity ].
  unfold try_finally. pose proof (Hbody page w (Call NewPage :: tr, s)) as H.
  destruct (body page w (Call NewPage :: tr, s)) as [o [t s']]. cbn [fst snd] in H.
  destruct H as (added & -> & Ha). exists added.
  unfold perform. cbn [fst snd].
  destruct (respond w (PageClose page) (added ++ Call NewPage :: tr)) as [[] | e];
    split; auto.
Qed.

(** The same in a scraper, which goes on to store what it gathered. *)
Lemma scraper_closes (A B : Type) (body : nat -> M (scraper * list nat) B)
    (rest : B -> M (scraper * list nat) A) :
  (forall page, emits calm (body page)) ->
  (forall b, emits silent (rest b)) ->
  closes_its_page (page <- perform NewPage;;
                   with_local []
                     (r <- try_finally (body page) (perform (PageClose page));;
                      rest r)).
Proof.
  intros Hbody Hrest w tr s.
  destruct (respond w NewPage tr) as [page | e] eqn:E;
    unfold run, bind, perform; cbn [fst snd]; rewrite E; [| reflexivity ].
  unfold with_local, try_finally. cbn [fst snd].
  pose proof (Hbody page w (Call NewPage :: tr, (s, []))) as H.
  destruct (body page w (Call NewPage :: tr, (s, []))) as [o [t sl]].
  cbn [fst snd] in H. destruct H as (added & -> & Ha). exists added.
  unfold perform. cbn [fst snd].
  destruct (respond w (PageClose page) (added ++ Call NewPage :: tr)) as [[] | e].
  - destruct o as [b | e].
    + pose proof (Hrest b w (Call (PageClose page) :: added ++ Call NewPage :: tr, sl))
        as H.
      destruct (rest b w _) as [o' [t' [s' l']]]. cbn [fst snd] in *.
      apply silent_adds_nothing in H. subst t'. auto.
    + destruct sl as [s' l']. cbn [fst snd]. auto.
  - destruct sl as [s' l']. cbn [fst snd]. auto.
Qed.

Lemma linkedin_try_calm page query max : emits calm (linkedin_try page query max).
Proof. unfold linkedin_try, linkedin_profile. emit; apply new_dict_emits. Qed.

Lemma twitter_try_calm page hashtag max : emits calm (twitter_try page hashtag max).
Proof. unfold twitter_try, twitter_tweet. emit; apply new_dict_emits. Qed.

Lemma facebook_try_calm page group_url : emits calm (facebook_try page group_url).
Proof. unfold facebook_try, facebook_post. emit; apply new_dict_emits. Qed.

End PageFacts.

Module Pages.
Import LeadScraper SocialMedia Notions Conduct EmitFacts PageFacts.

(** X1. Every scraping run closes the page it opened, on every path: in
    any world, when the page cannot be opened the run raises that error and
    does nothing else; otherwise the closing of that page is the last
    event of the run, whatever was raised in between, and no other page is
    opened or closed. *)
Theorem scrapers_close_their_page :
  (forall (search_query : pystr) (max_results : Z),
     closes_its_page (scrape_linkedin_leads search_query max_results)) /\
  (forall (hashtag : pystr) (max_results : Z),
     closes_its_page (scrape_twitter_leads hashtag max_results)) /\
  (forall (group_url : pystr), closes_its_page (scrape_facebook_groups group_url)).
Proof.
  split; [| split ].
  - intros q max. unfold scrape_linkedin_leads. apply scraper_closes.
    + intros page. apply emits_try_except; [ apply linkedin_try_calm |]. intros e. emit.
    + intros [early |]; emit. apply extend_leads_emits.
  - intros h max. unfold scrape_twitter_leads. apply scraper_closes.
    + intros page. apply emits_try_except; [ apply twitter_try_calm |]. intros e. emit.
    + intros []. emit. apply extend_leads_emits.
  - intros url. unfold scrape_facebook_groups. apply scraper_closes.
    + intros page. apply emits_try_except; [ apply facebook_try_calm |]. intros e. emit.
    + intros []. emit. apply extend_leads_emits.
Qed.

(** X2. The browser adapters close the page they opened, on every path.
    [post_to_medium] always opens a page; [post_to_linkedin] and
    [post_to_twitter] add no event at all when their credentials are
    missing, and otherwise open one page.  The closing of that page is
    the last event of the run, also when the post failed. *)
Theorem adapters_close_their_page :
  forall (self : automation),
    (forall (title content tags : json),
       closes_its_page (post_to_medium title content tags)) /\
    (forall (content image_path : json),
       if SocialMedia.falsy (linkedin_email self)
          || SocialMedia.falsy (linkedin_password self)
       then emits silent (post_to_linkedin self content image_path)
       else closes_its_page (post_to_linkedin self content image_path)) /\
    (forall (content image_path : json),
       if SocialMedia.falsy (twitter_email self)
          || SocialMedia.falsy (twitter_password self)
       then emits silent (post_to_twitter self content image_path)
       else closes_its_page (post_to_twitter self content image_path)).
Proof.
  intros self. split; [| split ].
  - intros title content tags. unfold post_to_medium. apply paged_closes.
    intros page. emit.
  - intros content image_path. unfold post_to_linkedin.
    destruct (SocialMedia.falsy (linkedin_email self)
              || SocialMedia.falsy (linkedin_password self)).
    + emit.
    + apply paged_closes. intros page. emit.
  - intros content image_path. unfold post_to_twitter.
    destruct (SocialMedia.falsy (twitter_email self)
              || SocialMedia.falsy (twitter_password self)).
    + emit.
    + apply paged_closes. intros page. emit.
Qed.

End Pages.

Module SiteFacts.
Import LeadScraper SocialMedia Notions Conduct EmitFacts.

Lemma starts_with_refl (s : pystr) : starts_with s s = true.
Proof. induction s as [| c s IH]; cbn; [ reflexivity |]. rewrite N.eqb_refl. exact IH. Qed.

Lemma find_ig_account_emits ok pages : emits ok (find_ig_account pages).
Proof.
  induction pages as [| page rest IH]; cbn [find_ig_account]; emit. exact IH.
Qed.

End SiteFacts.

Module Confinement.
Import LeadScraper SocialMedia Notions Conduct EmitFacts SiteFacts.

(** X3. Runs in the browser stay on the site they are for.  In any world,
    every navigation of the LinkedIn scraper and adapter goes to an
    address under https://www.linkedin.com/, whatever the search query;
    those of the Twitter scraper and adapter to one under
    https://twitter.com/; those of the Medium adapter to one under
    https://medium.com/; the Facebook scraper navigates to the group
    address it was given and nowhere else.  None of them makes an HTTP
    request or writes a file. *)
Theorem browser_runs_stay_on_their_site :
  (forall (search_query : pystr) (max_results : Z),
     emits (stays_on (u "https://www.linkedin.com/"))
           (scrape_linkedin_leads search_query max_results)) /\
  (forall (hashtag : pystr) (max_results : Z),
     emits (stays_on (u "https://twitter.com/"))
           (scrape_twitter_leads hashtag max_results)) /\
  (forall (group_url : pystr),
     emits (stays_on group_url) (scrape_facebook_groups group_url)) /\
  (forall (self : automation) (content image_path : json),
     emits (stays_on (u "https://www.linkedin.com/"))
           (post_to_linkedin self content image_path)) /\
  (forall (self : automation) (content image_path : json),
     emits (stays_on (u "https://twitter.com/"))
           (post_to_twitter self content image_path)) /\
  (forall (title content tags : json),
     emits (stays_on (u "https://medium.com/")) (post_to_medium title content tags)).
Proof.
  repeat split; intros.
  - unfold scrape_linkedin_leads, linkedin_try, linkedin_profile.
    emit; first [ apply new_dict_emits | apply extend_leads_emits ].
  - unfold scrape_twitter_leads, twitter_try, twitter_tweet.
    emit; first [ apply new_dict_emits | apply extend_leads_emits ].
  - unfold scrape_facebook_groups, facebook_try, facebook_post.
    emit; first [ apply new_dict_emits | apply extend_leads_emits | idtac ].
    apply emits_perform. cbn. apply starts_with_refl.
  - unfold post_to_linkedin. emit.
  - unfold post_to_twitter. emit.
  - unfold post_to_medium. emit.
Qed.

(** X4. The Meta adapters talk to the Graph API only.  In any world,
    whatever the replies, every request of [post_to_facebook] and of
    [post_to_instagram] goes to an address under
    https://graph.facebook.com/v18.0/, and they call nothing else:
    no page, no file. *)
Theorem meta_adapters_call_the_graph_api_only :
  forall (str_json : json -> pystr) (self : automation),
    (forall (message image_url : json),
       emits graph_only (post_to_facebook str_json self message image_url)) /\
    (forall (image_url caption : json),
       emits graph_only (post_to_instagram str_json self image_url caption)).
Proof.
  intros str_json self. split; intros.
  - unfold post_to_facebook. emit.
  - unfold post_to_instagram. emit; try apply find_ig_account_emits.
Qed.

End Confinement.

(* ===================================================================== *)
(** * What the scrapers gather *)
(* ===================================================================== *)

Module GatherFacts.
Import LeadScraper Notions Conduct PyFacts ObjFacts ScrapeFacts.

Section Gathering.
Variable P : lead -> Prop.
Variable s0 : scraper.

Lemma gathered_start tr : gathered P s0 0 (tr, (s0, [])).
Proof.
  unfold gathered. cbn [fst snd length].
  repeat split; auto; constructor.
Qed.

Lemma gathered_weaken k k' tr tr' sl :
  gathered P s0 k (tr, sl) -> k <= k' -> gathered P s0 k' (tr', sl).
Proof.
  unfold gathered. cbn [fst snd]. intros (H1 & H2 & H3 & H4 & H5 & H6) Hk.
  repeat split; auto. lia.
Qed.

Lemma gathered_push k tr s l d :
  gathered P s0 k (tr, (s, l)) ->
  P d ->
  forall tr',
  gathered P s0 (Datatypes.S k)
    (tr', ({| objs := set_obj (objs s) (next_id s) d;
              next_id := Datatypes.S (next_id s);
              leads := leads s |}, l ++ [next_id s])).
Proof.
  unfold gathered; cbn [fst snd objs next_id leads].
  intros (Hleads & Hnext & Hframe & Hlen & Hnd & Hall) Hd tr'.
  split; [ exact Hleads |]. split; [ lia |]. split; [| split; [| split ] ].
  - intros x Hx. rewrite set_obj_other by lia. apply Hframe. exact Hx.
  - rewrite length_app. cbn. lia.
  - apply NoDup_app; [ exact Hnd | constructor; [ intros [] | constructor ] |].
    intros a Ha [<- | []]. rewrite Forall_forall in Hall.
    destruct (Hall _ Ha) as [Hlt _]. lia.
  - apply Forall_app. split.
    + eapply Forall_impl; [| exact Hall ]. cbn beta. intros r [Hr Hp].
      split; [ lia |]. rewrite set_obj_other by lia. exact Hp.
    + constructor; [| constructor ]. split; [ lia |]. rewrite set_obj_same. exact Hd.
Qed.

Lemma held_start cap tr : held P s0 cap (tr, (s0, [])).
Proof. exists 0. split; [ apply gathered_start | lia ]. Qed.

Lemma held_events cap tr tr' sl : held P s0 cap (tr, sl) -> held P s0 cap (tr', sl).
Proof.
  intros (k & H & Hk). exists k. split; [| exact Hk ].
  eapply gathered_weaken; [ exact H | lia ].
Qed.

(** The loop over the containers. *)
Lemma gather_loop (body : locator -> M (scraper * list nat) unit)
    (xs : list locator) w cl (Q : outcome unit -> _ -> Prop) :
  (forall x k cl0, gathered P s0 k cl0 ->
     wp (body x) w cl0
        (fun o cl' => o = Ok tt /\ gathered P s0 (Datatypes.S k) cl')) ->
  gathered P s0 0 cl ->
  (forall cl', gathered P s0 (length xs) cl' -> Q (Ok tt) cl') ->
  wp (for_each xs body) w cl Q.
Proof.
  intros Hbody H0 Hend.
  apply wp_for_each with (I := fun visited cl0 => gathered P s0 (length visited) cl0).
  - exact H0.
  - intros visited x rest cl0 _ HI.
    eapply wp_mono; [ apply (Hbody x _ cl0 HI) |].
    cbn beta. intros o cl' [-> HI']. rewrite length_app, Nat.add_comm. exact HI'.
  - exact Hend.
Qed.

(** A body that reads its fields, stores one lead that satisfies [P] and
    logs; or logs a warning when a read fails. *)
Lemma stored_lead_gathers k tr s l d lvl msg w
    (Q : outcome unit -> config (scraper * list nat) -> Prop) :
  gathered P s0 k (tr, (s, l)) ->
  P d ->
  (forall cl', gathered P s0 (Datatypes.S k) cl' -> Q (Ok tt) cl') ->
  wp (lead <- on_state (new_dict d);;
      leads <- get_local;;
      set_local (leads ++ [lead]);;
      log lvl msg) w (tr, (s, l)) Q.
Proof.
  intros H Hd HQ. unfold new_dict. repeat wp_step.
  apply HQ. cbn [fst snd]. eapply gathered_push; [ exact H | exact Hd ].
Qed.

End Gathering.

(** ** Text *)

Lemma split_on_parts c s : Forall (fun p => has_char c p = false) (split_on c s).
Proof.
  induction s as [| x s IH]; cbn [split_on].
  - constructor; [ reflexivity | constructor ].
  - destruct (N.eqb x c) eqn:E.
    + constructor; [ reflexivity | exact IH ].
    + destruct (split_on c s) as [| p ps]; inversion IH; subst.
      * constructor; [| constructor ]. unfold has_char. cbn.
        rewrite N.eqb_sym, E. reflexivity.
      * constructor; [| assumption ]. unfold has_char in *. cbn.
        rewrite N.eqb_sym, E. cbn. assumption.
Qed.

Lemma line_is_single i s : has_char nl (line i s) = false.
Proof.
  unfold line. pose proof (split_on_parts nl s) as H.
  destruct (Nat.lt_ge_cases i (length (split_on nl s))) as [L | L].
  - rewrite Forall_nth in H. apply H. exact L.
  - rewrite nth_overflow by exact L. reflexivity.
Qed.

(** ** One container *)

Lemma twitter_tweet_gathers hashtag tweet w s0 k cl :
  gathered (twitter_lead hashtag) s0 k cl ->
  wp (twitter_tweet hashtag tweet) w cl
     (fun o cl' => o = Ok tt /\ gathered (twitter_lead hashtag) s0 (Datatypes.S k) cl').
Proof.
  destruct cl as [tr [s l]]. intros H.
  assert (Hk : forall tr', gathered (twitter_lead hashtag) s0 (Datatypes.S k) (tr', (s, l))).
  { intros tr'. eapply gathered_weaken; [ exact H | lia ]. }
  unfold twitter_tweet. wp_step.
  wp_call ltac:(wp_step; auto).
  wp_call ltac:(wp_step; auto).
  wp_step. wp_step.
  eapply stored_lead_gathers; [ exact H | | auto ].
  split; [ reflexivity |]. split; [ reflexivity |]. split; [| split ].
  - eexists. split; [ reflexivity |].
    destruct (has_char nl a) eqn:E; [ apply line_is_single | exact E ].
  - eexists. split; [ reflexivity |].
    destruct (has_char nl a); [ apply line_is_single | reflexivity ].
  - eexists. split; [ reflexivity |]. apply firstn_le_length.
Qed.

Lemma linkedin_profile_gathers profile w s0 k cl :
  gathered linkedin_lead s0 k cl ->
  wp (linkedin_profile profile) w cl
     (fun o cl' => o = Ok tt /\ gathered linkedin_lead s0 (Datatypes.S k) cl').
Proof.
  destruct cl as [tr [s l]]. intros H.
  assert (Hk : forall tr', gathered linkedin_lead s0 (Datatypes.S k) (tr', (s, l))).
  { intros tr'. eapply gathered_weaken; [ exact H | lia ]. }
  unfold linkedin_profile. wp_step.
  wp_call ltac:(wp_step; auto).
  wp_call ltac:(wp_step; auto).
  wp_call ltac:(wp_step; auto).
  wp_call ltac:(wp_step; auto).
  wp_step. wp_step.
  eapply stored_lead_gathers; [ exact H | | auto ].
  split; [ reflexivity |]. repeat split; eexists; reflexivity.
Qed.

Lemma facebook_post_gathers group_url post w s0 k cl :
  gathered (facebook_lead group_url) s0 k cl ->
  wp (facebook_post group_url post) w cl
     (fun o cl' => o = Ok tt /\
                   gathered (facebook_lead group_url) s0 (Datatypes.S k) cl').
Proof.
  destruct cl as [tr [s l]]. intros H.
  assert (Hk : forall tr',
             gathered (facebook_lead group_url) s0 (Datatypes.S k) (tr', (s, l))).
  { intros tr'. eapply gathered_weaken; [ exact H | lia ]. }
  unfold facebook_post. wp_step.
  wp_call ltac:(wp_step; auto).
  wp_call ltac:(wp_step; auto).
  wp_step. wp_step.
  eapply stored_lead_gathers; [ exact H | | auto ].
  split; [ reflexivity |]. split; [ reflexivity |].
  split; [ eexists; split; [ reflexivity | apply firstn_le_length ] |].
  split; [ eexists; split; [ reflexivity | apply firstn_le_length ] |].
  split; reflexivity.
Qed.

(** ** The [try] blocks *)

Lemma twitter_try_holds page hashtag max w tr s :
  wp (twitter_try page hashtag max) w (tr, (s, []))
     (fun _ cl => held (twitter_lead hashtag) s max cl).
Proof.
  unfold twitter_try. wp_step. wp_step.
  wp_call ltac:(apply held_start).
  wp_step. wp_step. wp_step.
  apply scroll_keeps; cbn [snd]; [| intros; apply held_start ]. intros tr1.
  wp_call ltac:(apply held_start).
  wp_step.
  apply gather_loop with (P := twitter_lead hashtag) (s0 := s).
  - intros x k cl0. apply twitter_tweet_gathers.
  - apply gathered_start.
  - intros [tr2 sl] Hc. repeat wp_step.
    eexists. split; [ eapply gathered_weaken; [ exact Hc | apply Nat.le_refl ] |].
    apply slice_of_results_length.
Qed.

Lemma facebook_try_holds page group_url w tr s :
  wp (facebook_try page group_url) w (tr, (s, []))
     (fun _ cl => held (facebook_lead group_url) s 30 cl).
Proof.
  unfold facebook_try. wp_step. wp_step.
  wp_call ltac:(apply held_start).
  wp_step. wp_step. wp_step.
  apply scroll_keeps; cbn [snd]; [| intros; apply held_start ]. intros tr1.
  wp_call ltac:(apply held_start).
  wp_step.
  apply gather_loop with (P := facebook_lead group_url) (s0 := s).
  - intros x k cl0. apply facebook_post_gathers.
  - apply gathered_start.
  - intros [tr2 sl] Hc. repeat wp_step.
    eexists. split; [ eapply gathered_weaken; [ exact Hc | apply Nat.le_refl ] |].
    apply slice_of_results_length.
Qed.

Lemma linkedin_try_holds page query max w tr s :
  wp (linkedin_try page query max) w (tr, (s, []))
     (fun o cl => held linkedin_lead s max cl /\
                  forall r, o = Ok (Some r) -> r = []).
Proof.
  assert (K : forall tr' (o : outcome (option (list nat))),
            (forall r, o <> Ok (Some r)) ->
            held linkedin_lead s max (tr', (s, [])) /\
            forall r, o = Ok (Some r) -> r = []).
  { intros tr' o Ho. split; [ apply held_start |]. intros r E. destruct (Ho r E). }
  unfold linkedin_try. wp_step. wp_step. wp_step. wp_step. wp_step. wp_step.
  destruct (falsy _ || falsy _).
  { wp_step. wp_step. wp_step. split; [ apply held_start |].
    intros r [= <-]. reflexivity. }
  wp_call ltac:(apply K; discriminate).
  wp_call ltac:(apply K; discriminate).
  wp_call ltac:(apply K; discriminate).
  wp_call ltac:(apply K; discriminate).
  wp_step. wp_step.
  wp_call ltac:(apply K; discriminate).
  wp_step. wp_step. wp_step.
  apply scroll_keeps; cbn [snd]; [| intros; apply K; discriminate ]. intros tr1.
  wp_call ltac:(apply K; discriminate).
  wp_step.
  apply gather_loop with (P := linkedin_lead) (s0 := s).
  - intros x k cl0. apply linkedin_profile_gathers.
  - apply gathered_start.
  - intros [tr2 sl] Hc. repeat wp_step. split; [| discriminate ].
    eexists. split; [ eapply gathered_weaken; [ exact Hc | apply Nat.le_refl ] |].
    apply slice_of_results_length.
Qed.

(** ** The whole runs *)

(** Closing the page and storing what was gathered. *)
Lemma close_and_store P w s cap page tr1 sl (r : option (list nat)) :
  held P s cap (tr1, sl) ->
  (forall l, r = Some l -> l = []) ->
  wp (perform (PageClose page)) w (tr1, sl)
     (fun o' cl'' =>
        match o' with
        | Ok _ =>
            wp match r with
               | Some early => ret early
               | None =>
                   leads <- get_local;; on_state (extend_leads leads);; ret leads
               end
               w cl''
               (fun o1 cl1 => appended P w s cap o1 (fst cl1, fst (snd cl1)))
        | Raised e0 => appended P w s cap (Raised e0) (fst cl'', fst (snd cl''))
        end).
Proof.
  destruct sl as [s1 l1].
  intros (k & (Hl & Hnext & Hframe & Hlen & Hnd & Hall) & Hk) Hr. cbn [fst snd] in *.
  wp_step. destruct (respond w (PageClose page) tr1) as [[] | e] eqn:Eclose.
  - destruct r as [early |].
    + rewrite (Hr early eq_refl). wp_step. unfold appended. cbn [fst snd].
      split; [ exact Hnext |]. split; [ exact Hframe |].
      split; [ rewrite app_nil_r; exact Hl |]. split; [ cbn; lia |].
      split; constructor.
    + unfold extend_leads. repeat wp_step. unfold appended. cbn [fst snd objs next_id leads].
      split; [ exact Hnext |]. split; [ exact Hframe |].
      split; [ rewrite Hl; reflexivity |]. split; [ intros H0; specialize (Hk H0); lia |].
      split; assumption.
  - unfold appended. cbn [fst snd].
    split; [ exact Hnext |]. split; [ exact Hframe |].
    split; [ right; eauto | exact Hl ].
Qed.

Lemma open_failed P w s cap tr e :
  respond w NewPage tr = Raised e ->
  appended P w s cap (@Raised (list nat) e) (Call NewPage :: tr, s).
Proof.
  intros E. unfold appended. cbn [fst snd].
  split; [ lia |]. split; [ reflexivity |]. split; [ left; eauto | reflexivity ].
Qed.

Lemma scrape_twitter_leads_appends hashtag max w tr s :
  wp (scrape_twitter_leads hashtag max) w (tr, s)
     (appended (twitter_lead hashtag) w s max).
Proof.
  unfold scrape_twitter_leads. wp_step. wp_step.
  destruct (respond w NewPage tr) as [page | e] eqn:Enew;
    [| apply open_failed; exact Enew ].
  wp_step. wp_step. wp_step. wp_step.
  eapply wp_mono; [ apply twitter_try_holds |]. cbn beta.
  intros [[] | e] [tr1 sl] Hk.
  - apply (@close_and_store _ w s max page tr1 sl None); [ exact Hk | discriminate ].
  - wp_step.
    apply (@close_and_store _ w s max page _ sl None);
      [ eapply held_events; exact Hk | discriminate ].
Qed.

Lemma scrape_facebook_groups_appends group_url w tr s :
  wp (scrape_facebook_groups group_url) w (tr, s)
     (appended (facebook_lead group_url) w s 30).
Proof.
  unfold scrape_facebook_groups. wp_step. wp_step.
  destruct (respond w NewPage tr) as [page | e] eqn:Enew;
    [| apply open_failed; exact Enew ].
  wp_step. wp_step. wp_step. wp_step.
  eapply wp_mono; [ apply facebook_try_holds |]. cbn beta.
  intros [[] | e] [tr1 sl] Hk.
  - apply (@close_and_store _ w s 30 page tr1 sl None); [ exact Hk | discriminate ].
  - wp_step.
    apply (@close_and_store _ w s 30 page _ sl None);
      [ eapply held_events; exact Hk | discriminate ].
Qed.

Lemma scrape_linkedin_leads_appends query max w tr s :
  wp (scrape_linkedin_leads query max) w (tr, s) (appended linkedin_lead w s max).
Proof.
  unfold scrape_linkedin_leads. wp_step. wp_step.
  destruct (respond w NewPage tr) as [page | e] eqn:Enew;
    [| apply open_failed; exact Enew ].
  wp_step. wp_step. wp_step. wp_step.
  eapply wp_mono; [ apply linkedin_try_holds |]. cbn beta.
  intros [r | e] [tr1 sl] [Hk Hr].
  - apply (@close_and_store _ w s max page tr1 sl r); [ exact Hk |].
    intros l ->. apply Hr. reflexivity.
  - wp_step. wp_step.
    apply (@close_and_store _ w s max page _ sl None);
      [ eapply held_events; exact Hk | discriminate ].
Qed.

End GatherFacts.

(* ===================================================================== *)
(** * Saving in any world *)
(* ===================================================================== *)

Module SaveConduct.
Import LeadScraper Notions Conduct PyFacts SaveFacts EmitFacts.

(** Writing the header and the rows to the file [f]: whatever the file
    system answers, only rows of [f] are added; and when nothing raises,
    the rows are the table. *)
Lemma rows_run w f t0 s :
  wp (perform (WriteRow f (sorted_str (all_keys (objs s) (leads s))));;
      for_each (leads s)
        (fun r => perform (WriteRow f (row_of (sorted_str (all_keys (objs s) (leads s)))
                                              (objs s r)))))
     w (t0, s)
     (fun o c' =>
        snd c' = s /\
        grew (is_row_of f) t0 (fst c') /\
        (o = Ok tt -> rows_written (fst c') = rows_written t0 ++ table s)).
Proof.
  assert (Hrow : forall cells, is_row_of f (Call (WriteRow f cells)) = true).
  { intros cells. cbn. apply Nat.eqb_refl. }
  wp_step. wp_step. cbn [fst snd].
  destruct (respond w (WriteRow f _) t0) as [[] | e].
  2:{ split; [ reflexivity |]. split; [| discriminate ].
      apply grew_cons; [ apply Hrow | apply grew_refl ]. }
  apply wp_for_each with
    (I := fun visited c0 =>
            snd c0 = s /\
            grew (is_row_of f) t0 (fst c0) /\
            rows_written (fst c0) = rows_written t0 ++ header s ::
              map (fun r => row_of (header s) (objs s r)) visited).
  - split; [ reflexivity |]. split; [| reflexivity ].
    apply grew_cons; [ apply Hrow | apply grew_refl ].
  - intros visited x rest' [t1 s1] _ (Hs & Hg & Hr). cbn [fst snd] in *. subst s1.
    wp_step. cbn [fst snd].
    assert (Hg' : grew (is_row_of f) t0 (Call (WriteRow f (row_of (header s) (objs s x))) :: t1)).
    { apply grew_cons; [ apply Hrow | exact Hg ]. }
    destruct (respond w (WriteRow f _) t1) as [[] | e].
    + split; [ reflexivity |]. split; [ exact Hg' |].
      cbn [rows_written]. rewrite Hr, map_app, <- app_assoc. reflexivity.
    + split; [ reflexivity |]. split; [ exact Hg' | discriminate ].
  - intros [t1 s1] (Hs & Hg & Hr). cbn [fst snd] in *. subst s1.
    split; [ reflexivity |]. split; [ exact Hg |]. intros _. exact Hr.
Qed.

(** Every run of [save_leads_to_csv]. *)
Lemma save_leads_conduct w tr s filename :
  wp (save_leads_to_csv filename) w (tr, s)
     (fun o c' =>
        snd c' = s /\
        (leads s = [] ->
         o = Ok None /\
         fst c' = Log LWarning (e_warn ++ u "  No leads to save") :: tr) /\
        (leads s <> [] ->
         match respond w (OpenWrite (csv_name w tr filename)) tr with
         | Raised e =>
             o = Ok None /\
             fst c' = Log LError (e_cross ++ u " Error saving leads: " ++ str_exn e)
                      :: Call (OpenWrite (csv_name w tr filename)) :: tr
         | Ok f =>
             exists rows lvl msg,
               fst c' = Log lvl msg :: Call (CloseFile f) :: rows
                        ++ Call (OpenWrite (csv_name w tr filename)) :: tr /\
               forallb (is_row_of f) rows = true /\
               (o = Ok None \/
                o = Ok (Some (csv_name w tr filename)) /\
                rows_written (fst c') = rows_written tr ++ table s)
         end)).
Proof.
  unfold save_leads_to_csv. wp_step.
  eapply wp_mono with
    (P := fun o c' => o = Ok (csv_name w tr filename) /\ c' = (tr, s)).
  { unfold csv_name. destruct (falsy filename); repeat wp_step; auto. }
  intros o c' [-> ->]. generalize (csv_name w tr filename). intros name.
  wp_step. wp_step.
  destruct (list_eq_dec Nat.eq_dec (leads s) []) as [El | Hne].
  { rewrite El. wp_step. wp_step. wp_step. cbn [fst snd].
    split; [ reflexivity |]. split; [ auto | intros H; destruct (H eq_refl) ]. }
  lazymatch goal with
  | |- wp (match leads s with [] => _ | _ :: _ => ?b end) _ _ _ =>
      assert (E : forall a, match leads s with [] => a | _ :: _ => b end = b)
        by (intros; destruct (leads s); [ congruence | reflexivity ]);
      rewrite E; clear E
  end.
  wp_step. wp_step. wp_step. cbn [fst snd].
  destruct (respond w (OpenWrite name) tr) as [f | e].
  2:{ wp_step. wp_step. wp_step. cbn [fst snd].
      split; [ reflexivity |]. split; [ intros El; contradiction | auto ]. }
  wp_step. wp_step.
  eapply wp_mono; [ apply rows_run |]. cbn beta.
  intros o [t1 s1] (Hs & (rows & Ht & Hrows) & Htable). cbn [fst snd] in *. subst s1 t1.
  wp_step. cbn [fst snd].
  assert (Hfail : forall e t,
            wp (log LError (e_cross ++ u " Error saving leads: " ++ str_exn e);;
                ret (@None pystr)) w
               (Call (CloseFile f) :: rows ++ Call (OpenWrite name) :: tr, s)
               (fun o c' =>
                  snd c' = s /\
                  (leads s = [] -> o = Ok None /\ fst c' = t) /\
                  (leads s <> [] ->
                   exists rows0 lvl msg,
                     fst c' = Log lvl msg :: Call (CloseFile f) :: rows0
                              ++ Call (OpenWrite name) :: tr /\
                     forallb (is_row_of f) rows0 = true /\
                     (o = Ok None \/
                      o = Ok (Some name) /\
                      rows_written (fst c') = rows_written tr ++ table s)))).
  { intros e t. wp_step. wp_step. wp_step. cbn [fst snd].
    split; [ reflexivity |]. split; [ intros El; contradiction |]. intros _.
    exists rows. do 2 eexists. split; [ reflexivity |]. split; [ exact Hrows | auto ]. }
  destruct (respond w (CloseFile f) (rows ++ Call (OpenWrite name) :: tr)) as [[] | e];
    [| apply Hfail ].
  destruct o as [[] | e]; [| apply Hfail ].
  wp_step. wp_step. wp_step. cbn [fst snd].
  split; [ reflexivity |]. split; [ intros El; contradiction |]. intros _.
  exists rows. do 2 eexists. split; [ reflexivity |]. split; [ exact Hrows |].
  right. split; [ reflexivity |]. cbn [rows_written].
  rewrite Htable by reflexivity. reflexivity.
Qed.

End SaveConduct.

(* ===================================================================== *)
(** * Properties of the scrapers *)
(* ===================================================================== *)

Module KeepFacts.
Import LeadScraper Notions Sites Conduct PyFacts ObjFacts FilterFacts GatherFacts SaveConduct.

Lemma run_appended P w s cap (m : M scraper (list nat)) tr :
  wp m w (tr, s) (appended P w s cap) ->
  appended P w s cap (fst (run m w (tr, s))) (snd (run m w (tr, s))).
Proof. auto. Qed.

Lemma appended_stores P w s cap o c' :
  well_kept s -> appended P w s cap o c' -> stores_new s o (snd c').
Proof.
  intros [Hnd Hall] (Hnext & Hframe & Ho). rewrite Forall_forall in Hall. split.
  - intros x Hx. apply Hframe. apply (Hall x Hx).
  - destruct o as [r | e]; [| apply Ho ].
    destruct Ho as (Hl & _ & Hr & Hnew). split; [ exact Hl |]. split; [ exact Hr |].
    intros x Hx Hold. rewrite Forall_forall in Hnew.
    destruct (Hnew x Hx) as [[Hlo _] _]. destruct (Hall x Hold) as [Hhi _]. lia.
Qed.

Lemma appended_well_kept P w s cap o c' :
  (forall d, P d -> has_platform d) ->
  well_kept s -> appended P w s cap o c' -> well_kept (snd c').
Proof.
  intros HP [Hnd Hall] (Hnext & Hframe & Ho).
  assert (Hold : Forall (fun r => r < next_id (snd c') /\ has_platform (objs (snd c') r))
                        (leads s)).
  { eapply Forall_impl; [| exact Hall ]. cbn beta. intros r [Hr Hp].
    split; [ lia |]. rewrite Hframe by exact Hr. exact Hp. }
  destruct o as [r | e].
  - destruct Ho as (Hl & _ & Hr & Hnew). unfold well_kept. rewrite Hl. split.
    + apply NoDup_app; [ exact Hnd | exact Hr |].
      intros x Hx Hx'. rewrite Forall_forall in Hall, Hnew.
      destruct (Hall x Hx) as [Hhi _]. destruct (Hnew x Hx') as [[Hlo _] _]. lia.
    + apply Forall_app. split; [ exact Hold |].
      eapply Forall_impl; [| exact Hnew ]. cbn beta. intros x [[_ Hx] Hp].
      split; [ exact Hx | apply HP; exact Hp ].
  - destruct Ho as [_ Hl]. unfold well_kept. rewrite Hl. split; assumption.
Qed.

Lemma linkedin_has_platform d : linkedin_lead d -> has_platform d.
Proof. intros [H _]. eexists. exact H. Qed.

Lemma twitter_has_platform hashtag d : twitter_lead hashtag d -> has_platform d.
Proof. intros [H _]. eexists. exact H. Qed.

Lemma facebook_has_platform group_url d : facebook_lead group_url d -> has_platform d.
Proof. intros [H _]. eexists. exact H. Qed.

Lemma scored_has_platform d z :
  has_platform d -> has_platform (dict_set d (u "match_score") (VInt z)).
Proof.
  intros [p H]. exists p. rewrite dict_get_set_other; [ exact H |].
  intros E. vm_compute in E. discriminate E.
Qed.

Lemma filter_well_kept lower keywords w tr s :
  well_kept s -> well_kept (snd (snd (run (filter_quality_leads lower keywords) w (tr, s)))).
Proof.
  intros [Hnd Hall].
  destruct (@filter_quality_leads_run_any lower keywords w tr s)
    as (q & tr' & o' & kept & Hrun & _ & _ & _ & Hin & Hout).
  rewrite Hrun. cbn [snd]. split; [ exact Hnd |]. cbn [leads next_id objs].
  eapply Forall_impl; [| exact Hall ]. cbn beta. intros r [Hr Hp].
  split; [ exact Hr |].
  destruct (in_dec Nat.eq_dec r kept) as [Hk | Hk].
  - destruct (Hin r Hk) as (z & _ & ->). apply scored_has_platform. exact Hp.
  - rewrite (Hout r Hk). exact Hp.
Qed.

Lemma save_keeps_scraper filename w tr s :
  snd (snd (run (save_leads_to_csv filename) w (tr, s))) = s.
Proof. apply (save_leads_conduct w tr s filename). Qed.

Lemma dropped_result (A : Type) (m : M scraper A) w c :
  snd (snd (run (m;; ret tt) w c)) = snd (snd (run m w c)).
Proof. unfold run, bind. destruct (m w c) as [[a | e] c']; reflexivity. Qed.

Lemma fresh_well_kept : well_kept fresh.
Proof. split; constructor. Qed.

Lemma reachable_well_kept lower w c : reachable lower w c -> well_kept (snd c).
Proof.
  intros H. induction H as [| [tr s] m _ IH].
  - apply fresh_well_kept.
  - cbn [snd] in IH. destruct m as [q max | h max | url | keywords | filename];
      unfold invoke; rewrite dropped_result.
    + eapply appended_well_kept; [ apply linkedin_has_platform | exact IH |].
      apply (run_appended (scrape_linkedin_leads_appends q max w tr s)).
    + eapply appended_well_kept; [ apply (@twitter_has_platform h) | exact IH |].
      apply (run_appended (scrape_twitter_leads_appends h max w tr s)).
    + eapply appended_well_kept; [ apply (@facebook_has_platform url) | exact IH |].
      apply (run_appended (scrape_facebook_groups_appends url w tr s)).
    + apply filter_well_kept. exact IH.
    + rewrite save_keeps_scraper. exact IH.
Qed.

Lemma two_leads_well_kept : well_kept two_leads.
Proof.
  split.
  - constructor; [ cbn; intros [H | []]; discriminate |].
    constructor; [ intros [] | constructor ].
  - repeat constructor; eexists; reflexivity.
Defined.

End KeepFacts.

Module Scrapers.
Import LeadScraper Notions Sites Conduct PyFacts ObjFacts GatherFacts KeepFacts.

(** X5. [scrape_facebook_groups], in any world: it returns at most 30
    leads and appends them to [self.leads]; each carries the platform
    'facebook', the address of the group it was given, an author of at most
    100 characters and a preview of at most 200, and neither a name nor a
    handle.  When it raises, the error was raised by opening or closing
    the page, and [self.leads] is as it was. *)
Theorem facebook_leads_are_capped_and_shaped :
  forall (w : world) (tr : list event) (s : scraper) (group_url : pystr),
    match run (scrape_facebook_groups group_url) w (tr, s) with
    | (Ok r, c') =>
        length r <= 30 /\
        leads (snd c') = leads s ++ r /\
        Forall (fun x => facebook_lead group_url (objs (snd c') x)) r
    | (Raised e, c') => lifecycle_error w e /\ leads (snd c') = leads s
    end.
Proof.
  intros w tr s group_url.
  pose proof (run_appended (scrape_facebook_groups_appends group_url w tr s)) as H.
  destruct (run (scrape_facebook_groups group_url) w (tr, s)) as [[r | e] c'];
    cbn [fst snd] in H; destruct H as (_ & _ & H); [| exact H ].
  destruct H as (Hl & Hlen & _ & Hall).
  split; [ apply Hlen; lia |]. split; [ exact Hl |].
  eapply Forall_impl; [| exact Hall ]. cbn beta. tauto.
Qed.

(** X6. The fields of scraped leads, in any world.  Every lead returned
    by [scrape_twitter_leads] carries the platform 'twitter', the hashtag
    that was searched, a name and a handle that hold no line break, and a
    tweet text of at most 200 characters.  Every lead returned by
    [scrape_linkedin_leads] carries the platform 'linkedin' and a name, a
    headline and a location that are text. *)
Theorem scraped_leads_carry_their_fields :
  forall (w : world) (tr : list event) (s : scraper) (text : pystr) (max : Z),
    (forall r c',
       run (scrape_twitter_leads text max) w (tr, s) = (Ok r, c') ->
       Forall (fun x => twitter_lead text (objs (snd c') x)) r) /\
    (forall r c',
       run (scrape_linkedin_leads text max) w (tr, s) = (Ok r, c') ->
       Forall (fun x => linkedin_lead (objs (snd c') x)) r).
Proof.
  intros w tr s text max. split; intros r c' Hrun.
  - pose proof (run_appended (scrape_twitter_leads_appends text max w tr s)) as H.
    rewrite Hrun in H. cbn [fst snd] in H. destruct H as (_ & _ & _ & _ & _ & Hall).
    eapply Forall_impl; [| exact Hall ]. cbn beta. tauto.
  - pose proof (run_appended (scrape_linkedin_leads_appends text max w tr s)) as H.
    rewrite Hrun in H. cbn [fst snd] in H. destruct H as (_ & _ & _ & _ & _ & Hall).
    eapply Forall_impl; [| exact Hall ]. cbn beta. tauto.
Qed.

(** X7. A scraping run leaves what is stored alone.  On a scraper whose
    leads are distinct objects, in any world, each of the three scrapers
    changes no dictionary that was stored before; the leads it returns are
    distinct objects, none of which was stored before, and it appends
    exactly them to [self.leads], in the order returned; when it raises,
    [self.leads] is as it was. *)
Theorem scraping_keeps_what_is_stored :
  forall (w : world) (tr : list event) (s : scraper) (text : pystr) (max : Z),
    well_kept s ->
    stores_new s (fst (run (scrape_linkedin_leads text max) w (tr, s)))
                 (snd (snd (run (scrape_linkedin_leads text max) w (tr, s)))) /\
    stores_new s (fst (run (scrape_twitter_leads text max) w (tr, s)))
                 (snd (snd (run (scrape_twitter_leads text max) w (tr, s)))) /\
    stores_new s (fst (run (scrape_facebook_groups text) w (tr, s)))
                 (snd (snd (run (scrape_facebook_groups text) w (tr, s)))).
Proof.
  intros w tr s text max Hs. split; [| split ].
  - eapply appended_stores; [ exact Hs |].
    apply (run_appended (scrape_linkedin_leads_appends text max w tr s)).
  - eapply appended_stores; [ exact Hs |].
    apply (run_appended (scrape_twitter_leads_appends text max w tr s)).
  - eapply appended_stores; [ exact Hs |].
    apply (run_appended (scrape_facebook_groups_appends text w tr s)).
Qed.

Lemma scraping_keeps_witness :
  stores_new two_leads
    (fst (run (scrape_twitter_leads (u "#ai") 2)
              (world_of (plain_site 3 (u "Ada"))) ([], two_leads)))
    (snd (snd (run (scrape_twitter_leads (u "#ai") 2)
                   (world_of (plain_site 3 (u "Ada"))) ([], two_leads)))).
Proof.
  exact (proj1 (proj2 (@scraping_keeps_what_is_stored
                         (world_of (plain_site 3 (u "Ada"))) [] two_leads (u "#ai") 2
                         two_leads_well_kept))).
Defined.

(** X8. An invariant of the scraper.  In every configuration a new
    [LeadScraper] reaches by calls of [scrape_linkedin_leads],
    [scrape_twitter_leads], [scrape_facebook_groups],
    [filter_quality_leads] and [save_leads_to_csv], in any order, with
    any arguments, in any world and whether the calls return or raise,
    [self.leads] holds distinct objects and each of them has a
    platform. *)
Theorem reachable_scrapers_are_well_kept :
  forall (lower : pystr -> pystr) (w : world) (c : config scraper),
    reachable lower w c -> well_kept (snd c).
Proof.
  intros lower w c H. exact (@reachable_well_kept lower w c H).
Qed.

Lemma reachable_scrapers_witness :
  well_kept
    (snd (snd (run (invoke ascii_lower (FilterQuality [u "ada"]))
                   (world_of (plain_site 3 (u "Ada")))
                   (snd (run (invoke ascii_lower (ScrapeTwitter (u "#ai") 2))
                             (world_of (plain_site 3 (u "Ada"))) ([], fresh)))))).
Proof.
  apply (@reachable_scrapers_are_well_kept ascii_lower (world_of (plain_site 3 (u "Ada")))).
  apply reach_call. apply reach_call. apply reach_new.
Defined.

End Scrapers.

(* ===================================================================== *)
(** * Filtering at the edges *)
(* ===================================================================== *)

Module FilterConduct.
Import LeadScraper Notions Sites Conduct PyFacts ObjFacts FilterFacts.

Section Bounds.
Variable lower : pystr -> pystr.
Variable keywords : list pystr.

Lemma match_count_le text :
  (match_count lower text keywords <= Z.of_nat (length keywords))%Z.
Proof. unfold match_count. apply Nat2Z.inj_le. apply filter_length_le. Qed.

(** The loop over any list of references: the score stored in a kept lead
    lies between one and the number of keywords. *)
Lemma filter_loop_bounded refs :
  forall o acc,
  exists kept,
    snd (fold_left (filter_step lower keywords) refs (o, acc)) = acc ++ kept /\
    (forall x, In x kept ->
       exists z, (1 <= z <= Z.of_nat (length keywords))%Z /\
         fst (fold_left (filter_step lower keywords) refs (o, acc)) x
         = dict_set (o x) (u "match_score") (VInt z)) /\
    (forall x, ~ In x kept ->
       fst (fold_left (filter_step lower keywords) refs (o, acc)) x = o x).
Proof.
  induction refs as [| r refs IH]; intros o acc.
  - exists []. cbn. rewrite app_nil_r.
    repeat split; try tauto; intros x [].
  - cbn [fold_left]. rewrite filter_step_eq.
    destruct (Notions.qualifies lower keywords (o r)) eqn:Q.
    + destruct (IH (set_obj o r (Notions.scored lower keywords (o r))) (acc ++ [r]))
        as (kept & Hsnd & Hin & Hout).
      exists (r :: kept). split; [ rewrite Hsnd, <- app_assoc; reflexivity |].
      split.
      * intros x Hx.
        destruct (in_dec Nat.eq_dec x kept) as [Hk | Hk].
        -- destruct (Hin x Hk) as (z & Hz & E). exists z. split; [ exact Hz |].
           rewrite E. destruct (Nat.eq_dec x r) as [-> | N].
           ++ rewrite set_obj_same. unfold Notions.scored.
              apply dict_set_set.
           ++ rewrite set_obj_other by exact N. reflexivity.
        -- destruct Hx as [<- | Hx]; [| contradiction ].
           exists (match_count lower (lead_text lower (o r)) keywords).
           split; [ split; [ apply match_count_positive; exact Q
                           | apply match_count_le ] |].
           rewrite (Hout r Hk). apply set_obj_same.
      * intros x Hx. cbn [In] in Hx.
        rewrite Hout by tauto. apply set_obj_other. intros ->. tauto.
    + destruct (IH o acc) as (kept & Hsnd & Hin & Hout).
      exists kept. split; [ exact Hsnd |]. split; assumption.
Qed.

Lemma filter_quality_leads_run_bounded w tr s :
  exists q tr' o' kept,
    run (filter_quality_leads lower keywords) w (tr, s)
    = (Ok q, (tr', {| objs := o'; next_id := next_id s; leads := leads s |})) /\
    q = list_sort (fun a b => (score (o' a) <? score (o' b))%Z) true kept /\
    (forall x, In x kept ->
       exists z, (1 <= z <= Z.of_nat (length keywords))%Z /\
                 o' x = dict_set (objs s x) (u "match_score") (VInt z)).
Proof.
  destruct (filter_loop_bounded (leads s) (objs s) []) as (kept & Hsnd & Hin & _).
  unfold run, filter_quality_leads, bind, get, put, log, ret. cbn [fst snd].
  do 3 eexists. exists kept. split; [ reflexivity |].
  split; [ rewrite Hsnd; reflexivity | exact Hin ].
Qed.

End Bounds.

(** With no keyword the loop keeps nothing and changes nothing. *)
Lemma filter_loop_no_keywords lower refs o :
  fold_left (filter_step lower []) refs (o, []) = (o, []).
Proof. induction refs as [| r refs IH]; [ reflexivity | exact IH ]. Qed.

Lemma empty_text_is_everywhere text : str_in [] text = true.
Proof. destruct text; reflexivity. Qed.

Lemma empty_keyword_qualifies lower keywords d :
  lower [] = [] -> In [] keywords -> qualifies lower keywords d = true.
Proof.
  intros Hl Hin. unfold qualifies. apply existsb_exists. exists [].
  split; [ exact Hin |]. unfold matches. rewrite Hl. apply empty_text_is_everywhere.
Qed.

Lemma ascii_lower_empty : ascii_lower [] = [].
Proof. reflexivity. Defined.

Lemma empty_among : In (@nil N) [u "manager"; []].
Proof. right. left. reflexivity. Defined.

End FilterConduct.

Module Filtering.
Import LeadScraper Notions Sites Conduct PyFacts ObjFacts FilterFacts FilterConduct.

(** X9. The score of a returned lead is bounded.  In every scraper and
    for every list of keywords, each lead [filter_quality_leads] returns
    holds, under [match_score], an integer that is at least 1 and at most
    the number of keywords given. *)
Theorem match_scores_are_bounded :
  forall (lower : pystr -> pystr) (keywords : list pystr)
         (w : world) (tr : list event) (s : scraper),
    exists q c',
      run (filter_quality_leads lower keywords) w (tr, s) = (Ok q, c') /\
      forall r, In r q ->
        exists z,
          dict_get (objs (snd c') r) (u "match_score") = Some (VInt z) /\
          (1 <= z <= Z.of_nat (length keywords))%Z.
Proof.
  intros lower keywords w tr s.
  destruct (@filter_quality_leads_run_bounded lower keywords w tr s)
    as (q & tr' & o' & kept & Hrun & Hq & Hin).
  exists q. eexists. split; [ exact Hrun |]. intros r Hr. cbn [snd objs].
  assert (Hk : In r kept).
  { rewrite Hq in Hr. revert Hr. apply Permutation_in.
    apply list_sort_reverse_perm with (key := fun a => score (o' a)). }
  destruct (Hin r Hk) as (z & Hz & ->). exists z.
  split; [ apply dict_get_set_same | exact Hz ].
Qed.

(** X10. The two edges of the keyword list.  With no keyword at all,
    [filter_quality_leads] returns the empty list, logs that 0 leads were
    kept and leaves the scraper exactly as it was.  With the empty text
    among the keywords (what splitting an empty answer at the commas
    gives), every stored lead is returned, whatever it holds. *)
Theorem filter_at_the_edges_of_the_keyword_list :
  forall (lower : pystr -> pystr) (w : world) (tr : list event) (s : scraper),
    run (filter_quality_leads lower []) w (tr, s)
    = (Ok [], (Log LInfo (e_check ++ u " Filtered to 0 quality leads") :: tr, s)) /\
    forall keywords,
      lower [] = [] -> In [] keywords ->
      exists q c',
        run (filter_quality_leads lower keywords) w (tr, s) = (Ok q, c') /\
        forall r, In r q <-> In r (leads s).
Proof.
  intros lower w tr s. split.
  - unfold run, filter_quality_leads, bind, get, put, log, ret. cbn [fst snd].
    rewrite filter_loop_no_keywords. destruct s. reflexivity.
  - intros keywords Hl Hin.
    destruct (@filter_quality_leads_run_any lower keywords w tr s)
      as (q & tr' & o' & kept & Hrun & Hq & _ & Hmem & _).
    exists q. eexists. split; [ exact Hrun |]. intros r.
    assert (Hp : Permutation q kept).
    { rewrite Hq. apply list_sort_reverse_perm with (key := fun a => score (o' a)). }
    split.
    + intros Hr. apply (Permutation_in _ Hp) in Hr. apply Hmem in Hr. tauto.
    + intros Hr. apply (Permutation_in _ (Permutation_sym Hp)). apply Hmem.
      split; [ exact Hr | apply empty_keyword_qualifies; assumption ].
Qed.

Lemma filter_at_the_edges_witness :
  exists q c',
    run (filter_quality_leads ascii_lower [u "manager"; []])
        (world_of (plain_site 0 [])) ([], two_leads) = (Ok q, c') /\
    forall r, In r q <-> In r (leads two_leads).
Proof.
  apply (proj2 (@filter_at_the_edges_of_the_keyword_list ascii_lower
                  (world_of (plain_site 0 [])) [] two_leads)).
  - apply ascii_lower_empty.
  - apply empty_among.
Defined.

End Filtering.

Module Saving.
Import LeadScraper Notions Sites Conduct PyFacts SaveFacts EmitFacts SaveConduct.

(** X11. [save_leads_to_csv] never raises and never changes the scraper,
    whatever the file system does.  With no leads it returns [None] and
    only logs a warning: no file is opened.  When it returns a file name,
    that name is the one it was given (or [leads_<time>.csv] when it was
    given none, or the empty text), and the whole table, header and one
    row per lead, has been written. *)
Theorem save_never_raises_and_reports_what_it_wrote :
  forall (w : world) (tr : list event) (s : scraper) (filename : option pystr),
    exists r tr',
      run (save_leads_to_csv filename) w (tr, s) = (Ok r, (tr', s)) /\
      match leads s with
      | [] =>
          r = None /\
          tr' = Log LWarning (e_warn ++ u "  No leads to save") :: tr
      | _ :: _ =>
          match r with
          | None => True
          | Some name =>
              name = csv_name w tr filename /\
              rows_written tr' = rows_written tr ++ table s
          end
      end.
Proof.
  intros w tr s filename.
  pose proof (save_leads_conduct w tr s filename) as H.
  unfold wp in H. fold (run (save_leads_to_csv filename) w (tr, s)) in H.
  destruct (run (save_leads_to_csv filename) w (tr, s)) as [o [tr' s']].
  cbn [fst snd] in H. destruct H as (-> & Hnone & Hsome).
  destruct (leads s) as [| r0 rest] eqn:El.
  - destruct (Hnone eq_refl) as [-> ->]. do 2 eexists. split; [ reflexivity |]. auto.
  - assert (Hne : r0 :: rest <> []) by discriminate. specialize (Hsome Hne).
    destruct (respond w (OpenWrite (csv_name w tr filename)) tr) as [f | e].
    + destruct Hsome as (rows & lvl & msg & _ & _ & [-> | [-> Hrows]]).
      * do 2 eexists. split; [ reflexivity | exact I ].
      * do 2 eexists. split; [ reflexivity |]. split; [ reflexivity | exact Hrows ].
    + destruct Hsome as [-> _]. do 2 eexists. split; [ reflexivity | exact I ].
Qed.

(** X12. [save_leads_to_csv] closes the file it opened, on every path.
    For a scraper that holds leads, in any world: when the file cannot be
    opened, the run logs the error and returns [None]; when it is opened,
    the events that follow are rows written to that file, then its
    closing, then one log line, and nothing else, also when a row could
    not be written. *)
Theorem save_closes_the_file_it_opened :
  forall (w : world) (tr : list event) (s : scraper) (filename : option pystr),
    leads s <> [] ->
    match respond w (OpenWrite (csv_name w tr filename)) tr with
    | Ok f =>
        exists rows lvl msg,
          fst (snd (run (save_leads_to_csv filename) w (tr, s)))
          = Log lvl msg :: Call (CloseFile f) :: rows
            ++ Call (OpenWrite (csv_name w tr filename)) :: tr /\
          forallb (is_row_of f) rows = true
    | Raised e =>
        run (save_leads_to_csv filename) w (tr, s)
        = (Ok None,
           (Log LError (e_cross ++ u " Error saving leads: " ++ str_exn e)
            :: Call (OpenWrite (csv_name w tr filename)) :: tr, s))
    end.
Proof.
  intros w tr s filename Hne.
  pose proof (save_leads_conduct w tr s filename) as H.
  unfold wp in H. fold (run (save_leads_to_csv filename) w (tr, s)) in H.
  destruct (run (save_leads_to_csv filename) w (tr, s)) as [o [tr' s']].
  cbn [fst snd] in *. destruct H as (-> & _ & Hsome). specialize (Hsome Hne).
  destruct (respond w (OpenWrite (csv_name w tr filename)) tr) as [f | e].
  - destruct Hsome as (rows & lvl & msg & Ht & Hrows & _). eauto.
  - destruct Hsome as [-> ->]. reflexivity.
Qed.

Lemma two_leads_are_some : leads two_leads <> [].
Proof. cbn. discriminate. Defined.

Lemma save_closes_witness :
  exists rows lvl msg,
    fst (snd (run (save_leads_to_csv None) (world_of (plain_site 0 [])) ([], two_leads)))
    = Log lvl msg :: Call (CloseFile 7) :: rows
      ++ [Call (OpenWrite (csv_name (world_of (plain_site 0 [])) [] None))] /\
    forallb (is_row_of 7) rows = true.
Proof.
  apply (@save_closes_the_file_it_opened (world_of (plain_site 0 [])) [] two_leads None).
  apply two_leads_are_some.
Defined.

End Saving.

(* ===================================================================== *)
(** * The adapters in any world *)
(* ===================================================================== *)

Module AdapterConduct.
Import SocialMedia Notions Sites Conduct PyFacts SkipFacts PostFacts EmitFacts.

(** Follow every path of a computation, keeping what each call
    answered. *)
Ltac wp_fork :=
  lazymatch goal with
  | |- match ?r with Ok _ => _ | Raised _ => _ end => destruct r eqn:?
  | |- wp (if ?b then _ else _) _ _ _ => destruct b eqn:?
  end.

Ltac wp_walk := repeat first [ wp_step | wp_fork ].


(** ** Which errors reach the caller *)

Lemma paged_settles (body : nat -> M unit result) (h : exn -> M unit result) w c :
  (forall page c', wp (body page) w c' (fun o _ => forall r, o = Ok r -> reports r)) ->
  (forall e c', wp (h e) w c' (fun o _ => answers o)) ->
  wp (page <- perform NewPage;;
      try_finally (try_except (body page) h) (perform (PageClose page)))
     w c (fun o _ => settled w o).
Proof.
  intros Hbody Hh. wp_step. wp_step.
  destruct (respond w NewPage (fst c)) as [page | e] eqn:Enew;
    [| right; exists e; split; [ reflexivity | left; eauto ] ].
  wp_step. eapply wp_mono; [ apply guarded_answers; [ apply Hbody | apply Hh ] |].
  cbn beta. intros o [t []] Ho.
  wp_step. destruct (respond w (PageClose page) t) as [[] | e] eqn:Eclose.
  - left. exact Ho.
  - right. exists e. split; [ reflexivity | right; eauto ].
Qed.

Section Settling.
Variable self : automation.
Variable w : world.

Lemma post_to_linkedin_settles content image_path c :
  wp (post_to_linkedin self content image_path) w c (fun o _ => settled w o).
Proof.
  unfold post_to_linkedin.
  destruct (SocialMedia.falsy (linkedin_email self)
            || SocialMedia.falsy (linkedin_password self)).
  { wp_step. left. eexists. split; [ reflexivity | apply failure_reports ]. }
  apply paged_settles.
  - intros page c'. wp_paths; reports_leaf.
  - intros e c'. wp_paths.
    eexists. split; [ reflexivity | apply failure_reports ].
Qed.

Lemma post_to_twitter_settles content image_path c :
  wp (post_to_twitter self content image_path) w c (fun o _ => settled w o).
Proof.
  unfold post_to_twitter.
  destruct (SocialMedia.falsy (twitter_email self)
            || SocialMedia.falsy (twitter_password self)).
  { wp_step. left. eexists. split; [ reflexivity | apply failure_reports ]. }
  apply paged_settles.
  - intros page c'. wp_paths; reports_leaf.
  - intros e c'. wp_paths.
    eexists. split; [ reflexivity | apply failure_reports ].
Qed.

Lemma post_to_medium_settles title content tags c :
  wp (post_to_medium title content tags) w c (fun o _ => settled w o).
Proof.
  unfold post_to_medium.
  apply paged_settles.
  - intros page c'. wp_paths; reports_leaf.
  - intros e c'. wp_paths.
    eexists. split; [ reflexivity | apply failure_reports ].
Qed.

End Settling.

(** ** When a Meta adapter reports success *)




End AdapterConduct.

Module Adapters.
Import SocialMedia Notions Sites Conduct PyFacts PostFacts AdapterConduct.

(** X13. Which errors an adapter lets through, in any world.
    [post_to_facebook] and [post_to_instagram] never raise: whatever the
    network answers, they return a result with a boolean [success].
    [post_to_linkedin], [post_to_twitter] and [post_to_medium] return
    such a result too, unless opening or closing the page raised: that
    error, and no other, reaches the caller. *)
Theorem adapters_raise_only_page_lifecycle_errors :
  forall (str_json : json -> pystr) (self : automation) (w : world) (c : config unit),
    (forall message image_url,
       answers (fst (run (post_to_facebook str_json self message image_url) w c))) /\
    (forall image_url caption,
       answers (fst (run (post_to_instagram str_json self image_url caption) w c))) /\
    (forall content image_path,
       settled w (fst (run (post_to_linkedin self content image_path) w c))) /\
    (forall content image_path,
       settled w (fst (run (post_to_twitter self content image_path) w c))) /\
    (forall title content tags,
       settled w (fst (run (post_to_medium title content tags) w c))).
Proof.
  intros str_json self w c. repeat split; intros.
  - apply (@post_to_facebook_answers str_json self w message image_url c).
  - apply (@post_to_instagram_answers str_json self w image_url caption c).
  - apply (@post_to_linkedin_settles self w content image_path c).
  - apply (@post_to_twitter_settles self w content image_path c).
  - apply (@post_to_medium_settles w title content tags c).
Qed.



End Adapters.

(* ===================================================================== *)
(** * The tags of a Medium story *)
(* ===================================================================== *)

Module TagFacts.
Import SocialMedia Notions Sites Conduct PyFacts AdapterConduct.

(** [tags[:5]] holds at most five items, whatever [tags] is. *)
Lemma slice5_items tags first_tags items :
  json_slice5 tags = Ok first_tags -> json_iter first_tags = Ok items ->
  length items <= 5.
Proof.
  destruct tags; unfold json_slice5; try discriminate; intros [= <-];
    unfold json_iter; intros [= <-].
  - rewrite length_map. change (length (firstn 5 s) <= 5). apply firstn_le_length.
  - change (length (firstn 5 l) <= 5). apply firstn_le_length.
Qed.

(** The loop over the tags presses a key once per tag, at most. *)
Lemma tags_loop page (items : list json) w c
    (Q : outcome unit -> config unit -> Prop) :
  (forall o c', presses (fst c') <= presses (fst c) + length items -> Q o c') ->
  wp (for_each items (fun tag =>
        perform (Fill page tag_input tag);;
        perform (Press page tag_input (u "Enter"));;
        sleep 500)) w c Q.
Proof.
  intros HQ.
  apply wp_for_each with
    (I := fun visited c0 => presses (fst c0) <= presses (fst c) + length visited).
  - cbn [length]. lia.
  - intros visited x rest c0 E HI.
    assert (Hlen : length visited + 1 <= length items).
    { rewrite E, length_app. cbn [length]. lia. }
    wp_walk; try apply HQ; cbn [presses fst snd]; rewrite ?length_app;
      cbn [length]; lia.
  - intros c0 HI. apply HQ. exact HI.
Qed.

Lemma post_to_medium_presses title content tags w c :
  wp (post_to_medium title content tags) w c
     (fun _ c' => presses (fst c') <= presses (fst c) + 5).
Proof.
  unfold post_to_medium. wp_walk; try (cbn [presses fst snd]; lia).
  apply tags_loop. intros o c' Hc'.
  match goal with
  | H1 : json_slice5 tags = Ok ?j, H2 : json_iter ?j = Ok ?items |- _ =>
      pose proof (@slice5_items _ _ _ H1 H2) as Hitems
  end.
  cbn [presses fst snd] in Hc'.
  wp_walk; cbn [presses fst snd]; lia.
Qed.

End TagFacts.

Module Tags.
Import SocialMedia Notions Sites Conduct PyFacts TagFacts.

(** X15. [post_to_medium] submits at most five tags.  In any world and
    for any title, content and tags (a list of any length, a text, or
    anything else), the run presses a key at most five times: once per
    tag it submits. *)
Theorem medium_submits_at_most_five_tags :
  forall (w : world) (c : config unit) (title content tags : json),
    presses (fst (snd (run (post_to_medium title content tags) w c)))
    <= presses (fst c) + 5.
Proof.
  intros w c title content tags.
  apply (@post_to_medium_presses title content tags w c).
Qed.

End Tags.

(* ===================================================================== *)
(** * The batch at the edges of its assumptions *)
(* ===================================================================== *)

Module BatchFacts.
Import SocialMedia Notions Sites Conduct PyFacts SkipFacts PostFacts AdapterConduct.

(** A block of [post_to_all_platforms] whose payload has any shape: it
    raises when the payload is present and no mapping, and goes on
    otherwise. *)
Ltac shaped_block adapter_answers :=
  unfold no_mapping;
  lazymatch goal with
  | |- wp (if truthy ?j then _ else _) _ _ _ =>
      destruct j as [| [|] | z | [| ? ?] | [| ? ?] | [| ? ?]]
  end;
  cbn [truthy andb negb];
  try (lazymatch goal with
       | |- context [ (?z =? 0)%Z ] => destruct (z =? 0)%Z
       end; cbn [negb andb]);
  first
    [ solve [ wp_step; eauto ]
    | solve [ unfold field; cbn [json_get]; wp_step; wp_step; reflexivity ]
    | unfold field; cbn [json_get];
      repeat (wp_step; wp_step);
      wp_step;
      eapply wp_mono; [ apply adapter_answers |];
      cbn beta;
      let r := fresh "r" in
      intros ? ? (r & -> & _); wp_step; eauto ].

(** One block in the run of the batch. *)
Ltac next_block content p tac :=
  apply wp_bind;
  eapply wp_mono with
    (P := fun o _ => if no_mapping (requested content p) then o = Raised no_get
                     else exists results', o = Ok results');
  [ tac
  | cbn beta;
    let o := fresh "o" in
    let H := fresh "H" in
    intros o ? H;
    destruct (no_mapping (requested content p)); cbn [orb];
    [ subst o; reflexivity | destruct H as [? ->] ] ].

Lemma post_to_all_platforms_shapes str_json self w c content :
  healthy_browser w ->
  wp (post_to_all_platforms str_json self content) w c
     (fun o _ =>
        if existsb (fun p => no_mapping (requested content p)) platforms
        then o = Raised no_get
        else exists results, o = Ok results).
Proof.
  intros Hb. unfold post_to_all_platforms, platforms. cbn [existsb].
  next_block content (u "facebook") ltac:(shaped_block (@post_to_facebook_answers str_json self w)).
  next_block content (u "instagram") ltac:(shaped_block (@post_to_instagram_answers str_json self w)).
  next_block content (u "linkedin") ltac:(shaped_block (@post_to_linkedin_answers self w Hb)).
  next_block content (u "twitter") ltac:(shaped_block (@post_to_twitter_answers self w Hb)).
  next_block content (u "medium") ltac:(shaped_block (@post_to_medium_answers w Hb)).
  wp_step. eauto.
Qed.

(** ** When no page can be opened *)

Lemma paged_stops (A : Type) (body : nat -> M unit A) w c :
  raises w NewPage ->
  wp (page <- perform NewPage;; body page) w c
     (fun o _ => exists e, o = Raised e /\ lifecycle_error w e).
Proof.
  intros H. wp_step. wp_step. destruct (H (fst c)) as [e E]. rewrite E.
  exists e. split; [ reflexivity | left; eauto ].
Qed.

(** A block whose payload is a mapping, posted by an adapter that always
    answers. *)
Ltac mapping_block content Hmap p adapter_answers :=
  apply wp_bind;
  eapply wp_mono with (P := fun o _ => exists results', o = Ok results');
  [ let T := fresh "T" in
    destruct (truthy (requested content p)) eqn:T;
    [ let d := fresh "d" in
      let E := fresh "E" in
      destruct (@Posting.payload_is_mapping content Hmap p ltac:(cbn; tauto) T) as [d E];
      rewrite E; unfold field; cbn [json_get];
      repeat (wp_step; wp_step);
      wp_step;
      eapply wp_mono; [ apply adapter_answers |];
      cbn beta;
      let r := fresh "r" in
      intros ? ? (r & -> & _); wp_step; eauto
    | wp_step; eauto ]
  | cbn beta; intros ? ? [? ->] ].

(** A block whose adapter opens a page when [opens] holds. *)
Ltac paged_block content Hmap Hraise p opens adapter :=
  apply wp_bind;
  eapply wp_mono with
    (P := fun o _ => if opens then exists e, o = Raised e /\ lifecycle_error _ e
                     else exists results', o = Ok results');
  [ let T := fresh "T" in
    destruct (truthy (requested content p)) eqn:T; cbn [andb];
    [ let d := fresh "d" in
      let E := fresh "E" in
      destruct (@Posting.payload_is_mapping content Hmap p ltac:(cbn; tauto) T) as [d E];
      rewrite E; unfold field; cbn [json_get];
      repeat (wp_step; wp_step);
      unfold adapter;
      try lazymatch goal with
          | |- context [ SocialMedia.falsy ?a || SocialMedia.falsy ?b ] =>
              destruct (SocialMedia.falsy a || SocialMedia.falsy b); cbn [negb]
          end;
      first
        [ solve [ wp_step; wp_step; wp_step; eauto ]
        | wp_step; eapply wp_mono; [ apply paged_stops; exact Hraise |];
          cbn beta; intros ? ? (? & -> & ?); eauto ]
    | wp_step; eauto ]
  | cbn beta;
    let o := fresh "o" in
    let H := fresh "H" in
    intros o ? H;
    destruct opens; cbn [orb];
    [ destruct H as (? & -> & ?); eauto | destruct H as [? ->] ] ].

Lemma post_to_all_platforms_without_browser str_json self w c content :
  raises w NewPage ->
  payloads_are_mappings content ->
  wp (post_to_all_platforms str_json self content) w c
     (fun o _ =>
        if needs_a_page self content
        then exists e, o = Raised e /\ lifecycle_error w e
        else exists results, o = Ok results).
Proof.
  intros Hraise Hmap. unfold post_to_all_platforms, needs_a_page.
  mapping_block content Hmap (u "facebook") (@post_to_facebook_answers str_json self w).
  mapping_block content Hmap (u "instagram") (@post_to_instagram_answers str_json self w).
  paged_block content Hmap Hraise (u "linkedin")
    (truthy (requested content (u "linkedin"))
     && negb (SocialMedia.falsy (linkedin_email self)
              || SocialMedia.falsy (linkedin_password self)))
    post_to_linkedin.
  paged_block content Hmap Hraise (u "twitter")
    (truthy (requested content (u "twitter"))
     && negb (SocialMedia.falsy (twitter_email self)
              || SocialMedia.falsy (twitter_password self)))
    post_to_twitter.
  paged_block content Hmap Hraise (u "medium")
    (truthy (requested content (u "medium"))) post_to_medium.
  wp_step. eauto.
Qed.

End BatchFacts.

Module Batch.
Import SocialMedia Notions Sites Conduct PyFacts PostFacts AdapterConduct BatchFacts.

(** X16. A payload that is no mapping stops the whole batch.  With a
    browser that opens and closes pages, [post_to_all_platforms] raises
    the attribute error of [get] as soon as one of the five payloads is
    present, not empty and not a mapping (a text, a number, a list):
    no result is returned, also for the platforms it had already posted
    to.  In every other case, an empty text or an empty list included,
    it returns results. *)
Theorem batch_stops_at_a_payload_that_is_no_mapping :
  forall (str_json : json -> pystr) (self : automation) (w : world)
         (c : config unit) (content : dict json),
    healthy_browser w ->
    if existsb (fun p => no_mapping (requested content p)) platforms
    then exists c',
           run (post_to_all_platforms str_json self content) w c = (Raised no_get, c')
    else exists results c',
           run (post_to_all_platforms str_json self content) w c = (Ok results, c').
Proof.
  intros str_json self w c content Hb.
  pose proof (@post_to_all_platforms_shapes str_json self w c content Hb) as H.
  unfold wp in H. unfold run.
  destruct (post_to_all_platforms str_json self content w c) as [o c'].
  cbn [fst] in H.
  destruct (existsb (fun p => no_mapping (requested content p)) platforms).
  - subst o. eauto.
  - destruct H as [results ->]. eauto.
Qed.

Lemma batch_stops_witness :
  exists c',
    run (post_to_all_platforms str_of_scalar anonymous text_payload)
        (world_of (plain_site 0 [])) ([], tt) = (Raised no_get, c').
Proof.
  refine (@batch_stops_at_a_payload_that_is_no_mapping str_of_scalar anonymous
            (world_of (plain_site 0 [])) ([], tt) text_payload _).
  split; [ intros tr; exists 1; reflexivity | intros p tr; exists tt; reflexivity ].
Defined.

(** X17. A browser that cannot open a page.  When every payload is a
    mapping, [post_to_all_platforms] raises what opening the page raised
    exactly when the request needs a page: LinkedIn or Twitter is asked
    for and its credentials are set, or Medium is asked for.  Otherwise
    it returns results.  The error of the first page ends the batch: the
    results of the platforms before it are not returned. *)
Theorem batch_without_a_browser :
  forall (str_json : json -> pystr) (self : automation) (w : world)
         (c : config unit) (content : dict json),
    raises w NewPage ->
    payloads_are_mappings content ->
    if needs_a_page self content
    then exists e c',
           run (post_to_all_platforms str_json self content) w c = (Raised e, c') /\
           lifecycle_error w e
    else exists results c',
           run (post_to_all_platforms str_json self content) w c = (Ok results, c').
Proof.
  intros str_json self w c content Hraise Hmap.
  pose proof (@post_to_all_platforms_without_browser str_json self w c content
                Hraise Hmap) as H.
  unfold wp in H. unfold run.
  destruct (post_to_all_platforms str_json self content w c) as [o c'].
  cbn [fst] in H.
  destruct (needs_a_page self content).
  - destruct H as (e & -> & He). eauto.
  - destruct H as [results ->]. eauto.
Qed.

Lemma batch_without_a_browser_witness :
  exists e c',
    run (post_to_all_platforms str_of_scalar signed_in two_platforms)
        (world_of no_browser) ([], tt) = (Raised e, c') /\
    lifecycle_error (world_of no_browser) e.
Proof.
  refine (@batch_without_a_browser str_of_scalar signed_in (world_of no_browser)
            ([], tt) two_platforms _ Posting.two_platforms_mappings).
  intros tr. exists timeout. reflexivity.
Defined.

(** X18. Without credentials nothing is called.  When the Meta token, a
    LinkedIn credential and a Twitter credential are missing, every
    payload is a mapping and Medium is not asked for,
    [post_to_all_platforms] makes no call and writes no log line: it
    returns, for each platform asked for and in the order facebook,
    instagram, linkedin, twitter, the failure that names the missing
    credential. *)
Theorem without_credentials_nothing_is_called :
  forall (str_json : json -> pystr) (self : automation) (w : world)
         (c : config unit) (content : dict json),
    falsy (meta_token self) = true ->
    falsy (linkedin_email self) || falsy (linkedin_password self) = true ->
    falsy (twitter_email self) || falsy (twitter_password self) = true ->
    payloads_are_mappings content ->
    truthy (requested content (u "medium")) = false ->
    run (post_to_all_platforms str_json self content) w c
    = (Ok (map (fun p => (p, not_set p))
               (filter (fun p => truthy (requested content p)) platforms)), c).
Proof.
  intros str_json self w c content Hmeta Hli Htw Hmap Hmed.
  unfold run, post_to_all_platforms, platforms.
  unfold post_to_facebook, post_to_instagram, post_to_linkedin, post_to_twitter.
  cbn [filter]. rewrite Hmeta, Hli, Htw, Hmed.
  assert (Hd : forall p, In p Notions.platforms ->
                 truthy (requested content p) = true ->
                 exists d, requested content p = JDict d)
    by (intros p; apply Posting.payload_is_mapping; exact Hmap).
  destruct (truthy (requested content (u "facebook"))) eqn:T1;
    [ destruct (Hd (u "facebook") ltac:(cbn; tauto) T1) as [d1 E1]; rewrite E1 |];
  (destruct (truthy (requested content (u "instagram"))) eqn:T2;
    [ destruct (Hd (u "instagram") ltac:(cbn; tauto) T2) as [d2 E2]; rewrite E2 |]);
  (destruct (truthy (requested content (u "linkedin"))) eqn:T3;
    [ destruct (Hd (u "linkedin") ltac:(cbn; tauto) T3) as [d3 E3]; rewrite E3 |]);
  (destruct (truthy (requested content (u "twitter"))) eqn:T4;
    [ destruct (Hd (u "twitter") ltac:(cbn; tauto) T4) as [d4 E4]; rewrite E4 |]);
  destruct c; reflexivity.
Qed.

Lemma two_platforms_without_medium :
  truthy (requested two_platforms (u "medium")) = false.
Proof. reflexivity. Defined.

Lemma without_credentials_witness :
  run (post_to_all_platforms str_of_scalar anonymous two_platforms)
      (world_of (plain_site 0 [])) ([], tt)
  = (Ok [ (u "facebook", not_set (u "facebook"));
          (u "twitter", not_set (u "twitter")) ], ([], tt)).
Proof.
  exact (@without_credentials_nothing_is_called str_of_scalar anonymous
           (world_of (plain_site 0 [])) ([], tt) two_platforms
           eq_refl eq_refl eq_refl Posting.two_platforms_mappings
           two_platforms_without_medium).
Defined.

End Batch.

(* ===================================================================== *)
(** * The requests the workflows build *)
(* ===================================================================== *)

Module GeneratedFacts.
Import SocialMedia MasterAutomation Notions Sites Conduct PyFacts SkipFacts PostFacts.
Import Posting AdapterConduct BatchFacts.

Lemma post_to_all_platforms_stages str_json self w c content :
  healthy_browser w ->
  payloads_are_mappings content ->
  wp (post_to_all_platforms str_json self content) w c
     (fun o _ => exists results, o = Ok results /\ stage content platforms results).
Proof.
  intros Hb Hmap. unfold post_to_all_platforms.
  pose proof (stage_start content) as Hst.
  platform_block (@post_to_facebook_answers str_json self w).
  platform_block (@post_to_instagram_answers str_json self w).
  platform_block (@post_to_linkedin_answers self w Hb).
  platform_block (@post_to_twitter_answers self w Hb).
  platform_block (@post_to_medium_answers w Hb).
  wp_step. eexists. split; [ reflexivity | exact Hst ].
Qed.

(** A request built by [generate_content] or by [post_crew_output]. *)
Section Built.
Variable request : dict json.
Hypothesis built :
  (exists topic, request = generate_content topic) \/
  (exists text, request = social_content text).

Lemma built_mappings : payloads_are_mappings request.
Proof.
  intros p H. cbn in H.
  destruct built as [[topic ->] | [text ->]];
    repeat (destruct H as [<- | H]; [ vm_compute; exact I |]); destruct H.
Qed.

Lemma built_platforms :
  filter (fun p => truthy (requested request p)) platforms
  = [ u "facebook"; u "linkedin"; u "twitter"; u "medium" ].
Proof. destruct built as [[topic ->] | [text ->]]; reflexivity. Qed.

Lemma built_needs_a_page self : needs_a_page self request = true.
Proof.
  unfold needs_a_page.
  assert (H : truthy (requested request (u "medium")) = true)
    by (destruct built as [[topic ->] | [text ->]]; reflexivity).
  rewrite H. apply orb_true_r.
Qed.

End Built.

End GeneratedFacts.

Module Generated.
Import SocialMedia MasterAutomation Notions Sites Conduct PyFacts.
Import Posting BatchFacts GeneratedFacts.

(** X19. What becomes of the requests the workflows build.  For the
    request [generate_content] builds for any topic, and for the one
    [post_crew_output] builds from any text: with a browser that opens and
    closes pages, [post_to_all_platforms] returns exactly four entries,
    for facebook, linkedin, twitter and medium in this order, each saying
    whether the post succeeded, and never one for instagram.  With a
    browser that cannot open a page it returns nothing: the request always
    asks for Medium, so the error of opening the page is raised, whatever
    credentials are set. *)
Theorem built_requests_reach_four_platforms :
  forall (request : dict json) (str_json : json -> pystr) (self : automation)
         (w : world) (c : config unit),
    (exists topic, request = generate_content topic) \/
    (exists text, request = social_content text) ->
    (healthy_browser w ->
     exists results c',
       run (post_to_all_platforms str_json self request) w c = (Ok results, c') /\
       keys results = [ u "facebook"; u "linkedin"; u "twitter"; u "medium" ] /\
       forall p r, dict_get results p = Some r -> reports r) /\
    (raises w NewPage ->
     exists e c',
       run (post_to_all_platforms str_json self request) w c = (Raised e, c') /\
       lifecycle_error w e).
Proof.
  intros request str_json self w c Hbuilt. split.
  - intros Hb.
    pose proof (@post_to_all_platforms_stages str_json self w c request Hb
                  (built_mappings Hbuilt)) as H.
    unfold wp in H. unfold run.
    destruct (post_to_all_platforms str_json self request w c) as [o c'].
    cbn [fst] in H. destruct H as (results & -> & Hk & Hr).
    exists results, c'. split; [ reflexivity |].
    split; [ rewrite Hk; apply built_platforms; exact Hbuilt | exact Hr ].
  - intros Hraise.
    pose proof (@post_to_all_platforms_without_browser str_json self w c request
                  Hraise (built_mappings Hbuilt)) as H.
    rewrite (built_needs_a_page Hbuilt) in H.
    unfold wp in H. unfold run.
    destruct (post_to_all_platforms str_json self request w c) as [o c'].
    cbn [fst] in H. destruct H as (e & -> & He). eauto.
Qed.

Lemma built_requests_witness :
  exists e c',
    run (post_to_all_platforms str_of_scalar anonymous
           (generate_content (u "customer support")))
        (world_of no_browser) ([], tt) = (Raised e, c') /\
    lifecycle_error (world_of no_browser) e.
Proof.
  refine (proj2 (@built_requests_reach_four_platforms
                   (generate_content (u "customer support")) str_of_scalar anonymous
                   (world_of no_browser) ([], tt) _) _).
  - left. exists (u "customer support"). reflexivity.
  - intros tr. exists timeout. reflexivity.
Defined.

End Generated.

(* ===================================================================== *)
(** * The businesses of a Google Maps search *)
(* ===================================================================== *)

Module MapsFacts.
Import LeadScraper Notions Sites Conduct PyFacts ObjFacts ScrapeFacts GatherFacts.

Lemma business_rating_returns business w cl
    (Q : outcome pyval -> config (scraper * list nat) -> Prop) :
  (forall tr' v, Q (Ok v) (tr', snd cl)) ->
  wp (business_rating business) w cl Q.
Proof.
  intros HQ. unfold business_rating. wp_step. wp_step. wp_step.
  destruct (respond w _ (fst cl)); wp_step; apply HQ.
Qed.

Lemma business_address_returns business w cl
    (Q : outcome pystr -> config (scraper * list nat) -> Prop) :
  (forall tr' a, Q (Ok a) (tr', snd cl)) ->
  wp (business_address business) w cl Q.
Proof.
  intros HQ. unfold business_address. wp_step. wp_step. wp_step.
  destruct (respond w _ (fst cl)) as [[| n] | e]; [ | | wp_step; apply HQ ].
  - wp_step. apply HQ.
  - wp_step. destruct (respond w _ _); [| wp_step ]; apply HQ.
Qed.

(** One business: whatever the page does, nothing is raised and at most
    one lead is gathered. *)
Lemma google_maps_business_gathers query location business w s0 k cl :
  gathered (google_maps_lead query location) s0 k cl ->
  wp (google_maps_business query location business) w cl
     (fun o cl' => o = Ok tt /\
                   gathered (google_maps_lead query location) s0 (Datatypes.S k) cl').
Proof.
  destruct cl as [tr [s l]]. intros H.
  assert (Hk : forall tr',
             gathered (google_maps_lead query location) s0 (Datatypes.S k) (tr', (s, l))).
  { intros tr'. eapply gathered_weaken; [ exact H | lia ]. }
  unfold google_maps_business. wp_step.
  wp_call ltac:(wp_step; auto).
  wp_step. apply business_rating_returns. intros tr1 rating. cbn [snd].
  wp_step. apply business_address_returns. intros tr2 address. cbn [snd].
  wp_step. wp_step.
  eapply stored_lead_gathers;
    [ eapply gathered_weaken; [ exact H | apply Nat.le_refl ] | | auto ].
  repeat split; eexists; reflexivity.
Qed.

Section Bare.
Variable w : world.
Hypothesis names_are_read :
  forall b, returns w (InnerText (Within b business_name_sel)).
Hypothesis no_rating :
  forall b, raises w (GetAttribute (Within b business_rating_sel) (u "aria-label")).
Hypothesis no_address :
  forall b, raises w (InnerText (Nth (Within b business_address_sel) 0)).

Lemma business_rating_placeholder business cl
    (Q : outcome pyval -> config (scraper * list nat) -> Prop) :
  (forall tr', Q (Ok (VStr (u "No rating"))) (tr', snd cl)) ->
  wp (business_rating business) w cl Q.
Proof.
  intros HQ. unfold business_rating. wp_step. wp_step. wp_step.
  destruct (no_rating business (fst cl)) as [e ->]. wp_step. apply HQ.
Qed.

Lemma business_address_placeholder business cl
    (Q : outcome pystr -> config (scraper * list nat) -> Prop) :
  (forall tr', Q (Ok (u "No address")) (tr', snd cl)) ->
  wp (business_address business) w cl Q.
Proof.
  intros HQ. unfold business_address. wp_step. wp_step. wp_step.
  destruct (respond w _ (fst cl)) as [[| n] | e]; [ | | wp_step; apply HQ ].
  - wp_step. apply HQ.
  - wp_step.
    match goal with
    | |- context [ respond w (InnerText _) ?tr ] =>
        destruct (no_address business tr) as [e ->]
    end.
    wp_step. apply HQ.
Qed.

Lemma google_maps_business_bare query location business s0 k cl :
  gathered placeholders s0 k cl ->
  wp (google_maps_business query location business) w cl
     (fun o cl' => o = Ok tt /\
                   gathered placeholders s0 (Datatypes.S k) cl' /\
                   length (snd (snd cl')) = Datatypes.S (length (snd (snd cl)))).
Proof.
  destruct cl as [tr [s l]]. intros H.
  unfold google_maps_business. wp_step. wp_step. wp_step.
  destruct (names_are_read business tr) as [name E]. cbn [fst]. rewrite E.
  wp_step. apply business_rating_placeholder. intros tr1. cbn [snd].
  wp_step. apply business_address_placeholder. intros tr2. cbn [snd].
  wp_step. wp_step. unfold new_dict. repeat wp_step.
  split; [ reflexivity |]. cbn [fst snd]. split.
  - eapply gathered_push; [ exact H |]. split; reflexivity.
  - rewrite length_app. cbn [length]. lia.
Qed.

Lemma google_maps_businesses_bare page query location n tr s :
  wp (google_maps_businesses page query location n) w (tr, (s, []))
     (fun o cl' =>
        o = Ok tt /\
        gathered placeholders s (Nat.min n 50) cl' /\
        length (snd (snd cl')) = Nat.min n 50).
Proof.
  unfold google_maps_businesses.
  assert (Hlen : length (slice_to 50 (map (Nth (google_maps_results page)) (seq 0 n)))
                 = Nat.min n 50).
  { unfold slice_to. cbn [Z.ltb Z.compare].
    rewrite length_firstn, length_map, length_seq.
    change (Z.to_nat 50) with 50. apply Nat.min_comm. }
  rewrite <- Hlen.
  apply wp_for_each with
    (I := fun visited cl0 => gathered placeholders s (length visited) cl0 /\
                             length (snd (snd cl0)) = length visited).
  - split; [ apply gathered_start | reflexivity ].
  - intros visited x rest cl0 _ [HI Hl].
    eapply wp_mono; [ apply (@google_maps_business_bare query location x s _ cl0 HI) |].
    cbn beta. intros o cl' (-> & HI' & Hl').
    rewrite length_app, Nat.add_comm. cbn [length Nat.add].
    split; [ exact HI' | congruence ].
  - intros cl' [HI Hl]. auto.
Qed.

End Bare.

End MapsFacts.

Module Maps.
Import LeadScraper Notions Sites Conduct PyFacts ObjFacts ScrapeFacts GatherFacts MapsFacts.

(** X20. The loop of [scrape_google_maps_businesses] over the businesses
    of a page never raises, whatever the page does: a business whose name
    cannot be read is skipped with a warning.  It gathers at most 50
    leads, all new and distinct; each holds the platform [google_maps],
    the query, the location, a business name, a rating and an address,
    and neither a name nor a handle; and the leads the scraper stored
    before are as they were. *)
Theorem google_maps_loop_gathers_at_most_fifty :
  forall (w : world) (tr : list event) (s : scraper)
         (page : nat) (query location : pystr) (n : nat),
    exists cl',
      run (google_maps_businesses page query location n) w (tr, (s, [])) = (Ok tt, cl') /\
      leads (fst (snd cl')) = leads s /\
      (forall x, x < next_id s -> objs (fst (snd cl')) x = objs s x) /\
      length (snd (snd cl')) <= 50 /\
      NoDup (snd (snd cl')) /\
      Forall (fun r => next_id s <= r < next_id (fst (snd cl')) /\
                       google_maps_lead query location (objs (fst (snd cl')) r))
             (snd (snd cl')).
Proof.
  intros w tr s page query location n.
  assert (H : wp (google_maps_businesses page query location n) w (tr, (s, []))
                 (fun o cl' => o = Ok tt /\
                               gathered (google_maps_lead query location) s 50 cl')).
  { unfold google_maps_businesses.
    apply gather_loop with (P := google_maps_lead query location) (s0 := s).
    - intros x k cl0. apply google_maps_business_gathers.
    - apply gathered_start.
    - intros [tr' sl] Hc. split; [ reflexivity |].
      eapply gathered_weaken; [ exact Hc |].
      apply (@slice_of_results_length 50 (Nth (google_maps_results page)) n). lia. }
  unfold wp in H. unfold run.
  destruct (google_maps_businesses page query location n w (tr, (s, []))) as [o cl'].
  cbn [fst snd] in H. destruct H as (-> & H1 & _ & H3 & H4 & H5 & H6).
  exists cl'. auto 10.
Qed.

(** X21. A business is kept for its name alone.  In a world where the
    name of every business can be read, and neither a rating nor the text
    of an address, the loop gathers one lead for each of the first 50
    businesses, and every lead holds the placeholders [No rating] and
    [No address]. *)
Theorem a_business_is_kept_for_its_name :
  forall (w : world) (tr : list event) (s : scraper)
         (page : nat) (query location : pystr) (n : nat),
    (forall b, returns w (InnerText (Within b business_name_sel))) ->
    (forall b, raises w (GetAttribute (Within b business_rating_sel) (u "aria-label"))) ->
    (forall b, raises w (InnerText (Nth (Within b business_address_sel) 0))) ->
    exists cl',
      run (google_maps_businesses page query location n) w (tr, (s, [])) = (Ok tt, cl') /\
      length (snd (snd cl')) = Nat.min n 50 /\
      Forall (fun r => placeholders (objs (fst (snd cl')) r)) (snd (snd cl')).
Proof.
  intros w tr s page query location n Hname Hrating Haddr.
  pose proof (@google_maps_businesses_bare w Hname Hrating Haddr page query location n tr s)
    as H.
  unfold wp in H. unfold run.
  destruct (google_maps_businesses page query location n w (tr, (s, []))) as [o cl'].
  cbn [fst snd] in H. destruct H as (-> & (_ & _ & _ & _ & _ & H6) & Hl).
  exists cl'. split; [ reflexivity |]. split; [ exact Hl |].
  revert H6. apply Forall_impl. intros r [_ Hr]. exact Hr.
Qed.

Lemma a_business_is_kept_witness :
  exists cl',
    run (google_maps_businesses 1 (u "cafes") (u "Kampala") 2)
        (world_of bare_cards) ([], (fresh, [])) = (Ok tt, cl') /\
    length (snd (snd cl')) = 2 /\
    Forall (fun r => placeholders (objs (fst (snd cl')) r)) (snd (snd cl')).
Proof.
  refine (@a_business_is_kept_for_its_name (world_of bare_cards) [] fresh
            1 (u "cafes") (u "Kampala") 2 _ _ _).
  - intros b tr. eexists. reflexivity.
  - intros b tr. eexists. reflexivity.
  - intros b tr. eexists. reflexivity.
Defined.

End Maps.

(* ===================================================================== *)
(** * The outreach file *)
(* ===================================================================== *)

Module LetterFacts.
Import LeadScraper MasterAutomation Notions Sites Conduct PyFacts Outreach.

Lemma message_is_generated lead template :
  exists m, generate_outreach_message lead template = Ok m.
Proof.
  unfold generate_outreach_message.
  destruct (template_choice template) as [-> | [-> | [-> | ->]]].
  - apply default_renders.
  - apply linkedin_renders.
  - apply twitter_renders.
  - apply cold_email_renders.
Qed.

(** ** What a template reads *)

Ltac same_rendering tpl :=
  unfold format;
  let t := eval vm_compute in tpl in change tpl with t;
  cbv - [app str]; reflexivity.

Lemma default_reads_the_name name headline handle topic headline' handle' topic' :
  format template_default
    (dict_of [ (u "name", name); (u "headline", headline);
               (u "handle", handle); (u "topic", topic) ])
  = format template_default
      (dict_of [ (u "name", name); (u "headline", headline');
                 (u "handle", handle'); (u "topic", topic') ]).
Proof. same_rendering template_default. Qed.

Lemma linkedin_reads_name_and_headline name headline handle topic handle' topic' :
  format template_linkedin
    (dict_of [ (u "name", name); (u "headline", headline);
               (u "handle", handle); (u "topic", topic) ])
  = format template_linkedin
      (dict_of [ (u "name", name); (u "headline", headline);
                 (u "handle", handle'); (u "topic", topic') ]).
Proof. same_rendering template_linkedin. Qed.

Lemma default_is_chosen :
  get_default templates (u "default") template_default = template_default.
Proof. reflexivity. Qed.

Lemma linkedin_is_chosen :
  get_default templates (u "linkedin") template_default = template_linkedin.
Proof. reflexivity. Qed.

(** The default letter of a lead is that of its name alone. *)
Lemma default_letter_of_name d name :
  dict_get d (u "name") = Some name ->
  generate_outreach_message d (u "default")
  = generate_outreach_message (dict_of [ (u "name", name) ]) (u "default").
Proof.
  intros H. unfold generate_outreach_message. rewrite default_is_chosen.
  unfold get_default at 1. rewrite H. apply default_reads_the_name.
Qed.

Lemma default_letter_without_name d :
  dict_get d (u "name") = None ->
  generate_outreach_message d (u "default")
  = generate_outreach_message [] (u "default").
Proof.
  intros H. unfold generate_outreach_message. rewrite default_is_chosen.
  unfold get_default at 1. rewrite H. apply default_reads_the_name.
Qed.

Lemma linkedin_letter_of_name_and_headline d name headline :
  dict_get d (u "name") = Some name ->
  dict_get d (u "headline") = Some headline ->
  generate_outreach_message d (u "linkedin")
  = generate_outreach_message
      (dict_of [ (u "name", name); (u "headline", headline) ]) (u "linkedin").
Proof.
  intros Hn Hh. unfold generate_outreach_message. rewrite linkedin_is_chosen.
  unfold get_default at 1 2. rewrite Hn, Hh. apply linkedin_reads_name_and_headline.
Qed.

(** ** One entry *)

Lemma outreach_entry_of platform d to :
  dict_get d (u "platform") = Some (VStr platform) ->
  str (get_default d (u "name") (get_default d (u "handle") (VStr (u "Unknown")))) = to ->
  forall template message,
    (if str_eqb platform (u "linkedin") then u "linkedin" else u "default") = template ->
    generate_outreach_message d template = Ok message ->
    outreach_entry d = Ok (letter to platform message).
Proof.
  intros Hp Hto template message Ht Hm.
  unfold outreach_entry, item. rewrite Hp. cbn [is_text]. rewrite Ht, Hm, Hto.
  reflexivity.
Qed.

Lemma outreach_entry_writes d :
  addressable d -> exists texts, outreach_entry d = Ok texts /\ length texts = 6.
Proof.
  intros H. unfold addressable in H. unfold outreach_entry, item.
  destruct (dict_get d (u "platform")) as [platform |]; [| contradiction ].
  destruct (message_is_generated d
              (if is_text platform (u "linkedin") then u "linkedin" else u "default"))
    as [m ->].
  eexists. split; reflexivity.
Qed.

Lemma outreach_entry_fails d :
  dict_get d (u "platform") = None ->
  outreach_entry d = Raised (KeyError (u "platform")).
Proof. intros H. unfold outreach_entry, item. rewrite H. reflexivity. Qed.

(** ** The loop *)

Lemma write_entries_all leads :
  Forall addressable leads ->
  exists texts, write_entries leads = (texts, Ok tt) /\
                length texts = 6 * length leads.
Proof.
  induction 1 as [| d rest Hd _ IH]; cbn [write_entries].
  - exists []. split; reflexivity.
  - destruct (@outreach_entry_writes _ Hd) as (texts & -> & Hl).
    destruct IH as (more & -> & Hm).
    exists (texts ++ more). split; [ reflexivity |].
    rewrite length_app. cbn [length]. lia.
Qed.

Lemma write_entries_stops before d after :
  Forall addressable before ->
  dict_get d (u "platform") = None ->
  write_entries (before ++ d :: after)
  = (fst (write_entries before), Raised (KeyError (u "platform"))).
Proof.
  intros Hb Hd. induction Hb as [| x rest Hx _ IH]; cbn [write_entries app].
  - rewrite (@outreach_entry_fails _ Hd). reflexivity.
  - destruct (@outreach_entry_writes _ Hx) as (texts & -> & _).
    rewrite IH. destruct (write_entries rest) as [more o]. reflexivity.
Qed.

Lemma has_platform_addressable d : has_platform d -> addressable d.
Proof. intros [p H]. unfold addressable. rewrite H. discriminate. Qed.

End LetterFacts.

Module Letters.
Import LeadScraper MasterAutomation Notions Sites Conduct PyFacts Outreach LetterFacts.

(** X22. The letter each kind of lead gets from the loop of
    [find_and_contact_leads].  A Twitter lead is written to by name, with
    the default letter of that name: neither its handle nor its hashtag is
    used, and the Twitter template never is.  A LinkedIn lead gets the
    LinkedIn letter of its name and headline.  A Google Maps or Facebook
    lead, which holds neither a name nor a handle, is addressed to
    [Unknown] and gets the letter of the empty lead, the same for all. *)
Theorem each_lead_gets_the_letter_of_its_platform :
  forall (d : lead),
    (forall hashtag, twitter_lead hashtag d ->
       exists name message,
         dict_get d (u "name") = Some (VStr name) /\
         generate_outreach_message (dict_of [ (u "name", VStr name) ]) (u "default")
         = Ok message /\
         outreach_entry d = Ok (letter name (u "twitter") message)) /\
    (linkedin_lead d ->
       exists name headline message,
         dict_get d (u "name") = Some (VStr name) /\
         dict_get d (u "headline") = Some (VStr headline) /\
         generate_outreach_message
           (dict_of [ (u "name", VStr name); (u "headline", VStr headline) ])
           (u "linkedin") = Ok message /\
         outreach_entry d = Ok (letter name (u "linkedin") message)) /\
    (forall query location, google_maps_lead query location d ->
       exists message,
         generate_outreach_message [] (u "default") = Ok message /\
         outreach_entry d = Ok (letter (u "Unknown") (u "google_maps") message)) /\
    (forall group_url, facebook_lead group_url d ->
       exists message,
         generate_outreach_message [] (u "default") = Ok message /\
         outreach_entry d = Ok (letter (u "Unknown") (u "facebook") message)).
Proof.
  intros d. repeat split.
  - intros hashtag (Hp & _ & (name & Hn & _) & _).
    destruct (message_is_generated d (u "default")) as [m Hm].
    exists name, m. split; [ exact Hn |].
    split; [ rewrite <- (@default_letter_of_name d _ Hn); exact Hm |].
    eapply outreach_entry_of; [ exact Hp | | reflexivity | exact Hm ].
    unfold get_default. rewrite Hn. reflexivity.
  - intros (Hp & (name & Hn) & (headline & Hh) & _).
    destruct (message_is_generated d (u "linkedin")) as [m Hm].
    exists name, headline, m. split; [ exact Hn |]. split; [ exact Hh |].
    split; [ rewrite <- (@linkedin_letter_of_name_and_headline d _ _ Hn Hh); exact Hm |].
    eapply outreach_entry_of; [ exact Hp | | reflexivity | exact Hm ].
    unfold get_default. rewrite Hn. reflexivity.
  - intros query location (Hp & _ & _ & _ & _ & _ & Hn & Hh).
    destruct (message_is_generated d (u "default")) as [m Hm].
    exists m. split; [ rewrite <- (@default_letter_without_name d Hn); exact Hm |].
    eapply outreach_entry_of; [ exact Hp | | reflexivity | exact Hm ].
    unfold get_default. rewrite Hn, Hh. reflexivity.
  - intros group_url (Hp & _ & _ & _ & Hn & Hh).
    destruct (message_is_generated d (u "default")) as [m Hm].
    exists m. split; [ rewrite <- (@default_letter_without_name d Hn); exact Hm |].
    eapply outreach_entry_of; [ exact Hp | | reflexivity | exact Hm ].
    unfold get_default. rewrite Hn, Hh. reflexivity.
Qed.

Lemma each_lead_gets_witness :
  exists message,
    generate_outreach_message [] (u "default") = Ok message /\
    outreach_entry cafe = Ok (letter (u "Unknown") (u "google_maps") message).
Proof.
  refine (proj1 (proj2 (proj2 (@each_lead_gets_the_letter_of_its_platform cafe)))
            (u "cafes") (u "Kampala") _).
  repeat split; eexists; reflexivity.
Defined.

(** X23. A lead without a platform ends the outreach loop.  When the
    leads before it hold a platform and it is among the first 20, the
    loop raises the key error of ['platform'] at that lead: the entries of
    the leads before it, six texts each, have been written, nothing of the
    lead itself, and no lead after it is looked at. *)
Theorem a_lead_without_platform_ends_the_outreach :
  forall (before after : list lead) (d : lead),
    Forall addressable before ->
    length before < 20 ->
    dict_get d (u "platform") = None ->
    exists texts,
      outreach_writes (before ++ d :: after)
      = (texts, Raised (KeyError (u "platform"))) /\
      outreach_writes before = (texts, Ok tt) /\
      length texts = 6 * length before.
Proof.
  intros before after d Hb Hlen Hd.
  destruct (@write_entries_all _ Hb) as (texts & Hw & Hl).
  exists texts. unfold outreach_writes.
  assert (E1 : firstn 20 before = before) by (apply firstn_all2; lia).
  assert (E2 : firstn 20 (before ++ d :: after)
               = before ++ d :: firstn (19 - length before) after).
  { rewrite firstn_app, E1.
    replace (20 - length before) with (Datatypes.S (19 - length before)) by lia.
    reflexivity. }
  rewrite E1, E2, (@write_entries_stops before d _ Hb Hd), Hw. auto.
Qed.

Lemma ada_is_addressable : Forall addressable [ada].
Proof.
  constructor; [| constructor ]. unfold addressable. vm_compute. discriminate.
Defined.

Lemma a_lead_without_platform_witness :
  exists texts,
    outreach_writes ([ada] ++ [] :: [bob])
    = (texts, Raised (KeyError (u "platform"))) /\
    outreach_writes [ada] = (texts, Ok tt) /\
    length texts = 6 * length [ada].
Proof.
  refine (@a_lead_without_platform_ends_the_outreach [ada] [bob] []
            ada_is_addressable _ eq_refl).
  cbn. lia.
Defined.

End Letters.

(* ===================================================================== *)
(** * From the scrapers to the outreach file *)
(* ===================================================================== *)

Module Pipeline.
Import LeadScraper MasterAutomation Notions Sites Conduct PyFacts ObjFacts FilterFacts.
Import KeepFacts LetterFacts.

(** X24. The outreach loop never fails on what the scrapers gathered.
    In every configuration a new [LeadScraper] reaches by calls of its
    scrapers, of [filter_quality_leads] and of [save_leads_to_csv], in any
    world, [filter_quality_leads] returns leads that all hold a platform:
    the loop of [find_and_contact_leads] over them raises no key error
    and writes six texts for each of the first 20, and nothing for the
    others. *)
Theorem outreach_of_gathered_leads_never_fails :
  forall (lower : pystr -> pystr) (w : world) (c : config scraper)
         (keywords : list pystr),
    reachable lower w c ->
    exists q c',
      run (filter_quality_leads lower keywords) w c = (Ok q, c') /\
      exists texts,
        outreach_writes (map (objs (snd c')) q) = (texts, Ok tt) /\
        length texts = 6 * Nat.min 20 (length q).
Proof.
  intros lower w [tr s] keywords Hreach.
  pose proof (@reachable_well_kept lower w (tr, s) Hreach) as Hs. cbn [snd] in Hs.
  pose proof (@filter_well_kept lower keywords w tr s Hs) as [_ Hall].
  destruct (@filter_quality_leads_run_any lower keywords w tr s)
    as (q & tr' & o' & kept & Hrun & Hq & _ & Hmem & _).
  rewrite Hrun in Hall. cbn [snd leads next_id objs] in Hall.
  exists q. eexists. split; [ exact Hrun |]. cbn [snd objs].
  assert (Hq' : Forall addressable (map o' q)).
  { apply Forall_forall. intros d Hd. apply in_map_iff in Hd.
    destruct Hd as (r & <- & Hr). apply has_platform_addressable.
    assert (Hk : In r kept).
    { rewrite Hq in Hr. revert Hr. apply Permutation_in.
      apply list_sort_reverse_perm with (key := fun a => score (o' a)). }
    apply Hmem in Hk. destruct Hk as [Hl _].
    rewrite Forall_forall in Hall. apply (Hall r Hl). }
  assert (Hadd : Forall addressable (firstn 20 (map o' q))).
  { rewrite <- (firstn_skipn 20 (map o' q)) in Hq'.
    apply Forall_app in Hq'. exact (proj1 Hq'). }
  destruct (@write_entries_all _ Hadd) as (texts & Hw & Hl).
  exists texts. split; [ exact Hw |].
  rewrite Hl, length_firstn, length_map. reflexivity.
Qed.

Lemma outreach_of_gathered_leads_witness :
  exists q c',
    run (filter_quality_leads ascii_lower [u "ada"])
        (world_of (plain_site 3 (u "Ada")))
        (snd (run (invoke ascii_lower (ScrapeTwitter (u "#ai") 2))
                  (world_of (plain_site 3 (u "Ada"))) ([], fresh)))
    = (Ok q, c') /\
    exists texts,
      outreach_writes (map (objs (snd c')) q) = (texts, Ok tt) /\
      length texts = 6 * Nat.min 20 (length q).
Proof.
  apply (@outreach_of_gathered_leads_never_fails ascii_lower
           (world_of (plain_site 3 (u "Ada")))).
  apply reach_call. apply reach_new.
Defined.

End Pipeline.

(* ===================================================================== *)
(** * Worked examples *)
(* ===================================================================== *)

Module Examples.
Import LeadScraper Notions Sites.

Example strip_spaces : strip (u "  Ada Lovelace ") = u "Ada Lovelace".
Proof. reflexivity. Qed.

Example strip_blank : strip (u "   ") = [].
Proof. reflexivity. Qed.

Example split_user :
  split_on nl (u "Ada" ++ [nl] ++ u "@ada") = [u "Ada"; u "@ada"].
Proof. reflexivity. Qed.

Example slice_negative : slice_to (-1) [1; 2; 3] = [1; 2].
Proof. reflexivity. Qed.

Example str_int_negative : str_int (-12) = u "-12".
Proof. reflexivity. Qed.

Example sorted_keys :
  sorted_str [u "name"; u "handle"; u "platform"]
  = [u "handle"; u "name"; u "platform"].
Proof. reflexivity. Qed.

Example header_of_two_leads :
  header two_leads = [u "handle"; u "headline"; u "name"; u "platform"].
Proof. reflexivity. Qed.

Example five_of_twenty :
  exists r c',
    run (scrape_twitter_leads (u "#ai") 5)
        (world_of (plain_site 20 (u "Ada"))) ([], fresh) = (Ok r, c') /\
    length r = 5.
Proof. do 2 eexists. split; [ vm_compute; reflexivity | reflexivity ]. Qed.

Example format_single_brace :
  format (u "50% off}") [] = Raised (ValueError (u "Single '}' encountered in format string")).
Proof. reflexivity. Qed.

End Examples.
